(** * Load balancer: backend registry, health prober, selector, forwarder

    A shallow embedding of [load_balancer.cpp], and of the backend server
    of [backend_server.cpp] that it talks to.  Every C++ method of the
    balancer is a function in a small state-and-error monad over the
    [World] that the program's objects make up:

    - [vector<T>] is a [list T]; [v[i]] is a lookup that fails (undefined
      behaviour in C++) when [i] is out of range;
    - [int] is a [Z] in the range [INT_MIN .. INT_MAX]; [++] and [--] that
      leave the range are undefined behaviour and fail;
    - [size_t] is a [Z] taken modulo [2^64];
    - system calls ([socket], [connect], [send], [recv]) take their
      results from a [Net] oracle, and every call the program makes on a
      socket or on a counter is appended to the world's [trace].

    The mutexes of the source guard each method body; the embedding runs
    one method at a time, so each body is one atomic step, and one handler
    or one probe cycle runs from start to end.  Of [main] only the choice
    of the algorithm is embedded; the accept loops and the threads are
    outside the embedding. *)

From Stdlib Require Import ZArith String Ascii List Lia Bool DecimalString
  DecimalPos.
From stdpp Require Import base list sorting.
From Equations Require Import Equations.
Import ListNotations.

Local Open Scope string_scope.
Local Open Scope list_scope.
Local Open Scope Z_scope.

(** ** Machine integers *)

Definition INT_MAX : Z := 2147483647.
Definition INT_MIN : Z := -2147483648.
Definition SIZE_MOD : Z := 2 ^ 64.

(** [size_t] arithmetic wraps. *)
Definition size_wrap (z : Z) : Z := z mod SIZE_MOD.

(** [(int)i] for a [size_t] [i]: the low 32 bits, read as two's complement. *)
Definition int_of_size (z : Z) : Z :=
  let r := z mod 2 ^ 32 in
  if r <=? INT_MAX then r else r - 2 ^ 32.

(** [v.size()]. *)
Definition vec_size {A} (v : list A) : Z := Z.of_nat (length v).

(** [v[i]] on a [vector] with an [int] or [size_t] subscript.  A negative
    [int] converts to a [size_t] beyond any vector's size, so it is out of
    range like every index past the end. *)
Definition at_index {A} (v : list A) (i : Z) : option A :=
  if i <? 0 then None else v !! Z.to_nat i.

(** [v[i] = x]; [None] when [i] is out of range. *)
Definition set_index {A} (v : list A) (i : Z) (x : A) : option (list A) :=
  match at_index v i with
  | Some _ => Some (<[Z.to_nat i := x]> v)
  | None => None
  end.

(** [x++] and [x--] on an [int]. *)
Definition int_incr (x : Z) : option Z :=
  if x <? INT_MAX then Some (x + 1) else None.
Definition int_decr (x : Z) : option Z :=
  if INT_MIN <? x then Some (x - 1) else None.

(** ** Data model *)

Inductive LBAlgorithm := ROUND_ROBIN | LEAST_CONNECTIONS | IP_HASH.

Record BackendManager := {
  backend_servers : list (string * Z);
  backend_health : list bool;
  request_count : list Z;
  active_connections : list Z
}.

Record LoadBalancer := {
  algorithm : LBAlgorithm;
  rr_index : Z
}.

(** What the program does to the outside and to its counters, in order. *)
Inductive event :=
| ESocket (ret : Z)
| EConnect (fd : Z) (ip : string) (port : Z) (ret : Z)
| ESetTimeouts (fd : Z) (sec : Z)
| ESendAll (fd : Z) (data : string) (delivered : Z) (ok : bool)
| ERecv (fd : Z) (ret : Z)
| EClose (fd : Z)
| ESetHealth (index : Z) (healthy : bool)
| EIncActive (index : Z) (now : Z)
| EDecActive (index : Z) (now : Z)
| EIncRequests (index : Z) (now : Z).

Record World := {
  manager : BackendManager;
  balancer : LoadBalancer;
  trace : list event
}.

Definition with_manager (w : World) (m : BackendManager) : World :=
  {| manager := m; balancer := balancer w; trace := trace w |}.
Definition with_balancer (w : World) (b : LoadBalancer) : World :=
  {| manager := manager w; balancer := b; trace := trace w |}.
Definition with_trace (w : World) (t : list event) : World :=
  {| manager := manager w; balancer := balancer w; trace := t |}.

Definition with_health (m : BackendManager) (h : list bool) : BackendManager :=
  {| backend_servers := backend_servers m; backend_health := h;
     request_count := request_count m;
     active_connections := active_connections m |}.
Definition with_requests (m : BackendManager) (r : list Z) : BackendManager :=
  {| backend_servers := backend_servers m; backend_health := backend_health m;
     request_count := r; active_connections := active_connections m |}.
Definition with_active (m : BackendManager) (a : list Z) : BackendManager :=
  {| backend_servers := backend_servers m; backend_health := backend_health m;
     request_count := request_count m; active_connections := a |}.

(** ** The monad: state passing over [World], [None] for undefined behaviour *)

Definition M (A : Type) : Type := World -> option (A * World).

Definition ret {A} (x : A) : M A := fun w => Some (x, w).
Definition bind {A B} (c : M A) (k : A -> M B) : M B :=
  fun w => match c w with
           | Some (x, w') => k x w'
           | None => None
           end.
Definition undefined {A} : M A := fun _ => None.
Definition get_manager : M BackendManager := fun w => Some (manager w, w).
Definition put_manager (m : BackendManager) : M unit :=
  fun w => Some (tt, with_manager w m).
Definition get_balancer : M LoadBalancer := fun w => Some (balancer w, w).
Definition put_balancer (b : LoadBalancer) : M unit :=
  fun w => Some (tt, with_balancer w b).
Definition emit (e : event) : M unit :=
  fun w => Some (tt, with_trace w (trace w ++ [e])).
Definition lift_opt {A} (o : option A) : M A :=
  match o with Some x => ret x | None => undefined end.

Declare Scope lb_scope.
Delimit Scope lb_scope with lb.
Notation "'let*' x := c 'in' k" := (bind c (fun x => k))
  (at level 10, x name, c at level 100, k at level 200) : lb_scope.
Notation "c ;;; k" := (bind c (fun _ => k))
  (at level 100, k at level 200, right associativity) : lb_scope.
Local Open Scope lb_scope.

(** ** BackendManager *)

(** The constructor (lines 23-39): three compiled-in backends, all healthy,
    counters 0. *)
Definition BackendManager_new : BackendManager :=
  let servers := [("127.0.0.1", 9001); ("127.0.0.1", 9002); ("127.0.0.1", 9003)] in
  let n := length servers in
  {| backend_servers := servers;
     backend_health := replicate n true;
     request_count := replicate n 0;
     active_connections := replicate n 0 |}.

(** [get_healthy_indices] (lines 41-47):
    [for (size_t i = 0; i < backend_health.size(); ++i)
       if (backend_health[i]) indices.push_back((int)i);] *)
Fixpoint healthy_from (i : Z) (health : list bool) : list Z :=
  match health with
  | [] => []
  | h :: rest =>
      if h then int_of_size i :: healthy_from (i + 1) rest
      else healthy_from (i + 1) rest
  end.

Definition get_healthy_indices : M (list Z) :=
  let* m := get_manager in
  ret (healthy_from 0 (backend_health m)).

(** [set_health], [increment_requests], [increment_active] and
    [decrement_active] (lines 49-67): one vector element is written. *)
Definition set_health (index : Z) (healthy : bool) : M unit :=
  let* m := get_manager in
  let* h := lift_opt (set_index (backend_health m) index healthy) in
  put_manager (with_health m h) ;;;
  emit (ESetHealth index healthy).

Definition increment_requests (index : Z) : M unit :=
  let* m := get_manager in
  let* old := lift_opt (at_index (request_count m) index) in
  let* new := lift_opt (int_incr old) in
  let* r := lift_opt (set_index (request_count m) index new) in
  put_manager (with_requests m r) ;;;
  emit (EIncRequests index new).

Definition increment_active (index : Z) : M unit :=
  let* m := get_manager in
  let* old := lift_opt (at_index (active_connections m) index) in
  let* new := lift_opt (int_incr old) in
  let* a := lift_opt (set_index (active_connections m) index new) in
  put_manager (with_active m a) ;;;
  emit (EIncActive index new).

Definition decrement_active (index : Z) : M unit :=
  let* m := get_manager in
  let* old := lift_opt (at_index (active_connections m) index) in
  let* new := lift_opt (int_decr old) in
  let* a := lift_opt (set_index (active_connections m) index new) in
  put_manager (with_active m a) ;;;
  emit (EDecActive index new).

(** The loop of [get_least_connection_backend] (lines 69-79), entered with
    [min_conn = INT_MAX] and [selected = -1]:
    [for (int idx : healthy)
       if (active_connections[idx] < min_conn) { min_conn = ...; selected = idx; }] *)
Fixpoint least_loop (active : list Z) (healthy : list Z) (min_conn selected : Z)
  : option Z :=
  match healthy with
  | [] => Some selected
  | idx :: rest =>
      match at_index active idx with
      | None => None
      | Some c =>
          if c <? min_conn then least_loop active rest c idx
          else least_loop active rest min_conn selected
      end
  end.

Definition get_least_connection_backend (healthy : list Z) : M Z :=
  let* m := get_manager in
  lift_opt (least_loop (active_connections m) healthy INT_MAX (-1)).

(** ** Sockets *)

(** Results of the system calls of one probe or one client connection. *)
Record Net := {
  net_socket : Z;                 (* what [::socket] returns *)
  net_connect : Z;                (* what [::connect] returns *)
  net_send : Z -> nat -> Z;       (* fd, k-th [::send] of a [send_all] on fd *)
  net_recv : Z -> Z * string      (* fd: what [::recv] returns, and the buffer *)
}.

(** [::send(fd, p, want, 0)] reports at most the [want] bytes it was given,
    [::recv(fd, buf, cap, 0)] at most the [cap] bytes of the buffer. *)
Definition sys_send (net : Net) (fd : Z) (k : nat) (want : Z) : Z :=
  Z.min (net_send net fd k) want.
Definition sys_recv (net : Net) (fd : Z) (cap : Z) : Z * string :=
  (Z.min (fst (net_recv net fd)) cap, snd (net_recv net fd)).

(** The loop of [send_all] (lines 102-110 and 204-212): [sent] bytes are
    out, the [k]-th [::send] is next.  Returns the result and the final
    [sent]. *)
Equations? send_all_from (net : Net) (fd : Z) (len : Z) (k : nat) (sent : Z)
  : bool * Z by wf (Z.to_nat (len - sent)) lt :=
  send_all_from net fd len k sent with Z_lt_dec sent len => {
    | right _ => (true, sent)
    | left _ with Z_le_dec (sys_send net fd k (len - sent)) 0 => {
        | left _ => (false, sent)
        | right _ =>
            send_all_from net fd len (S k)
              (sent + sys_send net fd k (len - sent)) } }.
Proof. unfold sys_send in *. lia. Qed.

(** The first [n] bytes of a buffer. *)
Definition bytes (buf : string) (n : Z) : string :=
  substring 0 (Z.to_nat n) buf.

Definition str_size (s : string) : Z := Z.of_nat (String.length s).

Definition send_all (net : Net) (fd : Z) (buf : string) (len : Z) : M bool :=
  let r := send_all_from net fd len 0 0 in
  emit (ESendAll fd (bytes buf len) (snd r) (fst r)) ;;;
  ret (fst r).

Definition close (fd : Z) : M unit := emit (EClose fd).

(** [set_timeouts] only sets socket options; its result is never used. *)
Definition set_timeouts (fd : Z) (sec : Z) : M unit := emit (ESetTimeouts fd sec).

(** ** Strings *)

Definition CRLF : string :=
  String (ascii_of_nat 13) (String (ascii_of_nat 10) EmptyString).

(** [s.find(pat)]: the first position where [pat] occurs, [None] for [npos]. *)
Fixpoint find_from (pat s : string) (pos : nat) : option nat :=
  if String.prefix pat s then Some pos
  else match s with
       | EmptyString => None
       | String _ s' => find_from pat s' (S pos)
       end.
Definition find (s pat : string) : option nat := find_from pat s 0.

Definition is_npos (r : option nat) : bool :=
  match r with None => true | Some _ => false end.

(** ** HealthChecker *)

(** [read_some] (lines 112-118): one [::recv] into a 1024-byte buffer,
    appended to [out]; returns the result and [out]. *)
Definition read_some (net : Net) (fd : Z) (out : string) : M (bool * string) :=
  let r := sys_recv net fd 1024 in
  emit (ERecv fd (fst r)) ;;;
  if fst r <=? 0 then ret (false, out)
  else ret (true, (out ++ bytes (snd r) (fst r))%string).

Definition health_request (ip : string) : string :=
  ("GET /health HTTP/1.1" ++ CRLF ++ "Host: " ++ ip ++ CRLF
   ++ "Connection: close" ++ CRLF ++ CRLF)%string.

(** The status test on the bytes read (lines 148-149). *)
Definition status_200 (resp : string) : bool :=
  negb (is_npos (find resp "HTTP/1.1 200"))
  || negb (is_npos (find resp "HTTP/1.0 200")).

(** The body of the probe loop (lines 128-156) for backend [i], a
    [size_t]. *)
Definition probe_backend (net : Net) (i : Z) : M unit :=
  let* m := get_manager in
  let* srv := lift_opt (at_index (backend_servers m) i) in
  let ip := fst srv in
  let port := snd srv in
  let fd := net_socket net in
  emit (ESocket fd) ;;;
  if fd =? -1 then set_health (int_of_size i) false
  else
    set_timeouts fd 2 ;;;
    emit (EConnect fd ip port (net_connect net)) ;;;
    let* alive :=
      (if negb (net_connect net =? -1) then
         let req := health_request ip in
         let* sent := send_all net fd req (str_size req) in
         if sent then
           let* r := read_some net fd "" in
           if fst r then ret (status_200 (snd r)) else ret false
         else ret false
       else ret false) in
    close fd ;;;
    set_health (int_of_size i) alive.

(** [for (size_t i = 0; i < manager->backend_servers.size(); ++i)] (line
    127): backend [i] is probed against its own network, [nets i]. *)
Fixpoint probe_from (nets : Z -> Net) (i : Z) (todo : nat) : M unit :=
  match todo with
  | O => ret tt
  | S todo' => probe_backend (nets i) i ;;; probe_from nets (i + 1) todo'
  end.

Definition probe_cycle (nets : Z -> Net) : M unit :=
  let* m := get_manager in
  probe_from nets 0 (length (backend_servers m)).

(** ** LoadBalancer and ClientHandler *)

Section Balancer.

(** [std::hash<string>] is the standard library's; any function will do. *)
Variable hasher : string -> Z.

Definition advance_rr (lb : LoadBalancer) : LoadBalancer :=
  {| algorithm := algorithm lb; rr_index := size_wrap (rr_index lb + 1) |}.

(** [select_backend] (lines 182-197). *)
Definition select_backend (client_ip : string) : M Z :=
  let* healthy := get_healthy_indices in
  match healthy with
  | [] => ret (-1)
  | _ :: _ =>
      let* lb := get_balancer in
      match algorithm lb with
      | ROUND_ROBIN =>
          let* index :=
            lift_opt (at_index healthy (rr_index lb mod vec_size healthy)) in
          put_balancer (advance_rr lb) ;;;
          ret index
      | LEAST_CONNECTIONS => get_least_connection_backend healthy
      | IP_HASH =>
          lift_opt (at_index healthy
                      (size_wrap (hasher client_ip) mod vec_size healthy))
      end
  end.

(** [create_connection] (lines 214-227). *)
Definition create_connection (net : Net) (ip : string) (port : Z) : M Z :=
  let fd := net_socket net in
  emit (ESocket fd) ;;;
  if fd =? -1 then ret (-1)
  else
    emit (EConnect fd ip port (net_connect net)) ;;;
    if net_connect net =? -1 then close fd ;;; ret (-1)
    else set_timeouts fd 10 ;;; ret fd.

(** [forward_once] (lines 230-236); returns the result and the final value
    of [any_bytes]. *)
Definition forward_once (net : Net) (src_fd dst_fd : Z) (any_bytes : bool)
  : M (bool * bool) :=
  let r := sys_recv net src_fd 8192 in
  emit (ERecv src_fd (fst r)) ;;;
  if fst r <=? 0 then ret (false, any_bytes)
  else
    let* sent := send_all net dst_fd (snd r) (fst r) in
    ret (sent, true).

(** The two synthetic responses (lines 245 and 254). *)
Definition msg_no_backend : string :=
  ("HTTP/1.1 503 Service Unavailable" ++ CRLF ++ "Content-Length: 0" ++ CRLF
   ++ "Connection: close" ++ CRLF ++ CRLF)%string.

Definition msg_connect_failed : string :=
  ("HTTP/1.1 503 Backend Connection Failed" ++ CRLF ++ "Content-Length: 0"
   ++ CRLF ++ "Connection: close" ++ CRLF ++ CRLF)%string.

(** [handle] (lines 242-282). *)
Definition handle (net : Net) (client_fd : Z) (client_ip : string) : M unit :=
  let* backend_index := select_backend client_ip in
  if backend_index =? -1 then
    send_all net client_fd msg_no_backend (str_size msg_no_backend) ;;;
    close client_fd
  else
    let* m := get_manager in
    let* srv := lift_opt (at_index (backend_servers m) backend_index) in
    let* backend_fd := create_connection net (fst srv) (snd srv) in
    if backend_fd =? -1 then
      send_all net client_fd msg_connect_failed (str_size msg_connect_failed) ;;;
      close client_fd
    else
      increment_active backend_index ;;;
      let* req := forward_once net client_fd backend_fd false in
      if negb (fst req) then
        close backend_fd ;;;
        close client_fd ;;;
        decrement_active backend_index
      else
        let* resp := forward_once net backend_fd client_fd false in
        increment_requests backend_index ;;;
        decrement_active backend_index ;;;
        close backend_fd ;;;
        close client_fd.

End Balancer.

(** A sample hash for running the model: the length of the address. *)
Definition length_hash (s : string) : Z := str_size s.

Definition world_new (algo : LBAlgorithm) : World :=
  {| manager := BackendManager_new;
     balancer := {| algorithm := algo; rr_index := 0 |};
     trace := [] |}.

(** The initial world with the connection counts set to [a]. *)
Definition world_with_active (algo : LBAlgorithm) (a : list Z) : World :=
  with_manager (world_new algo) (with_active BackendManager_new a).

(** A network on which every call succeeds: socket 7, sends take all they
    are given, every read yields [data]. *)
Definition net_ok (data : string) : Net :=
  {| net_socket := 7; net_connect := 0;
     net_send := fun _ _ => 65536;
     net_recv := fun _ => (str_size data, data) |}.

(** ** Specification vocabulary *)

(** The vectors of the registry all have the size the constructor gave
    them, and that size is an [int]. *)
Definition registry_wf (m : BackendManager) : Prop :=
  length (backend_health m) = length (backend_servers m)
  /\ length (request_count m) = length (backend_servers m)
  /\ length (active_connections m) = length (backend_servers m)
  /\ vec_size (backend_servers m) <= INT_MAX.

(** Counters that can still be incremented: no connection count is
    negative, and none has reached [INT_MAX]. *)
Definition counters_in_range (m : BackendManager) : Prop :=
  (forall i a, active_connections m !! i = Some a -> 0 <= a < INT_MAX)
  /\ (forall i c, request_count m !! i = Some c -> 0 <= c < INT_MAX).

(** The healthy snapshot a call to [get_healthy_indices] reads. *)
Definition healthy_snapshot (w : World) : list Z :=
  healthy_from 0 (backend_health (manager w)).

(** [pat] occurs in [s]. *)
Definition contains (s pat : string) : Prop :=
  exists pre post : string, s = (pre ++ pat ++ post)%string.

(** [send_all] on [fd] gets all [len] bytes out. *)
Definition fully_sent (net : Net) (fd : Z) (len : Z) : Prop :=
  fst (send_all_from net fd len 0 0) = true.

(** The probe of one backend succeeds: the socket opens and connects, the
    request goes out whole, and the one read brings bytes with a 200
    status line. *)
Definition probe_succeeds (net : Net) (ip : string) : Prop :=
  let fd := net_socket net in
  let r := sys_recv net fd 1024 in
  fd <> -1
  /\ net_connect net <> -1
  /\ fully_sent net fd (str_size (health_request ip))
  /\ 0 < fst r
  /\ (contains (bytes (snd r) (fst r)) "HTTP/1.1 200"
      \/ contains (bytes (snd r) (fst r)) "HTTP/1.0 200").

(** The backend connection of [create_connection] is established. *)
Definition connect_succeeds (net : Net) : Prop :=
  net_socket net <> -1 /\ net_connect net <> -1.

(** The request leg: the client's bytes are read and written whole to the
    backend socket. *)
Definition request_leg_succeeds (net : Net) (client_fd : Z) : Prop :=
  0 < fst (sys_recv net client_fd 8192)
  /\ fully_sent net (net_socket net) (fst (sys_recv net client_fd 8192)).

(** What the first [k] [::send] calls on [fd] are ready to take, in all. *)
Fixpoint sends_total (net : Net) (fd : Z) (k : nat) : Z :=
  match k with
  | O => 0
  | S k' => sends_total net fd k' + net_send net fd k'
  end.

(** The network takes [len] bytes written to [fd]: some number of
    [::send] calls, one after the other, each take at least one byte, and
    together they take [len] or more. *)
Definition sends_deliver (net : Net) (fd : Z) (len : Z) : Prop :=
  exists k : nat,
    (forall j, (j < k)%nat -> 0 < net_send net fd j)
    /\ len <= sends_total net fd k.



(** What the rest of the program (other handlers, the prober) does to the
    registry between two calls of the selector. *)
Definition interfere (f : BackendManager -> BackendManager) : M unit :=
  fun w => Some (tt, with_manager w (f (manager w))).

(** Consecutive calls of [select_backend], one per client address, each
    made after the rest of the program has had its turn on the registry. *)
Fixpoint select_each (hasher : string -> Z)
    (calls : list ((BackendManager -> BackendManager) * string)) : M (list Z) :=
  match calls with
  | [] => ret []
  | (f, ip) :: rest =>
      interfere f ;;;
      let* r := select_backend hasher ip in
      let* rs := select_each hasher rest in
      ret (r :: rs)
  end.

(** The interference leaves the healthy snapshot [healthy] in place. *)
Definition keeps_snapshot (healthy : list Z)
    (f : BackendManager -> BackendManager) : Prop :=
  forall m, healthy_from 0 (backend_health m) = healthy ->
            healthy_from 0 (backend_health (f m)) = healthy.

(** Other handlers at work: they move the counters, not the flags. *)
Definition bump_counters (m : BackendManager) : BackendManager :=
  with_requests (with_active m (map Z.succ (active_connections m)))
    (map Z.succ (request_count m)).

Definition is_active_event (e : event) : bool :=
  match e with
  | EIncActive _ _ | EDecActive _ _ => true
  | _ => false
  end.

Definition is_request_event (e : event) : bool :=
  match e with
  | EIncRequests _ _ => true
  | _ => false
  end.

Definition is_client_write (client_fd : Z) (e : event) : bool :=
  match e with
  | ESendAll fd _ _ _ => fd =? client_fd
  | _ => false
  end.

(** The event one [send_all] leaves, and what [create_connection] and
    [forward_once] do on a given network. *)
Definition sent_event (net : Net) (fd : Z) (buf : string) (len : Z) : event :=
  ESendAll fd (bytes buf len)
    (snd (send_all_from net fd len 0 0)) (fst (send_all_from net fd len 0 0)).

Definition connect_events (net : Net) (ip : string) (port : Z) : list event :=
  if net_socket net =? -1 then [ESocket (net_socket net)]
  else if net_connect net =? -1 then
    [ESocket (net_socket net);
     EConnect (net_socket net) ip port (net_connect net);
     EClose (net_socket net)]
  else
    [ESocket (net_socket net);
     EConnect (net_socket net) ip port (net_connect net);
     ESetTimeouts (net_socket net) 10].

Definition connect_result (net : Net) : Z :=
  if net_socket net =? -1 then -1
  else if net_connect net =? -1 then -1
  else net_socket net.

Definition forward_events (net : Net) (src_fd dst_fd : Z) : list event :=
  let r := sys_recv net src_fd 8192 in
  if fst r <=? 0 then [ERecv src_fd (fst r)]
  else [ERecv src_fd (fst r); sent_event net dst_fd (snd r) (fst r)].

Definition forward_result (net : Net) (src_fd dst_fd : Z) : bool :=
  let r := sys_recv net src_fd 8192 in
  if fst r <=? 0 then false else fst (send_all_from net dst_fd (fst r) 0 0).

(** No counter event of the run reports a negative count. *)
Definition count_nonneg (e : event) : Prop :=
  match e with
  | EIncActive _ v | EDecActive _ v | EIncRequests _ v => 0 <= v
  | _ => True
  end.

(** A network whose backend refuses the connection. *)
Definition net_refused : Net :=
  {| net_socket := 7; net_connect := -1;
     net_send := fun _ _ => 65536;
     net_recv := fun _ => (0, "") |}.

(** A network on which the peer on socket [quiet] never sends a byte and
    every other call succeeds. *)
Definition net_quiet (quiet : Z) (data : string) : Net :=
  {| net_socket := 7; net_connect := 0;
     net_send := fun _ _ => 65536;
     net_recv := fun fd => if fd =? quiet then (0, "") else (str_size data, data) |}.

(** One handler after another, each on its own network and client. *)
Fixpoint handle_each (hasher : string -> Z) (conns : list (Net * Z * string))
  : M unit :=
  match conns with
  | [] => ret tt
  | (net, fd, ip) :: rest =>
      handle hasher net fd ip ;;; handle_each hasher rest
  end.

(** The flag the probe loop computes for one backend. *)
Definition probe_verdict (net : Net) (ip : string) : bool :=
  if net_socket net =? -1 then false
  else if negb (net_connect net =? -1) then
    if fst (send_all_from net (net_socket net)
              (str_size (health_request ip)) 0 0) then
      if fst (sys_recv net (net_socket net) 1024) <=? 0 then false
      else status_200 (bytes (snd (sys_recv net (net_socket net) 1024))
                         (fst (sys_recv net (net_socket net) 1024)))
    else false
  else false.

(** The connection counts of the healthy backends are within one of each
    other. *)
Definition balanced (w : World) : Prop :=
  forall i j ci cj,
    i ∈ healthy_snapshot w -> j ∈ healthy_snapshot w ->
    at_index (active_connections (manager w)) i = Some ci ->
    at_index (active_connections (manager w)) j = Some cj ->
    ci <= cj + 1.

(** The sockets a run opened ([::socket] returned something other than
    -1) and the sockets it closed, in order. *)
Fixpoint opened_sockets (evs : list event) : list Z :=
  match evs with
  | [] => []
  | ESocket ret :: rest =>
      if ret =? -1 then opened_sockets rest else ret :: opened_sockets rest
  | _ :: rest => opened_sockets rest
  end.

Fixpoint closed_sockets (evs : list event) : list Z :=
  match evs with
  | [] => []
  | EClose fd :: rest => fd :: closed_sockets rest
  | _ :: rest => closed_sockets rest
  end.

(** The event is a system call on socket [fd]. *)
Definition uses_socket (fd : Z) (e : event) : bool :=
  match e with
  | EConnect f _ _ _ | ESetTimeouts f _ | ESendAll f _ _ _ | ERecv f _
  | EClose f => f =? fd
  | _ => false
  end.

(** No socket is used after it was closed. *)
Fixpoint closed_for_good (evs : list event) : bool :=
  match evs with
  | [] => true
  | e :: rest =>
      match e with
      | EClose fd => forallb (fun e' => negb (uses_socket fd e')) rest
      | _ => true
      end && closed_for_good rest
  end.

(** What the run handed to [send_all] for socket [fd], call by call. *)
Fixpoint written_to (fd : Z) (evs : list event) : list string :=
  match evs with
  | [] => []
  | ESendAll f data _ _ :: rest =>
      if f =? fd then data :: written_to fd rest else written_to fd rest
  | _ :: rest => written_to fd rest
  end.

(** The events of one probe of backend [i] at [ip]:[port]. *)
Definition probe_events (net : Net) (i : Z) (ip : string) (port : Z)
  : list event :=
  let fd := net_socket net in
  let req := health_request ip in
  ESocket fd ::
  if fd =? -1 then [ESetHealth (int_of_size i) false]
  else
    [ESetTimeouts fd 2; EConnect fd ip port (net_connect net)]
    ++ (if negb (net_connect net =? -1) then
          sent_event net fd req (str_size req)
          :: (if fst (send_all_from net fd (str_size req) 0 0)
              then [ERecv fd (fst (sys_recv net fd 1024))] else [])
        else [])
    ++ [EClose fd; ESetHealth (int_of_size i) (probe_verdict net ip)].

(** ** [main]: the algorithm argument, and the status file *)

(** [::tolower] in the "C" locale, which is the program's (it never calls
    [setlocale]): the upper-case letters map to the lower-case ones. *)
Definition tolower (c : ascii) : ascii :=
  let n := nat_of_ascii c in
  if (65 <=? n)%nat && (n <=? 90)%nat then ascii_of_nat (n + 32) else c.

(** [transform(a.begin(), a.end(), a.begin(), ::tolower)]. *)
Fixpoint lowercase (s : string) : string :=
  match s with
  | EmptyString => EmptyString
  | String c s' => String (tolower c) (lowercase s')
  end.

(** The choice of algorithm in [main] (lines 286-292); [args] is
    [argv[1]], [argv[2]], ... *)
Definition main_algorithm (args : list string) : LBAlgorithm :=
  match args with
  | [] => ROUND_ROBIN
  | a :: _ =>
      let a := lowercase a in
      if (a =? "least")%string then LEAST_CONNECTIONS
      else if (a =? "iphash")%string then IP_HASH
      else ROUND_ROBIN
  end.

(** The same letter in the other case; other characters stay. *)
Definition flip_case (c : ascii) : ascii :=
  let n := nat_of_ascii c in
  if (65 <=? n)%nat && (n <=? 90)%nat then ascii_of_nat (n + 32)
  else if (97 <=? n)%nat && (n <=? 122)%nat then ascii_of_nat (n - 32)
  else c.

(** [s] with the case flipped at the positions [mask] marks. *)
Fixpoint recase (mask : list bool) (s : string) : string :=
  match s with
  | EmptyString => EmptyString
  | String c s' =>
      match mask with
      | [] => s
      | b :: mask' =>
          String (if b then flip_case c else c) (recase mask' s')
      end
  end.

Definition LF : string := String (ascii_of_nat 10) EmptyString.

(** [out << n] for an [int]. *)
Definition string_of_int (z : Z) : string :=
  NilZero.string_of_int (Z.to_int z).

(** One line of the status file. *)
Definition status_line (ip : string) (port : Z) (healthy : bool) (requests active : Z)
  : string :=
  (ip ++ ":" ++ string_of_int port
   ++ " [" ++ (if healthy then "healthy" else "unhealthy")
   ++ "] Requests: " ++ string_of_int requests
   ++ " Active: " ++ string_of_int active ++ LF)%string.

(** The loop of [log_status] (lines 81-88) from backend [i] on; it reads
    the three vectors without a lock. *)
Fixpoint log_status_from (m : BackendManager) (i : Z)
    (servers : list (string * Z)) : option (list string) :=
  match servers with
  | [] => Some []
  | (ip, port) :: rest =>
      match at_index (backend_health m) i,
            at_index (request_count m) i,
            at_index (active_connections m) i with
      | Some h, Some r, Some a =>
          match log_status_from m (i + 1) rest with
          | Some lines => Some (status_line ip port h r a :: lines)
          | None => None
          end
      | _, _, _ => None
      end
  end.

(** [log_status]: the lines it streams to [out], in order. *)
Definition log_status : M (list string) :=
  let* m := get_manager in
  lift_opt (log_status_from m 0 (backend_servers m)).

(** One turn of the checker's loop after the sleep (lines 127-161): the
    probes, then the text streamed to [status.txt]. *)
Definition checker_turn (nets : Z -> Net) : M string :=
  probe_cycle nets ;;;
  let* lines := log_status in
  ret (("Health Status:" ++ LF ++ String.concat "" lines)%string).

(** The connection gets its request through to a backend: the backend
    connection is made and the request leg succeeds. *)
Definition relays (conn : Net * Z * string) : bool :=
  let net := fst (fst conn) in
  let fd := snd (fst conn) in
  negb (connect_result net =? -1)
  && forward_result net fd (connect_result net).

Definition total (counts : list Z) : Z := fold_right Z.add 0 counts.

(** ** The backend server ([backend_server.cpp])

    The server the balancer talks to.  An exception that leaves
    [handle_client] ends the process; it is the outcome [Throws].  The
    bytes a client sends arrive in segments: [::recv] returns the next
    segment, or as much of it as the buffer holds, 0 when the segments are
    used up and nothing for an empty segment.  [set_timeouts] only sets
    socket options; a read that times out is an empty segment. *)

Module BackendServer.

Inductive outcome (A : Type) : Type :=
| Ok (a : A)
| Throws.
Arguments Ok {A} a.
Arguments Throws {A}.

Definition and_then {A B} (o : outcome A) (k : A -> outcome B) : outcome B :=
  match o with
  | Ok a => k a
  | Throws => Throws
  end.

Notation "'try' x := c 'in' k" := (and_then c (fun x => k))
  (at level 10, x name, c at level 100, k at level 200) : lb_scope.

(** [string::npos]. *)
Definition NPOS : Z := SIZE_MOD - 1.

Fixpoint drop_chars (n : nat) (s : string) : string :=
  match n, s with
  | O, _ => s
  | S n', String _ s' => drop_chars n' s'
  | S _, EmptyString => EmptyString
  end.

(** [s.find(pat, pos)]. *)
Definition str_find (s pat : string) (pos : Z) : Z :=
  if str_size s <? pos then NPOS
  else match find_from pat (drop_chars (Z.to_nat pos) s) (Z.to_nat pos) with
       | Some q => Z.of_nat q
       | None => NPOS
       end.

(** [s.substr(pos, len)]: [out_of_range] when [pos] is past the end. *)
Definition substr (s : string) (pos len : Z) : outcome string :=
  if str_size s <? pos then Throws
  else Ok (substring (Z.to_nat pos)
             (Z.to_nat (Z.min len (str_size s - pos))) s).

Definition is_blank (c : ascii) : bool :=
  (nat_of_ascii c =? 32)%nat || (nat_of_ascii c =? 9)%nat.

(** [s.find_first_not_of(" \t")] and [s.find_last_not_of(" \t")]. *)
Fixpoint first_not_blank (s : string) (pos : nat) : Z :=
  match s with
  | EmptyString => NPOS
  | String c s' =>
      if is_blank c then first_not_blank s' (S pos) else Z.of_nat pos
  end.

Fixpoint last_not_blank (s : string) (pos : nat) (found : Z) : Z :=
  match s with
  | EmptyString => found
  | String c s' =>
      last_not_blank s' (S pos) (if is_blank c then found else Z.of_nat pos)
  end.

(** [isspace] in the "C" locale. *)
Definition is_space (c : ascii) : bool :=
  let n := nat_of_ascii c in
  (n =? 32)%nat || ((9 <=? n)%nat && (n <=? 13)%nat).

Definition digit_of (c : ascii) : option Z :=
  let n := nat_of_ascii c in
  if (48 <=? n)%nat && (n <=? 57)%nat then Some (Z.of_nat n - 48) else None.

Fixpoint skip_spaces (s : string) : string :=
  match s with
  | String c s' => if is_space c then skip_spaces s' else s
  | EmptyString => EmptyString
  end.

(** The digits at the head of [s], read in base ten; [None] when there is
    none. *)
Fixpoint read_digits (s : string) (acc : option Z) : option Z :=
  match s with
  | String c s' =>
      match digit_of c with
      | Some d =>
          read_digits s'
            (Some (10 * match acc with Some v => v | None => 0 end + d))
      | None => acc
      end
  | EmptyString => acc
  end.

(** [std::stoi]: white space, an optional sign, digits; what follows is
    ignored.  [invalid_argument] without a digit, [out_of_range] when the
    number is no [int]. *)
Definition stoi (s : string) : outcome Z :=
  let s1 := skip_spaces s in
  let signed :=
    match s1 with
    | String c rest =>
        if (nat_of_ascii c =? 45)%nat then (true, rest)
        else if (nat_of_ascii c =? 43)%nat then (false, rest)
        else (false, s1)
    | EmptyString => (false, s1)
    end in
  match read_digits (snd signed) None with
  | None => Throws
  | Some v =>
      let v := if fst signed then - v else v in
      if (INT_MIN <=? v) && (v <=? INT_MAX) then Ok v else Throws
  end.

Record Request := {
  method : string;
  path : string;
  headers_raw : string;
  body : string;
  content_length : Z;
  keep_alive : bool
}.

(** A [Request] as declared: empty strings, length 0, no keep-alive. *)
Definition Request_new : Request :=
  {| method := ""; path := ""; headers_raw := ""; body := "";
     content_length := 0; keep_alive := false |}.

Definition key_content_length : string :=
  (CRLF ++ "content-length:")%string.
Definition key_keep_alive : string :=
  (CRLF ++ "connection: keep-alive")%string.

(** The value of the Content-Length header in the lower-cased header
    block, 0 without the header (lines 107-120). *)
Definition read_content_length (lower : string) : outcome Z :=
  let p := str_find lower key_content_length 0 in
  if p =? NPOS then Ok 0
  else
    let p2 := str_find lower CRLF (size_wrap (p + 2)) in
    let from := size_wrap (p + str_size key_content_length) in
    try val := substr lower from (size_wrap (p2 - from)) in
    let l := first_not_blank val 0 in
    let r := last_not_blank val 0 NPOS in
    try val := (if l =? NPOS then Ok val
                else substr val l (size_wrap (r - l + 1))) in
    stoi val.

(** [parse_request_from_buffer] (lines 81-138): the result, the request
    and [consumed] as the call leaves them.  [body.assign(p, n)] with a
    negative [n] throws [length_error]. *)
Definition parse_request_from_buffer (buf : string) (req : Request)
    (consumed : Z) : outcome (bool * Request * Z) :=
  let hdr_end := str_find buf (CRLF ++ CRLF) 0 in
  if hdr_end =? NPOS then Ok (false, req, consumed)
  else
    let eol := str_find buf CRLF 0 in
    if eol =? NPOS then Ok (false, req, consumed)
    else
      try start_line := substr buf 0 eol in
      try headers := substr buf 0 (size_wrap (hdr_end + 4)) in
      let sp1 := str_find start_line " " 0 in
      let sp2 := if sp1 =? NPOS then NPOS
                 else str_find start_line " " (size_wrap (sp1 + 1)) in
      if (sp1 =? NPOS) || (sp2 =? NPOS) then
        Ok (false,
            {| method := method req; path := path req;
               headers_raw := headers; body := body req;
               content_length := content_length req;
               keep_alive := keep_alive req |},
            consumed)
      else
        try m := substr start_line 0 sp1 in
        try p := substr start_line (size_wrap (sp1 + 1))
                   (size_wrap (sp2 - (sp1 + 1))) in
        let lower := lowercase headers in
        try len := read_content_length lower in
        let keep := negb (str_find lower key_keep_alive 0 =? NPOS) in
        let body_start := size_wrap (hdr_end + 4) in
        let already :=
          if body_start <? str_size buf then str_size buf - body_start
          else 0 in
        if len <=? int_of_size already then
          if len <? 0 then Throws
          else
            Ok (true,
                {| method := m; path := p; headers_raw := headers;
                   body := substring (Z.to_nat body_start) (Z.to_nat len) buf;
                   content_length := len; keep_alive := keep |},
                size_wrap (body_start + len))
        else
          Ok (false,
              {| method := m; path := p; headers_raw := headers;
                 body := substring (Z.to_nat body_start) (Z.to_nat already) buf;
                 content_length := len; keep_alive := keep |},
              size_wrap (body_start + already)).

(** [::recv(fd, buf, cap, 0)] on the segments still to come. *)
Definition recv (cap : Z) (incoming : list string)
  : Z * string * list string :=
  match incoming with
  | [] => (0, "", [])
  | seg :: rest =>
      if str_size seg <=? cap then (str_size seg, seg, rest)
      else (cap, substring 0 (Z.to_nat cap) seg,
            drop_chars (Z.to_nat cap) seg :: rest)
  end.

Definition total_bytes (incoming : list string) : nat :=
  fold_right (fun seg n => (String.length seg + n)%nat) O incoming.

(** The loop of [read_until_headers] (lines 46-70), [acc] read so far.
    Returns the result, [headers] and the segments left; [None] only if
    [fuel] runs out. *)
Fixpoint read_until_headers_loop (fuel : nat) (acc headers : string)
    (incoming : list string) : option (bool * string * list string) :=
  match fuel with
  | O => None
  | S fuel' =>
      let r := recv 1024 incoming in
      if fst (fst r) <=? 0 then Some (false, headers, snd r)
      else
        let acc := (acc ++ snd (fst r))%string in
        if negb (str_find acc (CRLF ++ CRLF) 0 =? NPOS)
        then Some (true, acc, snd r)
        else if 64 * 1024 <? str_size acc then Some (false, headers, snd r)
        else read_until_headers_loop fuel' acc headers (snd r)
  end.

Definition read_until_headers (headers : string) (incoming : list string)
  : option (bool * string * list string) :=
  read_until_headers_loop (S (total_bytes incoming)) "" headers incoming.

(** The loop of [read_n] (lines 32-44), [total] of [n] bytes read. *)
Fixpoint read_n_loop (fuel : nat) (n total : Z) (out : string)
    (incoming : list string) : option (bool * string * list string) :=
  match fuel with
  | O => None
  | S fuel' =>
      if total <? n then
        let r := recv (Z.min 4096 (n - total)) incoming in
        if fst (fst r) <=? 0 then Some (false, out, snd r)
        else read_n_loop fuel' n (total + fst (fst r))
               (out ++ snd (fst r))%string (snd r)
      else Some (true, out, incoming)
  end.

Definition read_n (out : string) (n : Z) (incoming : list string)
  : option (bool * string * list string) :=
  read_n_loop (S (total_bytes incoming)) n 0 out incoming.

(** The answers of the two routes (lines 165-171 and 177-183). *)
Definition health_response : string :=
  ("HTTP/1.1 200 OK" ++ CRLF ++ "Content-Type: text/plain" ++ CRLF
   ++ "Content-Length: " ++ string_of_int (str_size "OK") ++ CRLF
   ++ "Connection: close" ++ CRLF ++ CRLF ++ "OK")%string.

Definition echo_response (listen_port : Z) (req : Request) : string :=
  let echo := ("Echo from port: " ++ string_of_int listen_port ++ ":" ++ LF
               ++ body req)%string in
  ("HTTP/1.1 200 OK" ++ CRLF ++ "Content-Type: text/plain" ++ CRLF
   ++ "Content-Length: " ++ string_of_int (str_size echo) ++ CRLF
   ++ (if keep_alive req then "Connection: keep-alive" ++ CRLF
       else "Connection: close" ++ CRLF)
   ++ CRLF ++ echo)%string.

(** The network of the [j]-th [send_all] of a connection. *)
Definition send_net (sends : nat -> nat -> Z) (j : nat) : Net :=
  {| net_socket := 0; net_connect := 0;
     net_send := fun _ k => sends j k;
     net_recv := fun _ => (0, "") |}.

(** One [send_all]: what it was given, how much went out, its result. *)
Definition answer (sends : nat -> nat -> Z) (j : nat) (resp : string)
  : string * Z * bool :=
  let r := send_all_from (send_net sends j) 0 (str_size resp) 0 0 in
  (resp, snd r, fst r).

(** The loop of [handle_client] (lines 144-190) at its [j]-th answer,
    [sent] the answers so far.  [Ok] is a normal end, which closes the
    socket (line 192). *)
Fixpoint handle_client_loop (fuel : nat) (listen_port : Z)
    (sends : nat -> nat -> Z) (j : nat) (incoming : list string)
    (sent : list (string * Z * bool))
  : option (outcome (list (string * Z * bool))) :=
  match fuel with
  | O => None
  | S fuel' =>
      match read_until_headers "" incoming with
      | None => None
      | Some (false, _, _) => Some (Ok sent)
      | Some (true, buf, incoming) =>
          match parse_request_from_buffer buf Request_new 0 with
          | Throws => Some Throws
          | Ok (complete, req, consumed) =>
              let need :=
                if complete then 0
                else if 0 <? content_length req
                     then size_wrap (content_length req - str_size (body req))
                     else 0 in
              match (if 0 <? need then read_n "" need incoming
                     else Some (true, "", incoming)) with
              | None => None
              | Some (false, _, _) => Some (Ok sent)
              | Some (true, more, incoming) =>
                  let req :=
                    {| method := method req; path := path req;
                       headers_raw := headers_raw req;
                       body := (body req ++ more)%string;
                       content_length := content_length req;
                       keep_alive := keep_alive req |} in
                  if (method req =? "GET")%string
                     && (path req =? "/health")%string
                  then Some (Ok (sent ++ [answer sends j health_response]))
                  else
                    let a := answer sends j (echo_response listen_port req) in
                    if negb (snd a) then Some (Ok (sent ++ [a]))
                    else if negb (keep_alive req) then Some (Ok (sent ++ [a]))
                    else handle_client_loop fuel' listen_port sends (S j)
                           incoming (sent ++ [a])
              end
          end
      end
  end.

(** [handle_client] (lines 140-193): the answers sent before the socket
    is closed, or [Throws]. *)
Definition handle_client (listen_port : Z) (sends : nat -> nat -> Z)
    (incoming : list string)
  : option (outcome (list (string * Z * bool))) :=
  handle_client_loop (S (total_bytes incoming)) listen_port sends O incoming [].

End BackendServer.

(** ** Vocabulary of the backend's facts *)

(** [s] has no carriage return. *)
Fixpoint no_cr (s : string) : bool :=
  match s with
  | EmptyString => true
  | String c s' => negb (nat_of_ascii c =? 13)%nat && no_cr s'
  end.

(** The bytes of the segments, in order. *)
Definition joined (incoming : list string) : string :=
  fold_right append EmptyString incoming.

(** No segment is empty: each [::recv] brings bytes until the segments
    are used up. *)
Definition nonempty_segments (incoming : list string) : bool :=
  forallb (fun seg => negb (seg =? "")%string) incoming.

(** [pat] cannot start at the head of [s]: they differ at a character
    both have. *)
Fixpoint clash (pat s : string) : bool :=
  match pat, s with
  | String a pat', String b s' => if Ascii.eqb a b then clash pat' s' else true
  | _, _ => false
  end.

(** [pat] cannot start anywhere in [s], whatever follows [s]. *)
Fixpoint all_clash (pat s : string) : bool :=
  match s with
  | EmptyString => true
  | String _ s' => clash pat s && all_clash pat s'
  end.

(** [s] has no space, no tab and no carriage return: a method, a path or
    a header value in one piece. *)
Fixpoint plain_token (s : string) : bool :=
  match s with
  | EmptyString => true
  | String c s' =>
      negb (BackendServer.is_blank c) && negb (nat_of_ascii c =? 13)%nat
      && plain_token s'
  end.

(** [s] is made of decimal digits. *)
Fixpoint digits_only (s : string) : bool :=
  match s with
  | EmptyString => true
  | String c s' =>
      match BackendServer.digit_of c with
      | Some _ => digits_only s'
      | None => false
      end
  end.

(** The header block of a request whose Content-Length header has the
    value [v], and of one that announces a body of [n] bytes. *)
Definition request_with (m p v : string) : string :=
  (m ++ " " ++ p ++ " HTTP/1.1" ++ CRLF
   ++ "Content-Length: " ++ v ++ CRLF ++ CRLF)%string.

Definition request_head (m p : string) (n : Z) : string :=
  request_with m p (string_of_int n).

(** * Facts *)

(** ** Indexing *)

Lemma at_index_Some {A} (v : list A) i x :
  at_index v i = Some x <-> 0 <= i /\ v !! Z.to_nat i = Some x.
Proof.
  unfold at_index. destruct (Z.ltb_spec i 0); split.
  - discriminate.
  - intros [? _]. lia.
  - intros ->. split; [lia | reflexivity].
  - intros [_ ?]. assumption.
Qed.

Lemma at_index_in_range {A} (v : list A) i :
  0 <= i < vec_size v -> is_Some (at_index v i).
Proof.
  unfold vec_size. intros Hi. unfold at_index.
  destruct (Z.ltb_spec i 0); [lia |].
  apply lookup_lt_is_Some. lia.
Qed.

Lemma at_index_bound {A} (v : list A) i x :
  at_index v i = Some x -> 0 <= i < vec_size v.
Proof.
  intros [Hi Hl]%at_index_Some. apply lookup_lt_Some in Hl.
  unfold vec_size. lia.
Qed.

Lemma at_index_of_nat {A} (v : list A) (k : nat) :
  at_index v (Z.of_nat k) = v !! k.
Proof.
  unfold at_index. destruct (Z.ltb_spec (Z.of_nat k) 0); [lia |].
  now rewrite Nat2Z.id.
Qed.

Lemma at_index_elem {A} (v : list A) i x : at_index v i = Some x -> x ∈ v.
Proof.
  intros [_ Hl]%at_index_Some. apply list_elem_of_lookup. eauto.
Qed.

Lemma set_index_Some {A} (v : list A) i x y :
  at_index v i = Some y -> set_index v i x = Some (<[Z.to_nat i := x]> v).
Proof. unfold set_index. now intros ->. Qed.

Lemma int_of_size_small i : 0 <= i <= INT_MAX -> int_of_size i = i.
Proof.
  unfold int_of_size, INT_MAX. intros Hi.
  rewrite Z.mod_small by lia.
  destruct (Z.leb_spec i 2147483647); [reflexivity | lia].
Qed.

(** ** The healthy snapshot *)

Lemma healthy_from_elem health : forall i x,
  0 <= i -> i + vec_size health <= INT_MAX + 1 ->
  (x ∈ healthy_from i health
   <-> exists k : nat, health !! k = Some true /\ x = i + Z.of_nat k).
Proof.
  unfold vec_size.
  induction health as [| h rest IH]; intros i x Hi Hb; simpl in *.
  - split; [intros H; inversion H | intros (k & Hk & _); discriminate].
  - assert (Hrest : x ∈ healthy_from (i + 1) rest
                    <-> exists k : nat, rest !! k = Some true
                                        /\ x = i + 1 + Z.of_nat k)
      by (apply IH; lia).
    assert (Hhead : int_of_size i = i) by (apply int_of_size_small; lia).
    destruct h.
    + rewrite Hhead, elem_of_cons, Hrest. split.
      * intros [-> | (k & Hk & ->)].
        -- exists 0%nat. split; [reflexivity | lia].
        -- exists (S k). split; [exact Hk | lia].
      * intros ([| k] & Hk & ->).
        -- left. lia.
        -- right. exists k. split; [exact Hk | lia].
    + rewrite Hrest. split.
      * intros (k & Hk & ->). exists (S k). split; [exact Hk | lia].
      * intros ([| k] & Hk & ->); [discriminate |].
        exists k. split; [exact Hk | lia].
Qed.

Lemma healthy_from_NoDup health : forall i,
  0 <= i -> i + vec_size health <= INT_MAX + 1 ->
  NoDup (healthy_from i health).
Proof.
  induction health as [| h rest IH]; intros i Hi Hb; simpl.
  - constructor.
  - unfold vec_size in *. simpl in Hb.
    assert (Hrest : NoDup (healthy_from (i + 1) rest)) by (apply IH; lia).
    destruct h; [| exact Hrest].
    constructor; [| exact Hrest].
    rewrite int_of_size_small by lia.
    intros (k & _ & Hk)%healthy_from_elem; unfold vec_size; lia.
Qed.

Lemma healthy_snapshot_elem w x :
  registry_wf (manager w) ->
  x ∈ healthy_snapshot w ->
  0 <= x < vec_size (backend_servers (manager w))
  /\ at_index (backend_health (manager w)) x = Some true.
Proof.
  intros (Hh & _ & _ & Hmax) Hx. unfold healthy_snapshot in Hx.
  unfold vec_size in *.
  apply healthy_from_elem in Hx; [| lia | unfold vec_size; lia].
  destruct Hx as (k & Hk & ->).
  pose proof (lookup_lt_Some _ _ _ Hk) as Hlt.
  split; [lia |].
  rewrite Z.add_0_l, at_index_of_nat. exact Hk.
Qed.

Lemma healthy_snapshot_NoDup w :
  registry_wf (manager w) -> NoDup (healthy_snapshot w).
Proof.
  intros (Hh & _ & _ & Hmax). unfold vec_size in *.
  apply healthy_from_NoDup; unfold vec_size; lia.
Qed.

(** ** Least connections *)

Lemma least_loop_spec active healthy : forall min_conn selected,
  (forall idx, idx ∈ healthy -> is_Some (at_index active idx)) ->
  exists r, least_loop active healthy min_conn selected = Some r /\
    ((r = selected
      /\ forall idx c, idx ∈ healthy -> at_index active idx = Some c ->
                       min_conn <= c)
     \/ exists pre post c,
          healthy = pre ++ r :: post
          /\ at_index active r = Some c
          /\ c < min_conn
          /\ (forall idx c', idx ∈ pre -> at_index active idx = Some c' -> c < c')
          /\ (forall idx c', idx ∈ post -> at_index active idx = Some c' ->
                             c <= c')).
Proof.
  induction healthy as [| idx rest IH]; intros min_conn selected Hin; simpl.
  - exists selected. split; [reflexivity |]. left. split; [reflexivity |].
    intros ? ? H. inversion H.
  - destruct (Hin idx) as [c0 Hc0]; [left |]. rewrite Hc0.
    assert (Hrest : forall i, i ∈ rest -> is_Some (at_index active i))
      by (intros i Hi; apply Hin; now right).
    destruct (Z.ltb_spec c0 min_conn) as [Hlt | Hge].
    + destruct (IH c0 idx Hrest) as (r & Hr & Hcase).
      exists r. split; [exact Hr |]. right.
      destruct Hcase as [[-> Hall] | (pre & post & c & -> & Hc & Hlt' & Hpre & Hpost)].
      * exists [], rest, c0. repeat split; auto.
        intros ? ? H. inversion H.
      * exists (idx :: pre), post, c. repeat split; auto; [lia |].
        intros i c' [-> | Hi]%elem_of_cons Hc'; [| eauto].
        rewrite Hc0 in Hc'. injection Hc' as <-. exact Hlt'.
    + destruct (IH min_conn selected Hrest) as (r & Hr & Hcase).
      exists r. split; [exact Hr |].
      destruct Hcase as [[-> Hall] | (pre & post & c & -> & Hc & Hlt' & Hpre & Hpost)].
      * left. split; [reflexivity |].
        intros i c' [-> | Hi]%elem_of_cons Hc'; [| eauto].
        rewrite Hc0 in Hc'. injection Hc' as <-. exact Hge.
      * right. exists (idx :: pre), post, c. repeat split; auto.
        intros i c' [-> | Hi]%elem_of_cons Hc'; [| eauto].
        rewrite Hc0 in Hc'. injection Hc' as <-. lia.
Qed.

Lemma least_connection_run w healthy :
  (forall idx, idx ∈ healthy ->
               is_Some (at_index (active_connections (manager w)) idx)) ->
  exists sel, get_least_connection_backend healthy w = Some (sel, w)
              /\ (sel = -1 \/ sel ∈ healthy).
Proof.
  intros Hin.
  destruct (least_loop_spec _ _ INT_MAX (-1) Hin) as (r & Hr & Hcase).
  exists r. unfold get_least_connection_backend, bind, get_manager.
  rewrite Hr. split; [reflexivity |].
  destruct Hcase as [[-> _] | (pre & post & c & -> & _)]; [now left | right].
  apply elem_of_app. right. left.
Qed.

(** C6.  [get_least_connection_backend] returns -1 ("none") on an empty
    candidate sequence; on candidates that are valid indices, one of which
    has a count below the sentinel [INT_MAX], it returns a candidate whose
    active-connection count is at most that of every candidate and strictly
    below that of every candidate before it in the sequence.  The registry
    is left as it was. *)
Theorem least_connection_first_minimum w healthy :
  (forall idx, idx ∈ healthy ->
               is_Some (at_index (active_connections (manager w)) idx)) ->
  exists sel,
    get_least_connection_backend healthy w = Some (sel, w)
    /\ (healthy = [] -> sel = -1)
    /\ ((exists idx c, idx ∈ healthy
                       /\ at_index (active_connections (manager w)) idx = Some c
                       /\ c < INT_MAX) ->
        exists pre post c,
          healthy = pre ++ sel :: post
          /\ at_index (active_connections (manager w)) sel = Some c
          /\ (forall idx c', idx ∈ healthy ->
                at_index (active_connections (manager w)) idx = Some c' ->
                c <= c')
          /\ (forall idx c', idx ∈ pre ->
                at_index (active_connections (manager w)) idx = Some c' ->
                c < c')).
Proof.
  intros Hin.
  destruct (least_loop_spec _ _ INT_MAX (-1) Hin) as (r & Hr & Hcase).
  exists r. unfold get_least_connection_backend, bind, get_manager.
  rewrite Hr. split; [reflexivity |]. split.
  - intros ->. simpl in Hr. now injection Hr as <-.
  - intros (idx & c & Hidx & Hc & Hlt).
    destruct Hcase as [[_ Hall] | (pre & post & c1 & -> & Hc1 & _ & Hpre & Hpost)].
    + specialize (Hall idx c Hidx Hc). lia.
    + exists pre, post, c1. repeat split; auto.
      intros i c' Hi Hc'.
      apply elem_of_app in Hi as [Hi | Hi].
      * specialize (Hpre i c' Hi Hc'). lia.
      * apply elem_of_cons in Hi as [-> | Hi]; [| eauto].
        rewrite Hc1 in Hc'. injection Hc' as <-. lia.
Qed.

Lemma least_connection_first_minimum_witness :
  exists sel pre post,
    get_least_connection_backend [0; 1; 2]
      (world_with_active LEAST_CONNECTIONS [4; 2; 2])
    = Some (sel, world_with_active LEAST_CONNECTIONS [4; 2; 2])
    /\ [0; 1; 2] = pre ++ sel :: post.
Proof.
  destruct (least_connection_first_minimum
              (world_with_active LEAST_CONNECTIONS [4; 2; 2]) [0; 1; 2])
    as (sel & Hrun & _ & Hmin).
  - intros idx Hidx.
    repeat (apply elem_of_cons in Hidx as [-> | Hidx]; [vm_compute; eauto |]).
    inversion Hidx.
  - destruct Hmin as (pre & post & c & Heq & _).
    + exists 0, 4. split; [left | split; [reflexivity | reflexivity]].
    + exists sel, pre, post. split; assumption.
Defined.

(** ** Selection *)

Section SelectorFacts.

Variable hasher : string -> Z.

Lemma vec_size_cons_pos {A} (x : A) (l : list A) : 0 < vec_size (x :: l).
Proof. unfold vec_size. simpl. lia. Qed.

Lemma at_index_mod {A} (v : list A) z :
  v <> [] -> exists x, at_index v (z mod vec_size v) = Some x /\ x ∈ v.
Proof.
  intros Hne.
  assert (0 < vec_size v) by (destruct v; [congruence | apply vec_size_cons_pos]).
  destruct (at_index_in_range v (z mod vec_size v)) as [x Hx].
  - apply Z.mod_pos_bound. assumption.
  - exists x. split; [exact Hx | eapply at_index_elem; exact Hx].
Qed.

Ltac run_select :=
  cbv beta iota delta
    [select_backend bind ret get_healthy_indices get_manager get_balancer].

Lemma select_backend_empty ip w :
  healthy_snapshot w = [] -> select_backend hasher ip w = Some (-1, w).
Proof.
  unfold healthy_snapshot. intros Hh. run_select. now rewrite Hh.
Qed.

Lemma select_backend_round_robin ip w :
  algorithm (balancer w) = ROUND_ROBIN ->
  healthy_snapshot w <> [] ->
  exists r,
    at_index (healthy_snapshot w)
      (rr_index (balancer w) mod vec_size (healthy_snapshot w)) = Some r
    /\ select_backend hasher ip w
       = Some (r, with_balancer w (advance_rr (balancer w))).
Proof.
  intros Halg Hne.
  destruct (at_index_mod (healthy_snapshot w) (rr_index (balancer w)) Hne)
    as (r & Hr & _).
  exists r. split; [exact Hr |].
  unfold healthy_snapshot in *.
  run_select.
  destruct (healthy_from 0 (backend_health (manager w))) as [| h t] eqn:Hh;
    [congruence |].
  rewrite Halg, Hr. reflexivity.
Qed.

Lemma select_backend_least ip w :
  algorithm (balancer w) = LEAST_CONNECTIONS ->
  healthy_snapshot w <> [] ->
  select_backend hasher ip w
  = get_least_connection_backend (healthy_snapshot w) w.
Proof.
  intros Halg Hne. unfold healthy_snapshot in *.
  run_select.
  destruct (healthy_from 0 (backend_health (manager w))) as [| h t] eqn:Hh;
    [congruence |].
  rewrite Halg. reflexivity.
Qed.

Lemma select_backend_ip_hash ip w :
  algorithm (balancer w) = IP_HASH ->
  healthy_snapshot w <> [] ->
  exists r,
    at_index (healthy_snapshot w)
      (size_wrap (hasher ip) mod vec_size (healthy_snapshot w)) = Some r
    /\ select_backend hasher ip w = Some (r, w).
Proof.
  intros Halg Hne.
  destruct (at_index_mod (healthy_snapshot w) (size_wrap (hasher ip)) Hne)
    as (r & Hr & _).
  exists r. split; [exact Hr |].
  unfold healthy_snapshot in *.
  run_select.
  destruct (healthy_from 0 (backend_health (manager w))) as [| h t] eqn:Hh;
    [congruence |].
  rewrite Halg, Hr. reflexivity.
Qed.

Lemma healthy_candidates_in_range w :
  registry_wf (manager w) ->
  forall idx, idx ∈ healthy_snapshot w ->
              is_Some (at_index (active_connections (manager w)) idx).
Proof.
  intros Hwf idx Hidx.
  destruct (healthy_snapshot_elem w idx Hwf Hidx) as [Hr _].
  destruct Hwf as (_ & _ & Ha & _).
  apply at_index_in_range. unfold vec_size in *. lia.
Qed.

(** Every call returns, touches nothing but the cursor, and yields -1 or a
    member of the snapshot. *)
Lemma select_backend_run ip w :
  registry_wf (manager w) ->
  exists r w',
    select_backend hasher ip w = Some (r, w')
    /\ manager w' = manager w
    /\ trace w' = trace w
    /\ algorithm (balancer w') = algorithm (balancer w)
    /\ (healthy_snapshot w = [] -> r = -1)
    /\ (r = -1 \/ r ∈ healthy_snapshot w).
Proof.
  intros Hwf.
  destruct (decide (healthy_snapshot w = [])) as [Hh | Hne].
  - exists (-1), w. rewrite select_backend_empty by exact Hh.
    repeat (split; [reflexivity |]). now left.
  - destruct (algorithm (balancer w)) eqn:Halg.
    + destruct (select_backend_round_robin ip w Halg Hne) as (r & Hr & Hrun).
      exists r, (with_balancer w (advance_rr (balancer w))).
      rewrite Hrun. repeat (split; [reflexivity |]).
      split; [exact Halg |]. split; [intros Hh; destruct (Hne Hh) |].
      right. eapply at_index_elem. exact Hr.
    + destruct (least_connection_run w (healthy_snapshot w)
                  (healthy_candidates_in_range w Hwf)) as (r & Hr & Hcase).
      exists r, w. rewrite select_backend_least by assumption.
      rewrite Hr. repeat (split; [reflexivity |]).
      split; [exact Halg |].
      split; [intros Hh; destruct (Hne Hh) | exact Hcase].
    + destruct (select_backend_ip_hash ip w Halg Hne) as (r & Hr & Hrun).
      exists r, w. rewrite Hrun. repeat (split; [reflexivity |]).
      split; [exact Halg |].
      split; [intros Hh; destruct (Hne Hh) |].
      right. eapply at_index_elem. exact Hr.
Qed.

(** C10.  On a registry whose vectors have the constructor's sizes, every
    call of [select_backend], in every mode, returns; its result is -1 or
    a member of the healthy snapshot read by the call, and then it is an
    index into the backend list, so the address lookup of [handle]
    succeeds. *)
Theorem select_backend_in_bounds ip w :
  registry_wf (manager w) ->
  exists r w',
    select_backend hasher ip w = Some (r, w')
    /\ (r = -1
        \/ (r ∈ healthy_snapshot w
            /\ 0 <= r < vec_size (backend_servers (manager w))
            /\ is_Some (at_index (backend_servers (manager w')) r))).
Proof.
  intros Hwf.
  destruct (select_backend_run ip w Hwf)
    as (r & w' & Hrun & Hm & _ & _ & _ & Hcase).
  exists r, w'. split; [exact Hrun |].
  destruct Hcase as [-> | Hin]; [now left | right].
  destruct (healthy_snapshot_elem w r Hwf Hin) as [Hr _].
  split; [exact Hin |]. split; [exact Hr |].
  rewrite Hm. now apply at_index_in_range.
Qed.

(** C9.  A call of [select_backend], in every mode, returns with the
    registry (health flags, connection counts, request counts, backend
    list) and the trace as they were, and with the same algorithm; only
    the cursor may differ. *)
Theorem select_backend_frame ip w :
  registry_wf (manager w) ->
  exists r w',
    select_backend hasher ip w = Some (r, w')
    /\ backend_health (manager w') = backend_health (manager w)
    /\ active_connections (manager w') = active_connections (manager w)
    /\ request_count (manager w') = request_count (manager w)
    /\ backend_servers (manager w') = backend_servers (manager w)
    /\ trace w' = trace w
    /\ algorithm (balancer w') = algorithm (balancer w).
Proof.
  intros Hwf.
  destruct (select_backend_run ip w Hwf)
    as (r & w' & Hrun & Hm & Ht & Halg & _).
  exists r, w'. rewrite Hm. repeat split; assumption.
Qed.

(** C8.  In IP_HASH mode, two calls with the same client address, made in
    worlds whose healthy snapshots are the same non-empty list, return the
    same index, and neither changes the world. *)
Theorem ip_hash_deterministic ip w1 w2 :
  algorithm (balancer w1) = IP_HASH ->
  algorithm (balancer w2) = IP_HASH ->
  healthy_snapshot w1 = healthy_snapshot w2 ->
  healthy_snapshot w1 <> [] ->
  exists r,
    select_backend hasher ip w1 = Some (r, w1)
    /\ select_backend hasher ip w2 = Some (r, w2)
    /\ r ∈ healthy_snapshot w1.
Proof.
  intros H1 H2 Heq Hne.
  destruct (select_backend_ip_hash ip w1 H1 Hne) as (r & Hr & Hrun1).
  destruct (select_backend_ip_hash ip w2 H2) as (r' & Hr' & Hrun2);
    [now rewrite <- Heq |].
  rewrite <- Heq, Hr in Hr'. injection Hr' as <-.
  exists r. repeat split; try assumption.
  eapply at_index_elem. exact Hr.
Qed.

(** The cursor stays a [size_t]. *)
Lemma size_wrap_range z : 0 <= size_wrap z < SIZE_MOD.
Proof. unfold size_wrap, SIZE_MOD. apply Z.mod_pos_bound. lia. Qed.

Lemma size_wrap_small z : 0 <= z < SIZE_MOD -> size_wrap z = z.
Proof. unfold size_wrap. apply Z.mod_small. Qed.

Lemma size_wrap_succ z i : size_wrap (size_wrap (z + 1) + i) = size_wrap (z + (1 + i)).
Proof.
  unfold size_wrap. rewrite Zplus_mod_idemp_l. f_equal. lia.
Qed.

(** Round-robin calls from cursor [c0]: call [i] reads the cursor
    [c0 + i], wrapped as a [size_t]. *)
Lemma select_each_round_robin healthy calls : forall w,
  algorithm (balancer w) = ROUND_ROBIN ->
  healthy_snapshot w = healthy ->
  healthy <> [] ->
  Forall (fun c => keeps_snapshot healthy (fst c)) calls ->
  0 <= rr_index (balancer w) < SIZE_MOD ->
  exists rs w',
    select_each hasher calls w = Some (rs, w')
    /\ healthy_snapshot w' = healthy
    /\ algorithm (balancer w') = ROUND_ROBIN
    /\ rr_index (balancer w')
       = size_wrap (rr_index (balancer w) + Z.of_nat (length calls))
    /\ length rs = length calls
    /\ forall i : nat, (i < length calls)%nat ->
         is_Some (rs !! i)
         /\ rs !! i
            = healthy !! Z.to_nat (size_wrap (rr_index (balancer w) + Z.of_nat i)
                                   mod vec_size healthy).
Proof.
  induction calls as [| [f ip] rest IH]; intros w Halg Hsnap Hne Hkeep Hrr.
  - exists [], w. simpl. rewrite Z.add_0_r, size_wrap_small by exact Hrr.
    split; [reflexivity |]. split; [exact Hsnap |]. split; [exact Halg |].
    repeat (split; [reflexivity |]). intros i Hi. inversion Hi.
  - apply Forall_cons in Hkeep as [Hf Hkeep]. cbn [fst] in Hf.
    set (w0 := with_manager w (f (manager w))).
    assert (Hsnap0 : healthy_snapshot w0 = healthy) by (apply Hf; exact Hsnap).
    assert (Hne0 : healthy_snapshot w0 <> []) by now rewrite Hsnap0.
    destruct (select_backend_round_robin ip w0 Halg Hne0) as (r & Hr & Hrun).
    rewrite Hsnap0 in Hr. change (balancer w0) with (balancer w) in Hr.
    set (w1 := with_balancer w0 (advance_rr (balancer w0))) in *.
    destruct (IH w1) as (rs & w' & Hrest & Hsnap' & Halg' & Hcur & Hlen & Hlook).
    + exact Halg.
    + exact Hsnap0.
    + exact Hne.
    + exact Hkeep.
    + apply size_wrap_range.
    + exists (r :: rs), w'.
      cbn [select_each]. unfold bind at 1. unfold interfere. fold w0.
      unfold bind at 1. rewrite Hrun.
      unfold bind at 1. rewrite Hrest. unfold ret.
      split; [reflexivity |]. split; [exact Hsnap' |].
      split; [exact Halg' |]. split.
      * rewrite Hcur.
        cbn [w1 w0 with_balancer with_manager balancer advance_rr rr_index length].
        rewrite size_wrap_succ. f_equal. lia.
      * split; [simpl; now rewrite Hlen |].
        intros [| i] Hi; simpl in Hi.
        -- cbn [lookup list_lookup]. rewrite Z.add_0_r, size_wrap_small by exact Hrr.
           apply at_index_Some in Hr as [_ Hr].
           split; [eauto |]. now rewrite Hr.
        -- destruct (Hlook i) as [Hsome Heq]; [lia |].
           split; [exact Hsome |].
           change ((r :: rs) !! S i) with (rs !! i).
           rewrite Heq.
           cbn [w1 w0 with_balancer with_manager balancer advance_rr rr_index].
           rewrite size_wrap_succ.
           replace (Z.of_nat (S i)) with (1 + Z.of_nat i) by lia.
           reflexivity.
Qed.

Lemma mod_shift_ne a d k : 0 < d < k -> a mod k <> (a + d) mod k.
Proof.
  intros Hd Heq.
  assert (Hk : k <> 0) by lia.
  pose proof (Z.mod_pos_bound a k ltac:(lia)) as Ha.
  pose proof (Z.mod_pos_bound (a + d) k ltac:(lia)) as Hb.
  pose proof (Z.div_mod a k Hk) as Ea.
  pose proof (Z.div_mod (a + d) k Hk) as Eb.
  rewrite <- Heq in Eb.
  assert (Hdk : d = k * ((a + d) / k - a / k)) by lia.
  assert (0 < (a + d) / k - a / k < 1) by nia.
  lia.
Qed.

(** C2.  In ROUND_ROBIN mode, take consecutive calls of [select_backend]
    made while the healthy snapshot stays one non-empty list [healthy] of
    size [K], whatever else happens to the registry between the calls, and
    let [c0] be the cursor before the first call.  If the calls do not take
    the cursor past the top of [size_t], then call [i] returns
    [healthy[(c0 + i) mod K]], every call advances the cursor by one, and
    two calls less than [K] apart return different indices. *)
Theorem round_robin_cyclic healthy calls w :
  registry_wf (manager w) ->
  algorithm (balancer w) = ROUND_ROBIN ->
  healthy_snapshot w = healthy ->
  healthy <> [] ->
  Forall (fun c => keeps_snapshot healthy (fst c)) calls ->
  0 <= rr_index (balancer w) < SIZE_MOD ->
  rr_index (balancer w) + Z.of_nat (length calls) <= SIZE_MOD ->
  exists rs w',
    select_each hasher calls w = Some (rs, w')
    /\ length rs = length calls
    /\ rr_index (balancer w')
       = size_wrap (rr_index (balancer w) + Z.of_nat (length calls))
    /\ (forall i : nat, (i < length calls)%nat ->
          is_Some (rs !! i)
          /\ rs !! i
             = healthy !! Z.to_nat ((rr_index (balancer w) + Z.of_nat i)
                                    mod vec_size healthy))
    /\ (forall i j : nat, (i < j < length calls)%nat ->
          Z.of_nat (j - i) < vec_size healthy ->
          rs !! i <> rs !! j).
Proof.
  intros Hwf Halg Hsnap Hne Hkeep Hrr Hhi.
  destruct (select_each_round_robin healthy calls w Halg Hsnap Hne Hkeep Hrr)
    as (rs & w' & Hrun & _ & _ & Hcur & Hlen & Hlook).
  assert (Hcall : forall i : nat, (i < length calls)%nat ->
            is_Some (rs !! i)
            /\ rs !! i
               = healthy !! Z.to_nat ((rr_index (balancer w) + Z.of_nat i)
                                      mod vec_size healthy)).
  { intros i Hi. destruct (Hlook i Hi) as [Hsome Heq].
    split; [exact Hsome |].
    rewrite Heq, size_wrap_small by lia. reflexivity. }
  exists rs, w'. split; [exact Hrun |]. split; [exact Hlen |].
  split; [exact Hcur |]. split; [exact Hcall |].
  intros i j Hij Hwin Heq.
  destruct (Hcall i) as [[x Hx] Hi]; [lia |].
  destruct (Hcall j) as [_ Hj]; [lia |].
  rewrite Heq, Hj in Hi. rewrite Heq, Hj in Hx.
  assert (Hk : 0 < vec_size healthy).
  { destruct healthy; [congruence | apply vec_size_cons_pos]. }
  assert (Hnd : NoDup healthy)
    by (rewrite <- Hsnap; now apply healthy_snapshot_NoDup).
  set (a := rr_index (balancer w) + Z.of_nat i) in *.
  replace (rr_index (balancer w) + Z.of_nat j)
    with (a + Z.of_nat (j - i)) in Hi, Hx by lia.
  rewrite Hx in Hi. symmetry in Hi.
  pose proof (NoDup_lookup _ _ _ _ Hnd Hi Hx) as Hsame.
  apply (mod_shift_ne a (Z.of_nat (j - i)) (vec_size healthy)); [lia |].
  pose proof (Z.mod_pos_bound a _ Hk).
  pose proof (Z.mod_pos_bound (a + Z.of_nat (j - i)) _ Hk).
  lia.
Qed.

(** C7, as amended.  The cursor is one counter of the balancer.  A call of
    [select_backend] in ROUND_ROBIN mode over a non-empty healthy snapshot
    advances it by exactly one, wrapping at [2^64]; a call in any other
    mode, and a call that returns -1 because no backend is healthy,
    leaves it as it was. *)
Theorem cursor_advances_in_round_robin_only ip w :
  registry_wf (manager w) ->
  exists r w',
    select_backend hasher ip w = Some (r, w')
    /\ (algorithm (balancer w) = ROUND_ROBIN ->
        healthy_snapshot w <> [] ->
        rr_index (balancer w') = size_wrap (rr_index (balancer w) + 1)
        /\ (0 <= rr_index (balancer w) < SIZE_MOD - 1 ->
            rr_index (balancer w') = rr_index (balancer w) + 1))
    /\ (algorithm (balancer w) <> ROUND_ROBIN ->
        rr_index (balancer w') = rr_index (balancer w))
    /\ (healthy_snapshot w = [] ->
        r = -1 /\ rr_index (balancer w') = rr_index (balancer w)).
Proof.
  intros Hwf.
  destruct (decide (healthy_snapshot w = [])) as [Hh | Hne].
  - exists (-1), w. rewrite select_backend_empty by exact Hh.
    split; [reflexivity |]. split; [intros _ Hne; destruct (Hne Hh) |].
    split; [reflexivity | split; reflexivity].
  - destruct (algorithm (balancer w)) eqn:Halg.
    + destruct (select_backend_round_robin ip w Halg Hne) as (r & _ & Hrun).
      exists r, (with_balancer w (advance_rr (balancer w))).
      split; [exact Hrun |]. split.
      * intros _ _. cbn [with_balancer balancer advance_rr rr_index].
        split; [reflexivity |].
        intros Hr. apply size_wrap_small. lia.
      * split; [congruence | intros Hh; destruct (Hne Hh)].
    + destruct (least_connection_run w (healthy_snapshot w)
                  (healthy_candidates_in_range w Hwf)) as (r & Hr & _).
      exists r, w. rewrite select_backend_least by assumption.
      split; [exact Hr |]. split; [discriminate |].
      split; [reflexivity | intros Hh; destruct (Hne Hh)].
    + destruct (select_backend_ip_hash ip w Halg Hne) as (r & _ & Hrun).
      exists r, w. split; [exact Hrun |]. split; [discriminate |].
      split; [reflexivity | intros Hh; destruct (Hne Hh)].
Qed.

End SelectorFacts.

(** ** [send_all] *)

Lemma send_all_from_spec net fd len k sent :
  sent <= len ->
  sent <= snd (send_all_from net fd len k sent) <= len
  /\ (fst (send_all_from net fd len k sent) = true
      <-> snd (send_all_from net fd len k sent) = len).
Proof.
  funelim (send_all_from net fd len k sent); intros Hle.
  - cbn. split; [lia |]. split; [lia | reflexivity].
  - cbn. split; [lia |]. split; [discriminate | lia].
  - assert (Hstep : sent + sys_send net fd k (len - sent) <= len)
      by (unfold sys_send; lia).
    destruct (H Hstep) as [Hb Hiff].
    split; [lia | exact Hiff].
Qed.

Lemma send_all_delivers net fd len :
  0 <= len ->
  fst (send_all_from net fd len 0 0) = true ->
  snd (send_all_from net fd len 0 0) = len.
Proof. intros Hlen. now apply send_all_from_spec. Qed.

Lemma bytes_whole s : bytes s (str_size s) = s.
Proof.
  unfold bytes, str_size. rewrite Nat2Z.id.
  induction s as [| c s IH]; [reflexivity |].
  simpl. now rewrite IH.
Qed.

Lemma str_size_nonneg s : 0 <= str_size s.
Proof. unfold str_size. lia. Qed.

(** ** What the network takes *)

Lemma sends_total_shift net fd k0 : forall n,
  (forall j, (k0 <= j < k0 + n)%nat -> 0 < net_send net fd j) ->
  sends_total net fd k0 <= sends_total net fd (k0 + n).
Proof.
  induction n as [| n IH]; intros Hpos.
  - rewrite Nat.add_0_r. lia.
  - rewrite Nat.add_succ_r. cbn [sends_total].
    pose proof (Hpos (k0 + n)%nat ltac:(lia)) as Hlast.
    assert (Hrec : sends_total net fd k0 <= sends_total net fd (k0 + n))
      by (apply IH; intros j Hj; apply Hpos; lia).
    lia.
Qed.

(** The loop of [send_all] returns true exactly when the [::send] calls
    from the [k]-th on take the bytes that are left. *)
Lemma send_all_from_sends net fd len k sent :
  sent <= len ->
  fst (send_all_from net fd len k sent) = true
  <-> exists n : nat,
        (forall j, (k <= j < k + n)%nat -> 0 < net_send net fd j)
        /\ len - sent <= sends_total net fd (k + n) - sends_total net fd k.
Proof.
  funelim (send_all_from net fd len k sent); intros Hle.
  - cbn. split; [intros _ | reflexivity].
    exists 0%nat. split; [intros j Hj; lia |]. rewrite Nat.add_0_r. lia.
  - cbn. split; [discriminate |].
    intros (m & Hpos & Hsum). exfalso.
    destruct m as [| m]; [rewrite Nat.add_0_r in Hsum; lia |].
    specialize (Hpos k ltac:(lia)). unfold sys_send in *. lia.
  - assert (Hstep : sent + sys_send net fd k (len - sent) <= len)
      by (unfold sys_send; lia).
    rewrite (H Hstep). clear H. unfold sys_send in *.
    split.
    + intros (m & Hpos & Hsum). exists (S m). split.
      * intros j Hj. destruct (decide (j = k)) as [-> | Hne]; [lia |].
        apply Hpos. lia.
      * replace (k + S m)%nat with (S k + m)%nat by lia.
        cbn [sends_total] in Hsum. lia.
    + intros (m & Hpos & Hsum).
      destruct m as [| m]; [rewrite Nat.add_0_r in Hsum; lia |].
      destruct (Z_le_dec (len - sent) (net_send net fd k)) as [Hall | Hpart].
      * exists 0%nat. split; [intros j Hj; lia |].
        rewrite Nat.add_0_r. lia.
      * exists m. split; [intros j Hj; apply Hpos; lia |].
        replace (k + S m)%nat with (S k + m)%nat in Hsum by lia.
        cbn [sends_total]. lia.
Qed.

Lemma fully_sent_sends net fd len :
  0 <= len -> fully_sent net fd len <-> sends_deliver net fd len.
Proof.
  intros Hlen. unfold fully_sent, sends_deliver.
  rewrite (send_all_from_sends net fd len 0 0 Hlen).
  split; intros (m & Hpos & Hsum); exists m; cbn [sends_total Nat.add] in *;
    (split; [intros j Hj; apply Hpos; lia | lia]).
Qed.

(** ** Running the monad *)

Lemma bind_Some {A B} (c : M A) (k : A -> M B) w x w1 :
  c w = Some (x, w1) -> bind c k w = k x w1.
Proof. unfold bind. now intros ->. Qed.

Lemma emit_run e w : emit e w = Some (tt, with_trace w (trace w ++ [e])).
Proof. reflexivity. Qed.

Lemma send_all_run net fd buf len w :
  send_all net fd buf len w
  = Some (fst (send_all_from net fd len 0 0),
          with_trace w (trace w ++ [sent_event net fd buf len])).
Proof. reflexivity. Qed.

Lemma insert_back {A} (v : list A) (i : nat) (x y : A) :
  v !! i = Some x -> <[i := x]> (<[i := y]> v) = v.
Proof.
  intros Hx. rewrite list_insert_insert_eq. now apply list_insert_id.
Qed.

Lemma increment_active_run idx a w :
  at_index (active_connections (manager w)) idx = Some a ->
  a < INT_MAX ->
  increment_active idx w
  = Some (tt, {| manager := with_active (manager w)
                              (<[Z.to_nat idx := a + 1]>
                                 (active_connections (manager w)));
                 balancer := balancer w;
                 trace := trace w ++ [EIncActive idx (a + 1)] |}).
Proof.
  intros Ha Hlt. unfold increment_active, bind, get_manager, lift_opt.
  rewrite Ha. unfold ret, int_incr.
  destruct (Z.ltb_spec a INT_MAX); [| lia].
  now rewrite (set_index_Some _ _ _ _ Ha).
Qed.

Lemma decrement_active_run idx a w :
  at_index (active_connections (manager w)) idx = Some a ->
  INT_MIN < a ->
  decrement_active idx w
  = Some (tt, {| manager := with_active (manager w)
                              (<[Z.to_nat idx := a - 1]>
                                 (active_connections (manager w)));
                 balancer := balancer w;
                 trace := trace w ++ [EDecActive idx (a - 1)] |}).
Proof.
  intros Ha Hlt. unfold decrement_active, bind, get_manager, lift_opt.
  rewrite Ha. unfold ret, int_decr.
  destruct (Z.ltb_spec INT_MIN a); [| lia].
  now rewrite (set_index_Some _ _ _ _ Ha).
Qed.

Lemma increment_requests_run idx c w :
  at_index (request_count (manager w)) idx = Some c ->
  c < INT_MAX ->
  increment_requests idx w
  = Some (tt, {| manager := with_requests (manager w)
                              (<[Z.to_nat idx := c + 1]>
                                 (request_count (manager w)));
                 balancer := balancer w;
                 trace := trace w ++ [EIncRequests idx (c + 1)] |}).
Proof.
  intros Hc Hlt. unfold increment_requests, bind, get_manager, lift_opt.
  rewrite Hc. unfold ret, int_incr.
  destruct (Z.ltb_spec c INT_MAX); [| lia].
  now rewrite (set_index_Some _ _ _ _ Hc).
Qed.

Lemma set_health_run idx b old w :
  at_index (backend_health (manager w)) idx = Some old ->
  set_health idx b w
  = Some (tt, {| manager := with_health (manager w)
                              (<[Z.to_nat idx := b]>
                                 (backend_health (manager w)));
                 balancer := balancer w;
                 trace := trace w ++ [ESetHealth idx b] |}).
Proof.
  intros Hold. unfold set_health, bind, get_manager, lift_opt.
  now rewrite (set_index_Some _ _ _ _ Hold).
Qed.

Lemma create_connection_run net ip port w :
  create_connection net ip port w
  = Some (connect_result net,
          with_trace w (trace w ++ connect_events net ip port)).
Proof.
  unfold create_connection, connect_result, connect_events, bind, emit, close,
    set_timeouts, ret.
  destruct (net_socket net =? -1); [reflexivity |].
  destruct (net_connect net =? -1); unfold with_trace; simpl;
    now rewrite <- !app_assoc.
Qed.

Lemma forward_once_run net src dst any w :
  exists got,
    forward_once net src dst any w
    = Some ((forward_result net src dst, got),
            with_trace w (trace w ++ forward_events net src dst)).
Proof.
  unfold forward_once, forward_result, forward_events, bind, emit, ret.
  cbv zeta.
  destruct (fst (sys_recv net src 8192) <=? 0).
  - now exists any.
  - exists true. rewrite send_all_run. unfold with_trace. simpl.
    now rewrite <- !app_assoc.
Qed.

(** ** The four ways through [handle] *)

Section HandlerFacts.

Variable hasher : string -> Z.

Lemma handle_none net fd ip w w1 :
  select_backend hasher ip w = Some (-1, w1) ->
  handle hasher net fd ip w
  = Some (tt, with_trace w1
                (trace w1 ++ [sent_event net fd msg_no_backend
                                (str_size msg_no_backend);
                              EClose fd])).
Proof.
  intros Hsel. unfold handle.
  rewrite (bind_Some _ _ _ _ _ Hsel). cbv beta. rewrite Z.eqb_refl.
  unfold bind. rewrite send_all_run. unfold close, emit, with_trace. simpl.
  now rewrite <- app_assoc.
Qed.

Lemma handle_connect_failed net fd ip w w1 idx srv :
  select_backend hasher ip w = Some (idx, w1) ->
  idx <> -1 ->
  at_index (backend_servers (manager w1)) idx = Some srv ->
  connect_result net = -1 ->
  handle hasher net fd ip w
  = Some (tt, with_trace w1
                (trace w1 ++ connect_events net (fst srv) (snd srv)
                 ++ [sent_event net fd msg_connect_failed
                       (str_size msg_connect_failed);
                     EClose fd])).
Proof.
  intros Hsel Hidx Hsrv Hconn. unfold handle.
  rewrite (bind_Some _ _ _ _ _ Hsel). cbv beta.
  apply Z.eqb_neq in Hidx. rewrite Hidx.
  unfold bind at 1. unfold get_manager.
  unfold bind at 1. rewrite Hsrv. unfold lift_opt, ret.
  rewrite (bind_Some _ _ _ _ _ (create_connection_run _ _ _ _)). cbv beta.
  rewrite Hconn, Z.eqb_refl.
  unfold bind. rewrite send_all_run. unfold close, emit, with_trace. simpl.
  now rewrite <- !app_assoc.
Qed.

Lemma world_eq m m' b b' t t' :
  m = m' -> b = b' -> t = t' ->
  {| manager := m; balancer := b; trace := t |}
  = {| manager := m'; balancer := b'; trace := t' |}.
Proof. now intros -> -> ->. Qed.

Lemma at_index_insert_same {A} (v : list A) i x y :
  at_index v i = Some x -> at_index (<[Z.to_nat i := y]> v) i = Some y.
Proof.
  intros [Hi Hl]%at_index_Some. apply at_index_Some. split; [exact Hi |].
  apply list_lookup_insert_eq. eapply lookup_lt_Some. exact Hl.
Qed.

Lemma handle_request_failed net fd ip w w1 idx srv a :
  select_backend hasher ip w = Some (idx, w1) ->
  idx <> -1 ->
  at_index (backend_servers (manager w1)) idx = Some srv ->
  connect_result net <> -1 ->
  at_index (active_connections (manager w1)) idx = Some a ->
  INT_MIN <= a < INT_MAX ->
  forward_result net fd (connect_result net) = false ->
  handle hasher net fd ip w
  = Some (tt, {| manager := manager w1;
                 balancer := balancer w1;
                 trace := trace w1 ++ connect_events net (fst srv) (snd srv)
                          ++ [EIncActive idx (a + 1)]
                          ++ forward_events net fd (connect_result net)
                          ++ [EClose (connect_result net); EClose fd;
                              EDecActive idx a] |}).
Proof.
  intros Hsel Hidx Hsrv Hconn Ha Hrange Hfwd. unfold handle.
  rewrite (bind_Some _ _ _ _ _ Hsel). cbv beta.
  apply Z.eqb_neq in Hidx. rewrite Hidx.
  unfold bind at 1. unfold get_manager.
  unfold bind at 1. rewrite Hsrv. unfold lift_opt, ret.
  rewrite (bind_Some _ _ _ _ _ (create_connection_run _ _ _ _)). cbv beta.
  apply Z.eqb_neq in Hconn. rewrite Hconn.
  erewrite bind_Some by (apply (increment_active_run idx a); [exact Ha | lia]).
  match goal with
  | |- bind (forward_once ?n ?s ?d ?b) _ ?w0 = _ =>
      destruct (forward_once_run n s d b w0) as [got Hrun]
  end.
  rewrite (bind_Some _ _ _ _ _ Hrun). cbv beta. cbn [fst]. rewrite Hfwd.
  cbn [negb]. unfold bind at 1. unfold close at 1. rewrite emit_run.
  unfold bind at 1. unfold close at 1. rewrite emit_run.
  erewrite decrement_active_run.
  2: { cbn [manager with_trace with_active active_connections].
       eapply at_index_insert_same. exact Ha. }
  2: { unfold INT_MIN in *. lia. }
  cbn [manager with_trace with_active active_connections balancer trace
         backend_servers backend_health request_count].
  apply at_index_Some in Ha as [_ Ha].
  replace (a + 1 - 1) with a by lia.
  rewrite insert_back by exact Ha.
  do 2 apply f_equal. apply world_eq.
  - destruct (manager w1); reflexivity.
  - reflexivity.
  - rewrite <- !app_assoc. reflexivity.
Qed.

Lemma handle_forwarded net fd ip w w1 idx srv a c :
  select_backend hasher ip w = Some (idx, w1) ->
  idx <> -1 ->
  at_index (backend_servers (manager w1)) idx = Some srv ->
  connect_result net <> -1 ->
  at_index (active_connections (manager w1)) idx = Some a ->
  INT_MIN <= a < INT_MAX ->
  at_index (request_count (manager w1)) idx = Some c ->
  c < INT_MAX ->
  forward_result net fd (connect_result net) = true ->
  handle hasher net fd ip w
  = Some (tt, {| manager := with_requests (manager w1)
                              (<[Z.to_nat idx := c + 1]>
                                 (request_count (manager w1)));
                 balancer := balancer w1;
                 trace := trace w1 ++ connect_events net (fst srv) (snd srv)
                          ++ [EIncActive idx (a + 1)]
                          ++ forward_events net fd (connect_result net)
                          ++ forward_events net (connect_result net) fd
                          ++ [EIncRequests idx (c + 1); EDecActive idx a;
                              EClose (connect_result net); EClose fd] |}).
Proof.
  intros Hsel Hidx Hsrv Hconn Ha Hrange Hc Hclt Hfwd. unfold handle.
  rewrite (bind_Some _ _ _ _ _ Hsel). cbv beta.
  apply Z.eqb_neq in Hidx. rewrite Hidx.
  unfold bind at 1. unfold get_manager.
  unfold bind at 1. rewrite Hsrv. unfold lift_opt, ret.
  rewrite (bind_Some _ _ _ _ _ (create_connection_run _ _ _ _)). cbv beta.
  apply Z.eqb_neq in Hconn. rewrite Hconn.
  erewrite bind_Some by (apply (increment_active_run idx a); [exact Ha | lia]).
  match goal with
  | |- bind (forward_once ?n ?s ?d ?b) _ ?w0 = _ =>
      destruct (forward_once_run n s d b w0) as [got Hrun]
  end.
  rewrite (bind_Some _ _ _ _ _ Hrun). cbv beta. cbn [fst]. rewrite Hfwd.
  cbn [negb].
  match goal with
  | |- bind (forward_once ?n ?s ?d ?b) _ ?w0 = _ =>
      destruct (forward_once_run n s d b w0) as [got' Hrun']
  end.
  rewrite (bind_Some _ _ _ _ _ Hrun'). cbv beta.
  erewrite bind_Some by (apply (increment_requests_run idx c); [exact Hc | lia]).
  erewrite bind_Some.
  2: { apply (decrement_active_run idx (a + 1)).
       - cbn [manager with_trace with_active with_requests active_connections].
         eapply at_index_insert_same. exact Ha.
       - unfold INT_MIN in *. lia. }
  unfold bind at 1. unfold close at 1. rewrite emit_run.
  unfold close. rewrite emit_run.
  cbn [manager with_trace with_active with_requests active_connections
         balancer trace backend_servers backend_health request_count].
  apply at_index_Some in Ha as [_ Ha].
  replace (a + 1 - 1) with a by lia.
  rewrite insert_back by exact Ha.
  do 2 apply f_equal. apply world_eq.
  - destruct (manager w1); reflexivity.
  - reflexivity.
  - rewrite <- !app_assoc. reflexivity.
Qed.

Lemma connect_result_succeeds net :
  connect_result net <> -1 <-> connect_succeeds net.
Proof.
  unfold connect_result, connect_succeeds.
  destruct (Z.eqb_spec (net_socket net) (-1)) as [Hs | Hs];
    [intuition congruence |].
  destruct (Z.eqb_spec (net_connect net) (-1)) as [Hc | Hc];
    intuition congruence.
Qed.

Lemma connect_result_socket net :
  connect_succeeds net -> connect_result net = net_socket net.
Proof.
  unfold connect_result. intros [Hs Hc].
  apply Z.eqb_neq in Hs, Hc. now rewrite Hs, Hc.
Qed.

Lemma connect_events_succeeds net ip port :
  connect_succeeds net ->
  connect_events net ip port
  = [ESocket (net_socket net);
     EConnect (net_socket net) ip port (net_connect net);
     ESetTimeouts (net_socket net) 10].
Proof.
  unfold connect_events. intros [Hs Hc].
  apply Z.eqb_neq in Hs, Hc. now rewrite Hs, Hc.
Qed.

Lemma connect_events_quiet net ip port fd :
  List.filter is_active_event (connect_events net ip port) = []
  /\ List.filter is_request_event (connect_events net ip port) = []
  /\ List.filter (is_client_write fd) (connect_events net ip port) = []
  /\ Forall count_nonneg (connect_events net ip port).
Proof.
  unfold connect_events.
  destruct (net_socket net =? -1); [| destruct (net_connect net =? -1)];
    repeat split; try reflexivity; repeat constructor.
Qed.

Lemma forward_events_quiet net src dst :
  List.filter is_active_event (forward_events net src dst) = []
  /\ List.filter is_request_event (forward_events net src dst) = []
  /\ Forall count_nonneg (forward_events net src dst).
Proof.
  unfold forward_events. cbv zeta.
  destruct (fst (sys_recv net src 8192) <=? 0);
    repeat split; try reflexivity; repeat constructor.
Qed.

Lemma forward_result_request_leg net fd :
  connect_succeeds net ->
  forward_result net fd (connect_result net) = true
  <-> request_leg_succeeds net fd.
Proof.
  intros Hc. rewrite (connect_result_socket net Hc).
  unfold forward_result, request_leg_succeeds, fully_sent. cbv zeta.
  destruct (Z.leb_spec (fst (sys_recv net fd 8192)) 0) as [Hle | Hgt].
  - split; [discriminate | intros [? _]; lia].
  - split; [intros H; split; [lia | exact H] | intros [_ H]; exact H].
Qed.

(** The slots of a selected backend. *)
Lemma selected_slots w idx :
  registry_wf (manager w) ->
  counters_in_range (manager w) ->
  idx ∈ healthy_snapshot w ->
  idx <> -1
  /\ exists srv a c,
       at_index (backend_servers (manager w)) idx = Some srv
       /\ at_index (active_connections (manager w)) idx = Some a
       /\ 0 <= a < INT_MAX
       /\ at_index (request_count (manager w)) idx = Some c
       /\ 0 <= c < INT_MAX.
Proof.
  intros Hwf [Hact Hreq] Hin.
  destruct (healthy_snapshot_elem w idx Hwf Hin) as [Hr _].
  destruct Hwf as (_ & Hrc & Ha & _). unfold vec_size in *.
  split; [lia |].
  destruct (at_index_in_range (backend_servers (manager w)) idx) as [srv Hsrv];
    [unfold vec_size; lia |].
  destruct (at_index_in_range (active_connections (manager w)) idx) as [a Hidx];
    [unfold vec_size; lia |].
  destruct (at_index_in_range (request_count (manager w)) idx) as [c Hc];
    [unfold vec_size; lia |].
  exists srv, a, c. repeat split; try assumption.
  - apply at_index_Some in Hidx as [_ Hidx]. now apply (Hact _ _ Hidx).
  - apply at_index_Some in Hidx as [_ Hidx]. now apply (Hact _ _ Hidx).
  - apply at_index_Some in Hc as [_ Hc]. now apply (Hreq _ _ Hc).
  - apply at_index_Some in Hc as [_ Hc]. now apply (Hreq _ _ Hc).
Qed.

(** Every run of [handle] on a registry with counters in range takes one
    of four ways. *)
Lemma handle_run net fd ip w :
  registry_wf (manager w) ->
  counters_in_range (manager w) ->
  exists idx w1,
    select_backend hasher ip w = Some (idx, w1)
    /\ manager w1 = manager w
    /\ trace w1 = trace w
    /\ ((idx = -1
         /\ handle hasher net fd ip w
            = Some (tt, with_trace w1
                          (trace w ++ [sent_event net fd msg_no_backend
                                         (str_size msg_no_backend);
                                       EClose fd])))
        \/ (idx <> -1
            /\ exists srv a c,
                at_index (backend_servers (manager w)) idx = Some srv
                /\ at_index (active_connections (manager w)) idx = Some a
                /\ 0 <= a < INT_MAX
                /\ at_index (request_count (manager w)) idx = Some c
                /\ 0 <= c < INT_MAX
                /\ ((~ connect_succeeds net
                     /\ handle hasher net fd ip w
                        = Some (tt, with_trace w1
                                      (trace w
                                       ++ connect_events net (fst srv) (snd srv)
                                       ++ [sent_event net fd msg_connect_failed
                                             (str_size msg_connect_failed);
                                           EClose fd])))
                    \/ (connect_succeeds net
                        /\ ~ request_leg_succeeds net fd
                        /\ handle hasher net fd ip w
                           = Some (tt,
                               {| manager := manager w;
                                  balancer := balancer w1;
                                  trace :=
                                    trace w
                                    ++ connect_events net (fst srv) (snd srv)
                                    ++ [EIncActive idx (a + 1)]
                                    ++ forward_events net fd (net_socket net)
                                    ++ [EClose (net_socket net); EClose fd;
                                        EDecActive idx a] |}))
                    \/ (connect_succeeds net
                        /\ request_leg_succeeds net fd
                        /\ handle hasher net fd ip w
                           = Some (tt,
                               {| manager :=
                                    with_requests (manager w)
                                      (<[Z.to_nat idx := c + 1]>
                                         (request_count (manager w)));
                                  balancer := balancer w1;
                                  trace :=
                                    trace w
                                    ++ connect_events net (fst srv) (snd srv)
                                    ++ [EIncActive idx (a + 1)]
                                    ++ forward_events net fd (net_socket net)
                                    ++ forward_events net (net_socket net) fd
                                    ++ [EIncRequests idx (c + 1);
                                        EDecActive idx a;
                                        EClose (net_socket net);
                                        EClose fd] |}))))).
Proof.
  intros Hwf Hrange.
  destruct (select_backend_run hasher ip w Hwf)
    as (idx & w1 & Hsel & Hm & Ht & _ & _ & Hcase).
  exists idx, w1. split; [exact Hsel |]. split; [exact Hm |].
  split; [exact Ht |].
  destruct Hcase as [-> | Hin].
  - left. split; [reflexivity |].
    rewrite (handle_none net fd ip w w1 Hsel), Ht. reflexivity.
  - right.
    destruct (selected_slots w idx Hwf Hrange Hin)
      as (Hidx & srv & a & c & Hsrv & Ha & Har & Hc & Hcr).
    split; [exact Hidx |]. exists srv, a, c.
    repeat (split; [assumption |]).
    rewrite <- Hm in Hsrv, Ha, Hc. rewrite <- Hm, <- Ht.
    destruct (decide (connect_result net = -1)) as [Hfail | Hok].
    + left. split.
      * intros Hs%connect_result_succeeds. contradiction.
      * exact (handle_connect_failed net fd ip w w1 idx srv
                 Hsel Hidx Hsrv Hfail).
    + right.
      assert (Hs : connect_succeeds net) by now apply connect_result_succeeds.
      pose proof (forward_result_request_leg net fd Hs) as Hleg.
      rewrite <- (connect_result_socket net Hs).
      destruct (forward_result net fd (connect_result net)) eqn:Hfwd.
      * right. split; [exact Hs |]. split; [now apply Hleg |].
        apply (handle_forwarded net fd ip w w1 idx srv a c); try assumption.
        -- unfold INT_MIN. lia.
        -- lia.
      * left. split; [exact Hs |]. split.
        -- intros Hreq%Hleg. discriminate.
        -- apply (handle_request_failed net fd ip w w1 idx srv a);
             try assumption.
           unfold INT_MIN. lia.
Qed.

Lemma filter_app_nil {A} (f : A -> bool) l1 l2 :
  List.filter f l1 = [] -> List.filter f (l1 ++ l2) = List.filter f l2.
Proof. intros H. now rewrite List.filter_app, H. Qed.

(** The conditions the theorems ask of the registry are kept by every
    run of [handle], but for the ceiling on the request counts. *)
Lemma handle_keeps_registry net fd ip w w' :
  registry_wf (manager w) ->
  counters_in_range (manager w) ->
  handle hasher net fd ip w = Some (tt, w') ->
  registry_wf (manager w')
  /\ (forall i a, active_connections (manager w') !! i = Some a ->
        0 <= a < INT_MAX)
  /\ (forall i c, request_count (manager w') !! i = Some c -> 0 <= c).
Proof.
  intros Hwf Hrange Hrun.
  assert (Hsame : registry_wf (manager w)
                  /\ (forall i a, active_connections (manager w) !! i = Some a ->
                        0 <= a < INT_MAX)
                  /\ (forall i c, request_count (manager w) !! i = Some c ->
                        0 <= c)).
  { split; [exact Hwf |]. split; [apply Hrange |].
    intros i c Hc. now apply (proj2 Hrange i c). }
  destruct (handle_run net fd ip w Hwf Hrange)
    as (idx & w1 & _ & Hm & _ & Hcase).
  destruct Hcase as [[_ Hrun'] |
    (_ & srv & a & c & _ & _ & _ & Hc & Hcr & Hpath)].
  { rewrite Hrun' in Hrun. injection Hrun as <-.
    cbn [manager with_trace]. now rewrite Hm. }
  destruct Hpath as [[_ Hrun'] | [(_ & _ & Hrun') | (_ & _ & Hrun')]];
    rewrite Hrun' in Hrun; injection Hrun as <-.
  - cbn [manager with_trace]. now rewrite Hm.
  - exact Hsame.
  - cbn [manager with_requests active_connections request_count].
    destruct Hwf as (Hh & Hr & Ha & Hmax).
    split; [| split; [apply Hrange |]].
    + unfold registry_wf. cbn. rewrite length_insert. auto.
    + intros i x Hx. apply at_index_Some in Hc as [_ Hc].
      destruct (decide (Z.to_nat idx = i)) as [<- | Hne].
      * rewrite list_lookup_insert_eq in Hx
          by (eapply lookup_lt_Some; exact Hc).
        injection Hx as <-. lia.
      * rewrite list_lookup_insert_ne in Hx by exact Hne.
        now apply (proj2 Hrange i x).
Qed.

(** C1.  On a registry whose connection counts are not negative and below
    [INT_MAX], every run of [handle] returns, whatever the network does,
    with every connection count as it was before the run.  No counter the
    run writes is negative.  Either the run leaves the connection counts
    alone, or it calls [increment_active] once, on the selected backend
    and after a successful connect to that backend's address, and then
    [decrement_active] exactly once on the same backend. *)
Theorem handle_restores_active net fd ip w :
  registry_wf (manager w) ->
  counters_in_range (manager w) ->
  exists w' evs,
    handle hasher net fd ip w = Some (tt, w')
    /\ trace w' = trace w ++ evs
    /\ active_connections (manager w') = active_connections (manager w)
    /\ Forall count_nonneg evs
    /\ (List.filter is_active_event evs = []
        \/ exists idx w1 a srv pre post sock ret,
             select_backend hasher ip w = Some (idx, w1)
             /\ at_index (active_connections (manager w)) idx = Some a
             /\ at_index (backend_servers (manager w)) idx = Some srv
             /\ evs = pre ++ EIncActive idx (a + 1) :: post
             /\ List.filter is_active_event pre = []
             /\ EConnect sock (fst srv) (snd srv) ret ∈ pre
             /\ ret <> -1
             /\ List.filter is_active_event post = [EDecActive idx a]).
Proof.
  intros Hwf Hrange.
  destruct (handle_run net fd ip w Hwf Hrange)
    as (idx & w1 & Hsel & Hm & Ht & Hcase).
  destruct Hcase as [[_ Hrun] |
    (Hidx & srv & a & c & Hsrv & Ha & Har & Hc & Hcr & Hpath)].
  - eexists _, _. split; [exact Hrun |].
    split; [reflexivity |]. split; [cbn; now rewrite Hm |].
    split; [repeat constructor | left; reflexivity].
  - destruct Hpath as [[_ Hrun] | [(Hs & _ & Hrun) | (Hs & _ & Hrun)]].
    + eexists _, _. split; [exact Hrun |].
      destruct (connect_events_quiet net (fst srv) (snd srv) fd)
        as (Hact & _ & _ & Hnn).
      split; [reflexivity |]. split; [cbn; now rewrite Hm |]. split.
      * apply Forall_app. split; [exact Hnn | repeat constructor].
      * left. now rewrite (filter_app_nil _ _ _ Hact).
    + eexists _, _. split; [exact Hrun |].
      destruct (connect_events_quiet net (fst srv) (snd srv) fd)
        as (Hact & _ & _ & Hnn).
      destruct (forward_events_quiet net fd (net_socket net))
        as (Hfact & _ & Hfnn).
      split; [reflexivity |]. split; [reflexivity |]. split.
      * apply Forall_app. split; [exact Hnn |].
        apply Forall_cons. split; [cbn; lia |].
        apply Forall_app. split; [exact Hfnn |].
        repeat constructor. cbn. lia.
      * right.
        exists idx, w1, a, srv, (connect_events net (fst srv) (snd srv)),
          (forward_events net fd (net_socket net)
           ++ [EClose (net_socket net); EClose fd; EDecActive idx a]),
          (net_socket net), (net_connect net).
        repeat (split; [assumption || reflexivity |]).
        split; [| split; [apply Hs |]].
        -- rewrite (connect_events_succeeds _ _ _ Hs). right. left.
        -- now rewrite (filter_app_nil _ _ _ Hfact).
    + eexists _, _. split; [exact Hrun |].
      destruct (connect_events_quiet net (fst srv) (snd srv) fd)
        as (Hact & _ & _ & Hnn).
      destruct (forward_events_quiet net fd (net_socket net))
        as (Hfact & _ & Hfnn).
      destruct (forward_events_quiet net (net_socket net) fd)
        as (Hbact & _ & Hbnn).
      split; [reflexivity |]. split; [reflexivity |]. split.
      * apply Forall_app. split; [exact Hnn |].
        apply Forall_cons. split; [cbn; lia |].
        apply Forall_app. split; [exact Hfnn |].
        apply Forall_app. split; [exact Hbnn |].
        repeat constructor; cbn; lia.
      * right.
        exists idx, w1, a, srv, (connect_events net (fst srv) (snd srv)),
          (forward_events net fd (net_socket net)
           ++ forward_events net (net_socket net) fd
           ++ [EIncRequests idx (c + 1); EDecActive idx a;
               EClose (net_socket net); EClose fd]),
          (net_socket net), (net_connect net).
        repeat (split; [assumption || reflexivity |]).
        split; [| split; [apply Hs |]].
        -- rewrite (connect_events_succeeds _ _ _ Hs). right. left.
        -- rewrite (filter_app_nil _ _ _ Hfact).
           now rewrite (filter_app_nil _ _ _ Hbact).
Qed.


End HandlerFacts.

(** ** Request counts never go down *)















Section Growth.

Variable hasher : string -> Z.








End Growth.

(** ** The health probe *)

Lemma prefix_app pat s :
  String.prefix pat s = true <-> exists post, s = (pat ++ post)%string.
Proof.
  revert s. induction pat as [| a pat IH]; intros s.
  - split; [intros _; now exists s | intros _; now destruct s].
  - destruct s as [| b s]; simpl.
    + split; [discriminate | intros [post Hp]; discriminate].
    + destruct (ascii_dec a b) as [-> | Hne].
      * rewrite IH. split; intros [post Hp]; exists post; congruence.
      * split; [discriminate | intros [post Hp]; congruence].
Qed.

Lemma find_from_contains pat s : forall pos,
  is_npos (find_from pat s pos) = false <-> contains s pat.
Proof.
  unfold contains.
  induction s as [| c s IH]; intros pos; cbn [find_from].
  - destruct (String.prefix pat "") eqn:Hp; cbn [is_npos].
    + split; [intros _ | reflexivity].
      apply prefix_app in Hp as [post Hp]. now exists ""%string, post.
    + split; [discriminate |].
      intros (pre & post & Heq). exfalso.
      destruct pre; [| discriminate]. simpl in Heq.
      assert (String.prefix pat "" = true) by (apply prefix_app; eauto).
      congruence.
  - destruct (String.prefix pat (String c s)) eqn:Hp; cbn [is_npos].
    + split; [intros _ | reflexivity].
      apply prefix_app in Hp as [post Hp]. now exists ""%string, post.
    + rewrite IH. split.
      * intros (pre & post & ->). now exists (String c pre), post.
      * intros (pre & post & Heq). destruct pre as [| c' pre]; simpl in Heq.
        -- assert (String.prefix pat (String c s) = true)
             by (apply prefix_app; eauto).
           congruence.
        -- injection Heq as _ ->. eauto.
Qed.

Lemma status_200_contains resp :
  status_200 resp = true
  <-> contains resp "HTTP/1.1 200" \/ contains resp "HTTP/1.0 200".
Proof.
  unfold status_200, find.
  rewrite orb_true_iff, !negb_true_iff, !find_from_contains. reflexivity.
Qed.

Lemma probe_verdict_succeeds net ip :
  probe_verdict net ip = true <-> probe_succeeds net ip.
Proof.
  unfold probe_verdict, probe_succeeds, fully_sent. cbv zeta.
  destruct (Z.eqb_spec (net_socket net) (-1)) as [Hs | Hs];
    [split; [discriminate | tauto] |].
  destruct (Z.eqb_spec (net_connect net) (-1)) as [Hc | Hc]; cbn [negb];
    [split; [discriminate | tauto] |].
  destruct (fst (send_all_from net (net_socket net)
                   (str_size (health_request ip)) 0 0));
    [| split; [discriminate | intros (_ & _ & ? & _); discriminate]].
  destruct (Z.leb_spec (fst (sys_recv net (net_socket net) 1024)) 0)
    as [Hle | Hgt]; [split; [discriminate | intros (_ & _ & _ & ? & _); lia] |].
  rewrite status_200_contains. tauto.
Qed.

Lemma read_some_run net fd out w :
  read_some net fd out w
  = Some (if fst (sys_recv net fd 1024) <=? 0 then (false, out)
          else (true, (out ++ bytes (snd (sys_recv net fd 1024))
                              (fst (sys_recv net fd 1024)))%string),
          with_trace w (trace w ++ [ERecv fd (fst (sys_recv net fd 1024))])).
Proof.
  unfold read_some, bind, emit, ret. cbv zeta.
  now destruct (fst (sys_recv net fd 1024) <=? 0).
Qed.

Lemma probe_backend_run net i w srv old :
  at_index (backend_servers (manager w)) i = Some srv ->
  0 <= i <= INT_MAX ->
  at_index (backend_health (manager w)) i = Some old ->
  exists evs,
    probe_backend net i w
    = Some (tt, {| manager := with_health (manager w)
                                (<[Z.to_nat i := probe_verdict net (fst srv)]>
                                   (backend_health (manager w)));
                   balancer := balancer w;
                   trace := trace w ++ evs |}).
Proof.
  intros Hsrv Hi Hold.
  unfold probe_backend, probe_verdict.
  unfold bind at 1. unfold get_manager.
  unfold bind at 1. rewrite Hsrv. unfold lift_opt at 1. unfold ret at 1.
  cbv zeta. rewrite (int_of_size_small i Hi).
  unfold bind at 1. rewrite emit_run.
  destruct (net_socket net =? -1).
  { erewrite set_health_run by exact Hold. eexists.
    do 2 apply f_equal. apply world_eq; [reflexivity | reflexivity |].
    cbn [trace with_trace]. rewrite <- app_assoc. reflexivity. }
  unfold bind at 1. unfold set_timeouts. rewrite emit_run.
  unfold bind at 1. rewrite emit_run.
  destruct (net_connect net =? -1); cbn [negb].
  { unfold bind at 1. unfold ret at 1.
    unfold bind at 1. unfold close. rewrite emit_run.
    erewrite set_health_run by exact Hold. eexists.
    do 2 apply f_equal. apply world_eq; [reflexivity | reflexivity |].
    cbn [trace with_trace]. rewrite <- !app_assoc. reflexivity. }
  unfold bind at 1. unfold bind at 1. rewrite send_all_run.
  destruct (fst (send_all_from net (net_socket net)
                   (str_size (health_request (fst srv))) 0 0)).
  2: { unfold ret at 1.
       unfold bind at 1. unfold close. rewrite emit_run.
       erewrite set_health_run by exact Hold. eexists.
       do 2 apply f_equal. apply world_eq; [reflexivity | reflexivity |].
       cbn [trace with_trace]. rewrite <- !app_assoc. reflexivity. }
  unfold bind at 1. rewrite read_some_run.
  destruct (fst (sys_recv net (net_socket net) 1024) <=? 0); cbn [fst snd].
  - unfold ret at 1.
    unfold bind at 1. unfold close. rewrite emit_run.
    erewrite set_health_run by exact Hold. eexists.
    do 2 apply f_equal. apply world_eq; [reflexivity | reflexivity |].
    cbn [trace with_trace]. rewrite <- !app_assoc. reflexivity.
  - unfold ret at 1.
    unfold bind at 1. unfold close. rewrite emit_run.
    erewrite set_health_run by exact Hold. eexists.
    do 2 apply f_equal. apply world_eq; [reflexivity | reflexivity |].
    cbn [trace with_trace]. rewrite <- !app_assoc. reflexivity.
Qed.

Lemma probe_from_run nets : forall todo i w,
  0 <= i ->
  i + Z.of_nat todo <= vec_size (backend_servers (manager w)) ->
  registry_wf (manager w) ->
  exists w',
    probe_from nets i todo w = Some (tt, w')
    /\ backend_servers (manager w') = backend_servers (manager w)
    /\ request_count (manager w') = request_count (manager w)
    /\ active_connections (manager w') = active_connections (manager w)
    /\ balancer w' = balancer w
    /\ length (backend_health (manager w')) = length (backend_health (manager w))
    /\ forall (k : nat) srv,
         backend_servers (manager w) !! k = Some srv ->
         backend_health (manager w') !! k
         = if decide (Z.to_nat i <= k < Z.to_nat i + todo)%nat
           then Some (probe_verdict (nets (Z.of_nat k)) (fst srv))
           else backend_health (manager w) !! k.
Proof.
  induction todo as [| todo IH]; intros i w Hi Hbound Hwf.
  - exists w. simpl. unfold ret. repeat (split; [reflexivity |]).
    intros k srv _. destruct (decide _) as [Hk | _]; [lia | reflexivity].
  - pose proof Hwf as (Hh & Hrc & Ha & Hmax). unfold vec_size in *.
    destruct (at_index_in_range (backend_servers (manager w)) i) as [srv Hsrv];
      [unfold vec_size; lia |].
    destruct (at_index_in_range (backend_health (manager w)) i) as [old Hold];
      [unfold vec_size; lia |].
    destruct (probe_backend_run (nets i) i w srv old Hsrv ltac:(lia) Hold)
      as [evs Hrun].
    set (w1 := {| manager := with_health (manager w)
                               (<[Z.to_nat i := probe_verdict (nets i) (fst srv)]>
                                  (backend_health (manager w)));
                  balancer := balancer w;
                  trace := trace w ++ evs |}) in *.
    destruct (IH (i + 1) w1) as (w' & Hrest & Hs & Hr & Hact & Hb & Hlen & Hflags).
    + lia.
    + cbn. lia.
    + unfold registry_wf, vec_size. cbn. rewrite length_insert. lia.
    + exists w'. cbn [probe_from]. rewrite (bind_Some _ _ _ _ _ Hrun).
      split; [exact Hrest |]. split; [exact Hs |]. split; [exact Hr |].
      split; [exact Hact |]. split; [exact Hb |].
      split; [rewrite Hlen; cbn; apply length_insert |].
      intros k srvk Hk. rewrite (Hflags k srvk Hk). cbn.
      apply at_index_Some in Hsrv as [_ Hsrv].
      apply at_index_Some in Hold as [_ Hold].
      destruct (decide (Z.to_nat (i + 1) <= k < Z.to_nat (i + 1) + todo)%nat)
        as [Hin | Hout].
      * destruct (decide _) as [_ | Hno]; [reflexivity | lia].
      * destruct (decide (k = Z.to_nat i)) as [-> | Hne].
        -- rewrite list_lookup_insert_eq by (eapply lookup_lt_Some; exact Hold).
           destruct (decide _) as [_ | Hno]; [| lia].
           rewrite Hsrv in Hk. injection Hk as <-.
           now rewrite Z2Nat.id by lia.
        -- rewrite list_lookup_insert_ne by congruence.
           destruct (decide _) as [Hyes | _]; [lia | reflexivity].
Qed.

Lemma probe_backend_trace net i w srv old :
  at_index (backend_servers (manager w)) i = Some srv ->
  0 <= i <= INT_MAX ->
  at_index (backend_health (manager w)) i = Some old ->
  probe_backend net i w
  = Some (tt, {| manager := with_health (manager w)
                              (<[Z.to_nat i := probe_verdict net (fst srv)]>
                                 (backend_health (manager w)));
                 balancer := balancer w;
                 trace := trace w ++ probe_events net i (fst srv) (snd srv) |}).
Proof.
  intros Hsrv Hi Hold.
  unfold probe_backend, probe_events, probe_verdict.
  unfold bind at 1. unfold get_manager.
  unfold bind at 1. rewrite Hsrv. unfold lift_opt at 1. unfold ret at 1.
  cbv zeta. rewrite (int_of_size_small i Hi).
  unfold bind at 1. rewrite emit_run.
  destruct (net_socket net =? -1).
  { erewrite set_health_run by exact Hold.
    do 2 apply f_equal. apply world_eq; [reflexivity | reflexivity |].
    cbn [trace with_trace]. rewrite <- app_assoc. reflexivity. }
  unfold bind at 1. unfold set_timeouts. rewrite emit_run.
  unfold bind at 1. rewrite emit_run.
  destruct (net_connect net =? -1); cbn [negb].
  { unfold bind at 1. unfold ret at 1.
    unfold bind at 1. unfold close. rewrite emit_run.
    erewrite set_health_run by exact Hold.
    do 2 apply f_equal. apply world_eq; [reflexivity | reflexivity |].
    cbn [trace with_trace]. rewrite <- !app_assoc. reflexivity. }
  unfold bind at 1. unfold bind at 1. rewrite send_all_run.
  destruct (fst (send_all_from net (net_socket net)
                   (str_size (health_request (fst srv))) 0 0)).
  2: { unfold ret at 1.
       unfold bind at 1. unfold close. rewrite emit_run.
       erewrite set_health_run by exact Hold.
       do 2 apply f_equal. apply world_eq; [reflexivity | reflexivity |].
       cbn [trace with_trace]. rewrite <- !app_assoc. reflexivity. }
  unfold bind at 1. rewrite read_some_run.
  destruct (fst (sys_recv net (net_socket net) 1024) <=? 0); cbn [fst snd].
  - unfold ret at 1.
    unfold bind at 1. unfold close. rewrite emit_run.
    erewrite set_health_run by exact Hold.
    do 2 apply f_equal. apply world_eq; [reflexivity | reflexivity |].
    cbn [trace with_trace]. rewrite <- !app_assoc. reflexivity.
  - unfold ret at 1.
    unfold bind at 1. unfold close. rewrite emit_run.
    erewrite set_health_run by exact Hold.
    do 2 apply f_equal. apply world_eq; [reflexivity | reflexivity |].
    cbn [trace with_trace]. rewrite <- !app_assoc. reflexivity.
Qed.

(** The events of the probes of a cycle are all in its trace. *)
Lemma probe_from_events nets : forall todo i w,
  0 <= i ->
  i + Z.of_nat todo <= vec_size (backend_servers (manager w)) ->
  registry_wf (manager w) ->
  exists w' evs,
    probe_from nets i todo w = Some (tt, w')
    /\ trace w' = trace w ++ evs
    /\ forall (k : nat) srv,
         backend_servers (manager w) !! k = Some srv ->
         (Z.to_nat i <= k < Z.to_nat i + todo)%nat ->
         forall e,
           In e (probe_events (nets (Z.of_nat k)) (Z.of_nat k)
                   (fst srv) (snd srv)) ->
           In e evs.
Proof.
  induction todo as [| todo IH]; intros i w Hi Hbound Hwf.
  - exists w, []. cbn [probe_from]. unfold ret.
    split; [reflexivity |]. split; [now rewrite app_nil_r |].
    intros k srv _ Hk. lia.
  - pose proof Hwf as (Hh & Hrc & Ha & Hmax). unfold vec_size in *.
    destruct (at_index_in_range (backend_servers (manager w)) i) as [srv Hsrv];
      [unfold vec_size; lia |].
    destruct (at_index_in_range (backend_health (manager w)) i) as [old Hold];
      [unfold vec_size; lia |].
    pose proof (probe_backend_trace (nets i) i w srv old Hsrv ltac:(lia) Hold)
      as Hrun.
    set (w1 := {| manager := with_health (manager w)
                               (<[Z.to_nat i := probe_verdict (nets i) (fst srv)]>
                                  (backend_health (manager w)));
                  balancer := balancer w;
                  trace := trace w
                           ++ probe_events (nets i) i (fst srv) (snd srv) |})
      in *.
    destruct (IH (i + 1) w1) as (w' & evs & Hrest & Ht & Hin).
    + lia.
    + cbn. lia.
    + unfold registry_wf, vec_size. cbn. rewrite length_insert. lia.
    + exists w', (probe_events (nets i) i (fst srv) (snd srv) ++ evs).
      cbn [probe_from]. rewrite (bind_Some _ _ _ _ _ Hrun).
      split; [exact Hrest |].
      split; [rewrite Ht; cbn [trace w1]; now rewrite app_assoc |].
      intros k srvk Hk Hrange e He. apply in_or_app.
      apply at_index_Some in Hsrv as [_ Hsrv].
      destruct (decide (k = Z.to_nat i)) as [-> | Hne].
      * left. rewrite Hsrv in Hk. injection Hk as <-.
        now rewrite Z2Nat.id in He by lia.
      * right. apply (Hin k srvk); [exact Hk | lia | exact He].
Qed.

(** The events of a probe that ends with the verdict true. *)
Lemma probe_events_verdict net i ip port :
  0 <= i <= INT_MAX ->
  In (ESetHealth i (probe_verdict net ip)) (probe_events net i ip port)
  /\ (probe_verdict net ip = true ->
      In (ESendAll (net_socket net) (health_request ip)
            (str_size (health_request ip)) true)
         (probe_events net i ip port)
      /\ In (ERecv (net_socket net) (fst (sys_recv net (net_socket net) 1024)))
           (probe_events net i ip port)).
Proof.
  intros Hi. unfold probe_events, probe_verdict, sent_event. cbv zeta.
  rewrite (int_of_size_small i Hi).
  destruct (net_socket net =? -1);
    [split; [right; left; reflexivity | discriminate] |].
  destruct (net_connect net =? -1); cbn [negb];
    [split; [do 4 right; left; reflexivity | discriminate] |].
  destruct (fst (send_all_from net (net_socket net)
                   (str_size (health_request ip)) 0 0)) eqn:Hsent;
    [| split; [do 5 right; left; reflexivity | discriminate]].
  split; [do 6 right; left; reflexivity |].
  intros _. split.
  - do 3 right. left. rewrite bytes_whole.
    rewrite (send_all_delivers net (net_socket net)
               (str_size (health_request ip)) (str_size_nonneg _) Hsent).
    reflexivity.
  - do 4 right. left. reflexivity.
Qed.

(** C4.  One probe cycle over a registry with the constructor's vector
    sizes returns.  For every backend [i] at [ip] it writes one flag [b]
    into the registry, and [b] is true exactly when the probe's socket
    opened and connected, the network took every byte of the request
    [GET /health HTTP/1.1], [Host: ip], [Connection: close], and the one
    read of at most 1024 bytes returned bytes that contain [HTTP/1.1 200]
    or [HTTP/1.0 200]; otherwise [b] is false.  When [b] is true that
    request text was written to the socket by one [send_all] that
    delivered all of it, and the read was made.  The flag of [i] depends
    on the network of [i] alone: a cycle in which the probes of other
    backends go differently leaves the same flag for [i].  The cycle
    changes no counter and not the balancer. *)
Theorem probe_cycle_sets_flags nets nets' w :
  registry_wf (manager w) ->
  exists w1 w2 evs,
    probe_cycle nets w = Some (tt, w1)
    /\ probe_cycle nets' w = Some (tt, w2)
    /\ trace w1 = trace w ++ evs
    /\ (forall i ip port,
          at_index (backend_servers (manager w)) i = Some (ip, port) ->
          let fd := net_socket (nets i) in
          let request :=
            ("GET /health HTTP/1.1" ++ CRLF ++ "Host: " ++ ip ++ CRLF
             ++ "Connection: close" ++ CRLF ++ CRLF)%string in
          let n := Z.min (fst (net_recv (nets i) fd)) 1024 in
          let got := bytes (snd (net_recv (nets i) fd)) n in
          exists b,
            at_index (backend_health (manager w1)) i = Some b
            /\ In (ESetHealth i b) evs
            /\ (b = true <->
                fd <> -1
                /\ net_connect (nets i) <> -1
                /\ sends_deliver (nets i) fd (str_size request)
                /\ 0 < n
                /\ (contains got "HTTP/1.1 200"
                    \/ contains got "HTTP/1.0 200"))
            /\ (b = true ->
                In (ESendAll fd request (str_size request) true) evs
                /\ In (ERecv fd n) evs))
    /\ (forall i,
          nets i = nets' i ->
          at_index (backend_health (manager w1)) i
          = at_index (backend_health (manager w2)) i)
    /\ length (backend_health (manager w1)) = length (backend_health (manager w))
    /\ request_count (manager w1) = request_count (manager w)
    /\ active_connections (manager w1) = active_connections (manager w)
    /\ balancer w1 = balancer w.
Proof.
  intros Hwf.
  destruct (probe_from_run nets (length (backend_servers (manager w))) 0 w)
    as (w1 & Hrun1 & _ & Hr & Ha & Hb & Hlen1 & Hflags1);
    [lia | unfold vec_size; lia | exact Hwf |].
  destruct (probe_from_run nets' (length (backend_servers (manager w))) 0 w)
    as (w2 & Hrun2 & _ & _ & _ & _ & Hlen2 & Hflags2);
    [lia | unfold vec_size; lia | exact Hwf |].
  destruct (probe_from_events nets (length (backend_servers (manager w))) 0 w)
    as (w1' & evs & Hrun1' & Ht & Hev);
    [lia | unfold vec_size; lia | exact Hwf |].
  rewrite Hrun1 in Hrun1'. injection Hrun1' as <-.
  exists w1, w2, evs.
  split; [exact Hrun1 |]. split; [exact Hrun2 |]. split; [exact Ht |].
  assert (Hin : forall k srv, backend_servers (manager w) !! k = Some srv ->
            (Z.to_nat 0 <= k < Z.to_nat 0 + length (backend_servers (manager w)))%nat).
  { intros k srv Hk. apply lookup_lt_Some in Hk. lia. }
  split; [| split; [| repeat split; assumption]].
  - intros i ip port Hsrv. cbv zeta.
    pose proof Hsrv as [Hi Hk]%at_index_Some.
    assert (Hmax : 0 <= i <= INT_MAX).
    { destruct Hwf as (_ & _ & _ & Hmax). apply lookup_lt_Some in Hk.
      unfold vec_size in Hmax. lia. }
    destruct (probe_events_verdict (nets i) i ip port Hmax) as [Hset Htrue].
    assert (Hmine : forall e, In e (probe_events (nets i) i ip port) -> In e evs).
    { intros e He. apply (Hev (Z.to_nat i) (ip, port) Hk (Hin _ _ Hk)).
      now rewrite Z2Nat.id by lia. }
    exists (probe_verdict (nets i) ip).
    split; [| split; [exact (Hmine _ Hset) | split]].
    + apply at_index_Some. split; [exact Hi |].
      rewrite (Hflags1 _ _ Hk).
      destruct (decide _) as [_ | Hno]; [| destruct (Hno (Hin _ _ Hk))].
      now rewrite Z2Nat.id by lia.
    + rewrite probe_verdict_succeeds. unfold probe_succeeds, sys_recv.
      cbv zeta. cbn [fst snd].
      rewrite (fully_sent_sends _ _ _ (str_size_nonneg _)). reflexivity.
    + intros Hyes. destruct (Htrue Hyes) as [Hsend Hrecv].
      split; [exact (Hmine _ Hsend) | exact (Hmine _ Hrecv)].
  - intros i Hsame. unfold at_index.
    destruct (Z.ltb_spec i 0) as [| Hi]; [reflexivity |].
    destruct (backend_servers (manager w) !! Z.to_nat i) as [srv |] eqn:Hsrv.
    + rewrite (Hflags1 _ _ Hsrv), (Hflags2 _ _ Hsrv).
      destruct (decide _) as [_ | _]; [| reflexivity].
      now rewrite Z2Nat.id, Hsame by lia.
    + apply lookup_ge_None in Hsrv.
      destruct Hwf as (Hh & _).
      rewrite !(proj2 (lookup_ge_None _ _)) by lia. reflexivity.
Qed.

(** ** The constructor's registry, and runs on it *)

Lemma registry_wf_new : registry_wf BackendManager_new.
Proof. unfold registry_wf, vec_size, INT_MAX. cbn. lia. Qed.

Lemma counters_in_range_new : counters_in_range BackendManager_new.
Proof.
  split; intros i x Hx; cbn in Hx;
    do 3 (destruct i as [| i]; [injection Hx as <-; unfold INT_MAX; lia |]);
    discriminate.
Qed.

Lemma handle_restores_active_witness :
  exists w' evs,
    handle length_hash (net_ok "GET / HTTP/1.1") 5 "10.0.0.1"
      (world_new ROUND_ROBIN) = Some (tt, w')
    /\ trace w' = evs
    /\ active_connections (manager w') = [0; 0; 0].
Proof.
  destruct (handle_restores_active length_hash (net_ok "GET / HTTP/1.1") 5
              "10.0.0.1" (world_new ROUND_ROBIN))
    as (w' & evs & Hrun & Htrace & Hact & _).
  - exact registry_wf_new.
  - exact counters_in_range_new.
  - exists w', evs. split; [exact Hrun |]. split; [exact Htrace |]. exact Hact.
Defined.

Lemma round_robin_cyclic_witness :
  exists rs w',
    select_each length_hash
      [(id, "10.0.0.1"); (bump_counters, "10.0.0.2");
       (id, "10.0.0.3"); (bump_counters, "10.0.0.4")]
      (world_new ROUND_ROBIN) = Some (rs, w')
    /\ rs !! 3%nat = Some 0
    /\ rr_index (balancer w') = 4.
Proof.
  destruct (round_robin_cyclic length_hash [0; 1; 2]
              [(id, "10.0.0.1"); (bump_counters, "10.0.0.2");
               (id, "10.0.0.3"); (bump_counters, "10.0.0.4")]
              (world_new ROUND_ROBIN))
    as (rs & w' & Hrun & _ & Hcur & Hcall & _).
  - exact registry_wf_new.
  - reflexivity.
  - reflexivity.
  - discriminate.
  - repeat constructor; intros m Hm; exact Hm.
  - vm_compute. split; [discriminate | reflexivity].
  - vm_compute. discriminate.
  - exists rs, w'. split; [exact Hrun |]. split; [| exact Hcur].
    destruct (Hcall 3%nat) as [_ Hthird]; [simpl; lia | exact Hthird].
Defined.



Lemma probe_cycle_sets_flags_witness :
  exists w1,
    probe_cycle (fun i => if i =? 1 then net_ok "HTTP/1.1 200 OK"
                          else net_refused) (world_new ROUND_ROBIN)
    = Some (tt, w1)
    /\ at_index (backend_health (manager w1)) 1 = Some true
    /\ In (ESendAll 7 (health_request "127.0.0.1") 60 true) (trace w1).
Proof.
  destruct (probe_cycle_sets_flags
              (fun i => if i =? 1 then net_ok "HTTP/1.1 200 OK" else net_refused)
              (fun i => net_refused) (world_new ROUND_ROBIN) registry_wf_new)
    as (w1 & w2 & evs & Hrun & _ & Ht & Hflags & _).
  exists w1. split; [exact Hrun |].
  destruct (Hflags 1 "127.0.0.1" 9002 eq_refl) as (b & Hb & _ & Hiff & Hsent).
  assert (Htrue : b = true).
  { apply Hiff.
    split; [discriminate |]. split; [discriminate |].
    split; [exists 1%nat; split; [intros j _; reflexivity
                                 | vm_compute; discriminate] |].
    split; [reflexivity |].
    left. exists ""%string, " OK"%string. reflexivity. }
  split; [now rewrite Hb, Htrue |].
  rewrite Ht. exact (proj1 (Hsent Htrue)).
Defined.


Lemma cursor_advances_in_round_robin_only_witness :
  exists r w',
    select_backend length_hash "10.0.0.1" (world_new ROUND_ROBIN) = Some (r, w')
    /\ rr_index (balancer w') = 1.
Proof.
  destruct (cursor_advances_in_round_robin_only length_hash "10.0.0.1"
              (world_new ROUND_ROBIN) registry_wf_new)
    as (r & w' & Hrun & Hrr & _).
  exists r, w'. split; [exact Hrun |].
  destruct Hrr as [Hcur _]; [reflexivity | discriminate |].
  exact Hcur.
Defined.

(** C7 fails as stated: a selection in IP_HASH mode, one in
    LEAST_CONNECTIONS mode, and one that finds no healthy backend all
    leave the cursor where it was. *)
Lemma cursor_unmoved_outside_round_robin :
  (exists r w',
     select_backend length_hash "10.0.0.1" (world_new IP_HASH) = Some (r, w')
     /\ r <> -1
     /\ rr_index (balancer w') <> rr_index (balancer (world_new IP_HASH)) + 1)
  /\ (exists r w',
        select_backend length_hash "10.0.0.1" (world_new LEAST_CONNECTIONS)
        = Some (r, w')
        /\ r <> -1
        /\ rr_index (balancer w')
           <> rr_index (balancer (world_new LEAST_CONNECTIONS)) + 1)
  /\ (exists w',
        select_backend length_hash "10.0.0.1"
          (with_manager (world_new ROUND_ROBIN)
             (with_health BackendManager_new [false; false; false]))
        = Some (-1, w')
        /\ rr_index (balancer w') <> rr_index (balancer (world_new ROUND_ROBIN)) + 1).
Proof.
  split; [| split].
  - eexists _, _. split; [vm_compute; reflexivity |].
    split; vm_compute; discriminate.
  - eexists _, _. split; [vm_compute; reflexivity |].
    split; vm_compute; discriminate.
  - eexists. split; [vm_compute; reflexivity |]. vm_compute. discriminate.
Qed.

Lemma ip_hash_deterministic_witness :
  exists r,
    select_backend length_hash "10.0.0.1" (world_new IP_HASH)
    = Some (r, world_new IP_HASH)
    /\ select_backend length_hash "10.0.0.1"
         (world_with_active IP_HASH [5; 0; 2])
       = Some (r, world_with_active IP_HASH [5; 0; 2]).
Proof.
  destruct (ip_hash_deterministic length_hash "10.0.0.1"
              (world_new IP_HASH) (world_with_active IP_HASH [5; 0; 2]))
    as (r & H1 & H2 & _).
  - reflexivity.
  - reflexivity.
  - reflexivity.
  - discriminate.
  - exists r. split; [exact H1 | exact H2].
Defined.

Lemma select_backend_frame_witness :
  exists r w',
    select_backend length_hash "10.0.0.1"
      (world_with_active LEAST_CONNECTIONS [4; 2; 2]) = Some (r, w')
    /\ active_connections (manager w') = [4; 2; 2].
Proof.
  destruct (select_backend_frame length_hash "10.0.0.1"
              (world_with_active LEAST_CONNECTIONS [4; 2; 2]))
    as (r & w' & Hrun & _ & Hact & _).
  - unfold registry_wf, vec_size, INT_MAX. cbn. lia.
  - exists r, w'. split; [exact Hrun | exact Hact].
Defined.

Lemma select_backend_in_bounds_witness :
  exists r w',
    select_backend length_hash "10.0.0.1" (world_new LEAST_CONNECTIONS)
    = Some (r, w')
    /\ 0 <= r < 3.
Proof.
  destruct (select_backend_in_bounds length_hash "10.0.0.1"
              (world_new LEAST_CONNECTIONS) registry_wf_new)
    as (r & w' & Hrun & Hcase).
  exists r, w'. split; [exact Hrun |].
  destruct Hcase as [-> | (_ & Hr & _)].
  - vm_compute in Hrun. discriminate.
  - exact Hr.
Defined.

(** ** Scenarios *)

(** Three backends, all healthy, round robin; three clients in a row, one
    request each: the backends are chosen in list order and each ends with
    one request and no connection. *)
Example three_clients_round_robin :
  exists w',
    handle_each length_hash
      [(net_ok "GET /a", 5, "10.0.0.1"); (net_ok "GET /b", 6, "10.0.0.2");
       (net_ok "GET /c", 8, "10.0.0.3")] (world_new ROUND_ROBIN)
    = Some (tt, w')
    /\ request_count (manager w') = [1; 1; 1]
    /\ active_connections (manager w') = [0; 0; 0]
    /\ List.filter is_request_event (trace w')
       = [EIncRequests 0 1; EIncRequests 1 1; EIncRequests 2 1].
Proof.
  eexists. split; [vm_compute; reflexivity |].
  repeat (split; [vm_compute; reflexivity |]). vm_compute. reflexivity.
Qed.

(** Every probe of a cycle fails: no backend is healthy afterwards and the
    next client is answered with the 503 of no backend. *)
Example all_probes_fail_then_503 :
  exists w1 w2,
    probe_cycle (fun _ => net_refused) (world_new ROUND_ROBIN) = Some (tt, w1)
    /\ healthy_snapshot w1 = []
    /\ handle length_hash (net_ok "GET /") 5 "10.0.0.1"
         (with_trace w1 []) = Some (tt, w2)
    /\ trace w2
       = [ESendAll 5 msg_no_backend (str_size msg_no_backend) true; EClose 5].
Proof.
  eexists _, _. split; [vm_compute; reflexivity |].
  split; [vm_compute; reflexivity |].
  split; [vm_compute; reflexivity |]. vm_compute. reflexivity.
Qed.

(** The client connects and sends nothing: the connection count goes up
    and back down, the request count stays. *)
Example silent_client :
  exists w',
    handle length_hash (net_quiet 5 "HTTP/1.1 200 OK") 5 "10.0.0.1"
      (world_new ROUND_ROBIN) = Some (tt, w')
    /\ manager w' = BackendManager_new
    /\ List.filter is_active_event (trace w')
       = [EIncActive 0 1; EDecActive 0 0].
Proof.
  eexists. split; [vm_compute; reflexivity |].
  repeat (split; [vm_compute; reflexivity |]). vm_compute. reflexivity.
Qed.

(** The backend takes the request and closes without a response: nothing
    is written to the client, and the request is counted. *)
Example silent_backend :
  exists w',
    handle length_hash (net_quiet 7 "GET /") 5 "10.0.0.1"
      (world_new ROUND_ROBIN) = Some (tt, w')
    /\ request_count (manager w') = [1; 0; 0]
    /\ active_connections (manager w') = [0; 0; 0]
    /\ List.filter (is_client_write 5) (trace w') = [].
Proof.
  eexists. split; [vm_compute; reflexivity |].
  repeat (split; [vm_compute; reflexivity |]). vm_compute. reflexivity.
Qed.

(** * More of the program *)

(** ** The registry's methods *)

Lemma healthy_from_sorted health : forall i,
  0 <= i -> i + vec_size health <= INT_MAX + 1 ->
  StronglySorted Z.lt (healthy_from i health).
Proof.
  induction health as [| h rest IH]; intros i Hi Hb; simpl.
  - constructor.
  - unfold vec_size in *. simpl in Hb.
    assert (Hrest : StronglySorted Z.lt (healthy_from (i + 1) rest))
      by (apply IH; lia).
    destruct h; [| exact Hrest].
    constructor; [exact Hrest |].
    rewrite int_of_size_small by lia.
    apply Forall_forall. intros x Hx.
    apply healthy_from_elem in Hx as (k & _ & ->); unfold vec_size; lia.
Qed.

Lemma healthy_snapshot_iff w x :
  registry_wf (manager w) ->
  x ∈ healthy_snapshot w
  <-> at_index (backend_health (manager w)) x = Some true.
Proof.
  intros Hwf. split; [intros Hx; now apply healthy_snapshot_elem |].
  intros [Hx Hflag]%at_index_Some.
  destruct Hwf as (Hh & _ & _ & Hmax). unfold vec_size in *.
  pose proof (lookup_lt_Some _ _ _ Hflag) as Hlt.
  unfold healthy_snapshot. apply healthy_from_elem; [lia | unfold vec_size; lia |].
  exists (Z.to_nat x). split; [exact Hflag | lia].
Qed.

(** X1.  [get_healthy_indices] returns exactly the indices whose health
    flag is set, in increasing order, and leaves the world as it was. *)
Theorem healthy_indices_exact_and_sorted w :
  registry_wf (manager w) ->
  exists l,
    get_healthy_indices w = Some (l, w)
    /\ (forall x, x ∈ l <-> at_index (backend_health (manager w)) x = Some true)
    /\ StronglySorted Z.lt l.
Proof.
  intros Hwf. exists (healthy_snapshot w). split; [reflexivity |]. split.
  - intros x. now apply healthy_snapshot_iff.
  - destruct Hwf as (Hh & _ & _ & Hmax). unfold vec_size in *.
    apply healthy_from_sorted; unfold vec_size; lia.
Qed.

Lemma healthy_indices_exact_and_sorted_witness :
  exists l,
    get_healthy_indices
      (with_manager (world_new ROUND_ROBIN)
         (with_health BackendManager_new [true; false; true]))
    = Some (l, with_manager (world_new ROUND_ROBIN)
                 (with_health BackendManager_new [true; false; true]))
    /\ StronglySorted Z.lt l.
Proof.
  destruct (healthy_indices_exact_and_sorted
              (with_manager (world_new ROUND_ROBIN)
                 (with_health BackendManager_new [true; false; true])))
    as (l & Hrun & _ & Hsorted).
  - unfold registry_wf, vec_size, INT_MAX. cbn. lia.
  - exists l. split; [exact Hrun | exact Hsorted].
Defined.

(** X2.  [set_health] on a valid index writes that one flag: afterwards
    the index is in the healthy snapshot exactly when the flag written is
    true, every other index is in the snapshot exactly when it was before,
    and the counters, the backend list and the vector sizes are
    untouched. *)
Theorem set_health_updates_snapshot w i b :
  registry_wf (manager w) ->
  0 <= i < vec_size (backend_servers (manager w)) ->
  exists w',
    set_health i b w = Some (tt, w')
    /\ registry_wf (manager w')
    /\ (i ∈ healthy_snapshot w' <-> b = true)
    /\ (forall j, j <> i ->
          (j ∈ healthy_snapshot w' <-> j ∈ healthy_snapshot w))
    /\ request_count (manager w') = request_count (manager w)
    /\ active_connections (manager w') = active_connections (manager w)
    /\ backend_servers (manager w') = backend_servers (manager w)
    /\ balancer w' = balancer w.
Proof.
  intros Hwf Hi. pose proof Hwf as (Hh & Hr & Ha & Hmax).
  unfold vec_size in *.
  destruct (at_index_in_range (backend_health (manager w)) i) as [old Hold];
    [unfold vec_size; lia |].
  eexists. split; [apply (set_health_run i b old w Hold) |].
  assert (Hwf' : registry_wf
                   (with_health (manager w)
                      (<[Z.to_nat i := b]> (backend_health (manager w))))).
  { unfold registry_wf, vec_size. cbn. rewrite length_insert. lia. }
  split; [exact Hwf' |].
  apply at_index_Some in Hold as [_ Hold].
  pose proof (lookup_lt_Some _ _ _ Hold) as Hlt.
  split; [| split; [| repeat split; reflexivity]].
  - rewrite healthy_snapshot_iff by exact Hwf'. cbn.
    rewrite at_index_Some, list_lookup_insert_eq by exact Hlt.
    split; [intros [_ H]; now injection H | intros ->; split; [lia | reflexivity]].
  - intros j Hj.
    rewrite healthy_snapshot_iff by exact Hwf'.
    rewrite healthy_snapshot_iff by exact Hwf. cbn.
    rewrite !at_index_Some.
    split; intros [H0 Hx]; (split; [exact H0 |]).
    + rewrite list_lookup_insert_ne in Hx by lia. exact Hx.
    + rewrite list_lookup_insert_ne by lia. exact Hx.
Qed.

Lemma set_health_updates_snapshot_witness :
  exists w',
    set_health 1 false (world_new ROUND_ROBIN) = Some (tt, w')
    /\ healthy_snapshot w' = [0; 2].
Proof.
  destruct (set_health_updates_snapshot (world_new ROUND_ROBIN) 1 false)
    as (w' & Hrun & _).
  - exact registry_wf_new.
  - vm_compute. split; [discriminate | reflexivity].
  - exists w'. split; [exact Hrun |].
    vm_compute in Hrun. injection Hrun as <-. reflexivity.
Defined.

(** X3.  [increment_active] followed by [decrement_active] on the same
    valid index, when the count is below [INT_MAX], gives the registry
    back as it was; in between, the one count is up by one and nothing
    else has changed. *)
Theorem increment_then_decrement_active w idx a :
  at_index (active_connections (manager w)) idx = Some a ->
  INT_MIN <= a < INT_MAX ->
  exists w1 w2,
    increment_active idx w = Some (tt, w1)
    /\ active_connections (manager w1)
       = <[Z.to_nat idx := a + 1]> (active_connections (manager w))
    /\ backend_health (manager w1) = backend_health (manager w)
    /\ request_count (manager w1) = request_count (manager w)
    /\ decrement_active idx w1 = Some (tt, w2)
    /\ manager w2 = manager w
    /\ balancer w2 = balancer w
    /\ trace w2 = trace w ++ [EIncActive idx (a + 1); EDecActive idx a].
Proof.
  intros Ha Hrange.
  eexists _, _. split; [apply (increment_active_run idx a w Ha); lia |].
  repeat (split; [reflexivity |]).
  split.
  { apply (decrement_active_run idx (a + 1)).
    - cbn. eapply at_index_insert_same. exact Ha.
    - unfold INT_MIN in *. lia. }
  cbn. apply at_index_Some in Ha as [_ Ha].
  replace (a + 1 - 1) with a by lia.
  rewrite insert_back by exact Ha.
  split; [now destruct (manager w) |]. split; [reflexivity |].
  now rewrite <- app_assoc.
Qed.

Lemma increment_then_decrement_active_witness :
  exists w1 w2,
    increment_active 2 (world_with_active ROUND_ROBIN [4; 0; 7]) = Some (tt, w1)
    /\ decrement_active 2 w1 = Some (tt, w2)
    /\ manager w2 = manager (world_with_active ROUND_ROBIN [4; 0; 7]).
Proof.
  destruct (increment_then_decrement_active
              (world_with_active ROUND_ROBIN [4; 0; 7]) 2 7)
    as (w1 & w2 & Hinc & _ & _ & _ & Hdec & Hm & _).
  - reflexivity.
  - vm_compute. split; [discriminate | reflexivity].
  - exists w1, w2. split; [exact Hinc |]. split; [exact Hdec | exact Hm].
Defined.

(** ** The selector *)

Section SelectorMore.

Variable hasher : string -> Z.

(** What the loop of [get_least_connection_backend] finds on a healthy
    snapshot with counters in range. *)
Lemma least_of_snapshot w :
  registry_wf (manager w) ->
  counters_in_range (manager w) ->
  healthy_snapshot w <> [] ->
  exists r pre post c,
    get_least_connection_backend (healthy_snapshot w) w = Some (r, w)
    /\ healthy_snapshot w = pre ++ r :: post
    /\ at_index (active_connections (manager w)) r = Some c
    /\ (forall idx c', idx ∈ healthy_snapshot w ->
          at_index (active_connections (manager w)) idx = Some c' -> c <= c')
    /\ (forall idx c', idx ∈ pre ->
          at_index (active_connections (manager w)) idx = Some c' -> c < c').
Proof.
  intros Hwf Hrange Hne.
  pose proof (healthy_candidates_in_range w Hwf) as Hin.
  destruct (least_loop_spec _ _ INT_MAX (-1) Hin) as (r & Hr & Hcase).
  destruct Hcase as [[_ Hall] | (pre & post & c & Heq & Hc & _ & Hpre & Hpost)].
  - exfalso. destruct (healthy_snapshot w) as [| h t] eqn:Hh; [congruence |].
    destruct (Hin h) as [c Hc]; [left |].
    specialize (Hall h c ltac:(left) Hc).
    apply at_index_Some in Hc as [_ Hc].
    pose proof (proj1 Hrange _ _ Hc). lia.
  - exists r, pre, post, c.
    unfold get_least_connection_backend, bind, get_manager. rewrite Hr.
    split; [reflexivity |]. split; [exact Heq |]. split; [exact Hc |].
    split; [| exact Hpre].
    intros idx c' Hidx Hc'. rewrite Heq in Hidx.
    apply elem_of_app in Hidx as [Hidx | Hidx].
    + specialize (Hpre idx c' Hidx Hc'). lia.
    + apply elem_of_cons in Hidx as [-> | Hidx]; [| eauto].
      rewrite Hc in Hc'. injection Hc' as <-. lia.
Qed.

Lemma select_backend_result ip w :
  registry_wf (manager w) ->
  counters_in_range (manager w) ->
  exists r w',
    select_backend hasher ip w = Some (r, w')
    /\ (r = -1 <-> healthy_snapshot w = [])
    /\ (r <> -1 -> r ∈ healthy_snapshot w).
Proof.
  intros Hwf Hrange.
  assert (Hpos : forall r, r ∈ healthy_snapshot w -> r <> -1).
  { intros r Hr. destruct (healthy_snapshot_elem w r Hwf Hr). lia. }
  destruct (decide (healthy_snapshot w = [])) as [Hh | Hne].
  - exists (-1), w. rewrite select_backend_empty by exact Hh.
    split; [reflexivity |]. split; [| congruence].
    split; [intros _; exact Hh | reflexivity].
  - assert (Hres : exists r w', select_backend hasher ip w = Some (r, w')
                                /\ r ∈ healthy_snapshot w).
    { destruct (algorithm (balancer w)) eqn:Halg.
      - destruct (select_backend_round_robin hasher ip w Halg Hne)
          as (r & Hr & Hrun).
        eexists _, _. split; [exact Hrun | eapply at_index_elem; exact Hr].
      - destruct (least_of_snapshot w Hwf Hrange Hne)
          as (r & pre & post & c & Hrun & Heq & _).
        exists r, w. rewrite select_backend_least by assumption.
        split; [exact Hrun |]. rewrite Heq. apply elem_of_app. right. left.
      - destruct (select_backend_ip_hash hasher ip w Halg Hne)
          as (r & Hr & Hrun).
        eexists _, _. split; [exact Hrun | eapply at_index_elem; exact Hr]. }
    destruct Hres as (r & w' & Hrun & Hin).
    exists r, w'. split; [exact Hrun |]. split; [| intros _; exact Hin].
    split; [intros ->; destruct (Hpos _ Hin eq_refl) | intros Hh; contradiction].
Qed.

Lemma no_healthy_iff w :
  registry_wf (manager w) ->
  healthy_snapshot w = []
  <-> forall i, at_index (backend_health (manager w)) i <> Some true.
Proof.
  intros Hwf. split.
  - intros Hh i Hi. apply healthy_snapshot_iff in Hi; [| exact Hwf].
    rewrite Hh in Hi. inversion Hi.
  - intros Hall. destruct (healthy_snapshot w) as [| h t] eqn:Hh;
      [reflexivity |].
    exfalso. apply (Hall h). apply healthy_snapshot_iff; [exact Hwf |].
    rewrite Hh. left.
Qed.

(** X4.  With counters in range, [select_backend] returns -1 exactly when
    no health flag is set, in every mode; any other result is a backend
    whose flag is set. *)
Theorem select_backend_none_iff_no_healthy ip w :
  registry_wf (manager w) ->
  counters_in_range (manager w) ->
  exists r w',
    select_backend hasher ip w = Some (r, w')
    /\ (r = -1 <->
        forall i, at_index (backend_health (manager w)) i <> Some true)
    /\ (r <> -1 -> at_index (backend_health (manager w)) r = Some true).
Proof.
  intros Hwf Hrange.
  destruct (select_backend_result ip w Hwf Hrange)
    as (r & w' & Hrun & Hnone & Hsome).
  exists r, w'. split; [exact Hrun |]. split.
  - rewrite Hnone. now apply no_healthy_iff.
  - intros Hr. apply healthy_snapshot_iff; [exact Hwf |]. now apply Hsome.
Qed.

(** X5.  In LEAST_CONNECTIONS mode with counters in range and a healthy
    backend, the backend chosen is healthy, no healthy backend has fewer
    active connections, and among the healthy backends with as few it has
    the lowest index.  The call changes nothing. *)
Theorem least_connections_lowest_index ip w :
  registry_wf (manager w) ->
  counters_in_range (manager w) ->
  algorithm (balancer w) = LEAST_CONNECTIONS ->
  healthy_snapshot w <> [] ->
  exists r c,
    select_backend hasher ip w = Some (r, w)
    /\ at_index (backend_health (manager w)) r = Some true
    /\ at_index (active_connections (manager w)) r = Some c
    /\ forall j cj,
         at_index (backend_health (manager w)) j = Some true ->
         at_index (active_connections (manager w)) j = Some cj ->
         c <= cj /\ (cj = c -> r <= j).
Proof.
  intros Hwf Hrange Halg Hne.
  destruct (least_of_snapshot w Hwf Hrange Hne)
    as (r & pre & post & c & Hrun & Heq & Hc & Hmin & Hpre).
  exists r, c. rewrite select_backend_least by assumption.
  split; [exact Hrun |].
  assert (Hr : r ∈ healthy_snapshot w)
    by (rewrite Heq; apply elem_of_app; right; left).
  split; [now apply healthy_snapshot_iff |]. split; [exact Hc |].
  intros j cj Hj Hcj. apply healthy_snapshot_iff in Hj; [| exact Hwf].
  split; [now apply (Hmin j cj) |].
  intros ->.
  assert (Hsorted : StronglySorted Z.lt (pre ++ r :: post)).
  { rewrite <- Heq. destruct Hwf as (Hh & _ & _ & Hmax). unfold vec_size in *.
    apply healthy_from_sorted; unfold vec_size; lia. }
  rewrite Heq in Hj. apply elem_of_app in Hj as [Hj | Hj].
  - specialize (Hpre j c Hj Hcj). lia.
  - apply elem_of_cons in Hj as [-> | Hj]; [lia |].
    apply StronglySorted_app in Hsorted as (_ & _ & Hs).
    apply StronglySorted_cons in Hs as [Hs _].
    rewrite Forall_forall in Hs. specialize (Hs j Hj). lia.
Qed.

(** X6.  Least connections keeps the load even: when the counts of the
    healthy backends are within one of each other, choosing a backend in
    LEAST_CONNECTIONS mode and opening a connection on it with
    [increment_active] leaves them within one of each other. *)
Theorem least_connections_keeps_balance ip w :
  registry_wf (manager w) ->
  counters_in_range (manager w) ->
  algorithm (balancer w) = LEAST_CONNECTIONS ->
  healthy_snapshot w <> [] ->
  balanced w ->
  exists r w',
    select_backend hasher ip w = Some (r, w)
    /\ increment_active r w = Some (tt, w')
    /\ healthy_snapshot w' = healthy_snapshot w
    /\ balanced w'.
Proof.
  intros Hwf Hrange Halg Hne Hbal.
  destruct (least_of_snapshot w Hwf Hrange Hne)
    as (r & pre & post & c & Hrun & Heq & Hc & Hmin & _).
  assert (Hr : r ∈ healthy_snapshot w)
    by (rewrite Heq; apply elem_of_app; right; left).
  assert (Hlt : c < INT_MAX).
  { apply at_index_Some in Hc as [_ Hc'].
    pose proof (proj1 Hrange _ _ Hc'). lia. }
  exists r. eexists. rewrite select_backend_least by assumption.
  split; [exact Hrun |].
  split; [apply (increment_active_run r c w Hc Hlt) |].
  split; [reflexivity |].
  assert (Hnew : forall i ci,
            at_index (<[Z.to_nat r := c + 1]> (active_connections (manager w))) i
            = Some ci ->
            (i = r /\ ci = c + 1)
            \/ (i <> r /\ at_index (active_connections (manager w)) i = Some ci)).
  { intros i ci [Hi Hl]%at_index_Some.
    apply at_index_Some in Hc as [Hr0 Hc].
    destruct (decide (i = r)) as [-> | Hir].
    - left. rewrite list_lookup_insert_eq in Hl
        by (eapply lookup_lt_Some; exact Hc).
      split; [reflexivity | congruence].
    - right. rewrite list_lookup_insert_ne in Hl by lia.
      split; [exact Hir |]. apply at_index_Some. split; assumption. }
  intros i j ci cj Hi Hj Hci Hcj.
  change (healthy_snapshot _) with (healthy_snapshot w) in Hi, Hj.
  cbn in Hci, Hcj.
  destruct (Hnew i ci Hci) as [[-> ->] | [Hir Hci']];
    destruct (Hnew j cj Hcj) as [[-> ->] | [Hjr Hcj']].
  - lia.
  - specialize (Hmin j cj Hj Hcj'). lia.
  - specialize (Hbal i r ci c Hi Hr Hci' Hc). lia.
  - exact (Hbal i j ci cj Hi Hj Hci' Hcj').
Qed.

(** X8.  When exactly one backend is healthy and its connection count is
    below [INT_MAX], every mode selects it, for every client and every
    cursor value. *)
Theorem single_healthy_backend_is_selected ip w b c :
  healthy_snapshot w = [b] ->
  at_index (active_connections (manager w)) b = Some c ->
  c < INT_MAX ->
  exists w', select_backend hasher ip w = Some (b, w').
Proof.
  intros Hh Hc Hlt.
  assert (Hne : healthy_snapshot w <> []) by (rewrite Hh; discriminate).
  destruct (algorithm (balancer w)) eqn:Halg.
  - destruct (select_backend_round_robin hasher ip w Halg Hne)
      as (r & Hr & Hrun).
    apply at_index_elem in Hr. rewrite Hh in Hr.
    apply list_elem_of_singleton in Hr as ->. eauto.
  - exists w. rewrite select_backend_least by assumption.
    unfold get_least_connection_backend, bind, get_manager. rewrite Hh.
    cbn [least_loop]. rewrite Hc.
    destruct (Z.ltb_spec c INT_MAX); [reflexivity | lia].
  - destruct (select_backend_ip_hash hasher ip w Halg Hne)
      as (r & Hr & Hrun).
    apply at_index_elem in Hr. rewrite Hh in Hr.
    apply list_elem_of_singleton in Hr as ->. eauto.
Qed.

Lemma cyclic_lookup_distinct (healthy : list Z) a (i j : nat) x :
  NoDup healthy ->
  (i < j)%nat ->
  Z.of_nat (j - i) < vec_size healthy ->
  healthy !! Z.to_nat ((a + Z.of_nat i) mod vec_size healthy) = Some x ->
  healthy !! Z.to_nat ((a + Z.of_nat j) mod vec_size healthy) = Some x ->
  False.
Proof.
  intros Hnd Hij Hwin Hi Hj.
  assert (Hk : 0 < vec_size healthy) by lia.
  pose proof (NoDup_lookup _ _ _ _ Hnd Hi Hj) as Hsame.
  set (b := a + Z.of_nat i) in *.
  replace (a + Z.of_nat j) with (b + Z.of_nat (j - i)) in Hsame by lia.
  apply (mod_shift_ne b (Z.of_nat (j - i)) (vec_size healthy)); [lia |].
  pose proof (Z.mod_pos_bound b _ Hk).
  pose proof (Z.mod_pos_bound (b + Z.of_nat (j - i)) _ Hk).
  lia.
Qed.

(** X7.  Round robin is fair: as many consecutive ROUND_ROBIN calls as
    there are healthy backends, made while the healthy snapshot stays the
    same and the cursor does not pass the top of [size_t], select every
    healthy backend exactly once. *)
Theorem round_robin_serves_each_once healthy calls w :
  registry_wf (manager w) ->
  algorithm (balancer w) = ROUND_ROBIN ->
  healthy_snapshot w = healthy ->
  healthy <> [] ->
  Forall (fun c => keeps_snapshot healthy (fst c)) calls ->
  0 <= rr_index (balancer w) < SIZE_MOD ->
  rr_index (balancer w) + Z.of_nat (length calls) <= SIZE_MOD ->
  length calls = length healthy ->
  exists rs w',
    select_each hasher calls w = Some (rs, w')
    /\ rs ≡ₚ healthy.
Proof.
  intros Hwf Halg Hsnap Hne Hkeep Hrr Hhi Hlen.
  destruct (select_each_round_robin hasher healthy calls w
              Halg Hsnap Hne Hkeep Hrr)
    as (rs & w' & Hrun & _ & _ & _ & Hlrs & Hlook).
  exists rs, w'. split; [exact Hrun |].
  assert (Hnd : NoDup healthy)
    by (rewrite <- Hsnap; now apply healthy_snapshot_NoDup).
  assert (Hcall : forall i x, rs !! i = Some x ->
            healthy !! Z.to_nat ((rr_index (balancer w) + Z.of_nat i)
                                 mod vec_size healthy) = Some x).
  { intros i x Hx. pose proof (lookup_lt_Some _ _ _ Hx) as Hi.
    destruct (Hlook i) as [_ Heq]; [lia |].
    rewrite Heq, size_wrap_small in Hx by lia. exact Hx. }
  apply submseteq_length_Permutation; [| lia].
  apply NoDup_submseteq.
  - apply NoDup_alt. intros i j x Hi Hj.
    pose proof (lookup_lt_Some _ _ _ Hi). pose proof (lookup_lt_Some _ _ _ Hj).
    destruct (Nat.lt_trichotomy i j) as [Hlt | [-> | Hgt]]; [| reflexivity |].
    + exfalso.
      apply (cyclic_lookup_distinct healthy (rr_index (balancer w)) i j x);
        auto; unfold vec_size; lia.
    + exfalso.
      apply (cyclic_lookup_distinct healthy (rr_index (balancer w)) j i x);
        auto; unfold vec_size; lia.
  - intros x [i Hx]%list_elem_of_lookup.
    apply list_elem_of_lookup. eexists. apply (Hcall i x Hx).
Qed.

End SelectorMore.

Lemma select_backend_none_iff_no_healthy_witness :
  exists w',
    select_backend length_hash "10.0.0.1"
      (with_manager (world_new LEAST_CONNECTIONS)
         (with_health BackendManager_new [false; false; false]))
    = Some (-1, w').
Proof.
  destruct (select_backend_none_iff_no_healthy length_hash "10.0.0.1"
              (with_manager (world_new LEAST_CONNECTIONS)
                 (with_health BackendManager_new [false; false; false])))
    as (r & w' & Hrun & Hnone & _).
  - unfold registry_wf, vec_size, INT_MAX. cbn. lia.
  - exact counters_in_range_new.
  - exists w'. rewrite Hrun. do 2 f_equal. apply Hnone.
    intros i Hi. apply at_index_Some in Hi as [_ Hi].
    change (backend_health _) with [false; false; false] in Hi.
    destruct (Z.to_nat i) as [| [| [| k]]]; discriminate.
Defined.

Lemma counters_in_range_small a0 a1 a2 algo :
  0 <= a0 < 100 -> 0 <= a1 < 100 -> 0 <= a2 < 100 ->
  counters_in_range (manager (world_with_active algo [a0; a1; a2])).
Proof.
  intros H0 H1 H2. unfold world_with_active.
  split; intros i x Hx; cbn in Hx;
    do 3 (destruct i as [| i];
          [cbn in Hx; injection Hx as <-; unfold INT_MAX; lia |]);
    discriminate.
Qed.

Lemma registry_wf_with_active a0 a1 a2 algo :
  registry_wf (manager (world_with_active algo [a0; a1; a2])).
Proof. unfold registry_wf, vec_size, INT_MAX. cbn. lia. Qed.

Lemma least_connections_lowest_index_witness :
  exists c,
    select_backend length_hash "10.0.0.1"
      (world_with_active LEAST_CONNECTIONS [4; 2; 2])
    = Some (1, world_with_active LEAST_CONNECTIONS [4; 2; 2])
    /\ at_index [4; 2; 2] 1 = Some c.
Proof.
  destruct (least_connections_lowest_index length_hash "10.0.0.1"
              (world_with_active LEAST_CONNECTIONS [4; 2; 2]))
    as (r & c & Hrun & _ & Hc & _).
  - apply registry_wf_with_active.
  - apply counters_in_range_small; lia.
  - reflexivity.
  - discriminate.
  - pose proof Hrun as Hr. vm_compute in Hr. injection Hr as <-.
    exists c. split; [exact Hrun | exact Hc].
Defined.

Lemma least_connections_keeps_balance_witness :
  exists r w',
    select_backend length_hash "10.0.0.1"
      (world_with_active LEAST_CONNECTIONS [1; 0; 1])
    = Some (r, world_with_active LEAST_CONNECTIONS [1; 0; 1])
    /\ increment_active r (world_with_active LEAST_CONNECTIONS [1; 0; 1])
       = Some (tt, w')
    /\ balanced w'.
Proof.
  destruct (least_connections_keeps_balance length_hash "10.0.0.1"
              (world_with_active LEAST_CONNECTIONS [1; 0; 1]))
    as (r & w' & Hrun & Hinc & _ & Hbal).
  - apply registry_wf_with_active.
  - apply counters_in_range_small; lia.
  - reflexivity.
  - discriminate.
  - intros i j ci cj Hi Hj Hci Hcj.
    change (healthy_snapshot _) with [0; 1; 2] in Hi, Hj.
    repeat (apply elem_of_cons in Hi as [-> | Hi]);
      try (inversion Hi; fail);
      repeat (apply elem_of_cons in Hj as [-> | Hj]);
      try (inversion Hj; fail);
      injection Hci as <-; injection Hcj as <-; lia.
  - exists r, w'. split; [exact Hrun |]. split; [exact Hinc | exact Hbal].
Defined.

Lemma round_robin_serves_each_once_witness :
  exists rs w',
    select_each length_hash
      [(id, "10.0.0.1"); (bump_counters, "10.0.0.2"); (id, "10.0.0.3")]
      (with_balancer (world_new ROUND_ROBIN)
         {| algorithm := ROUND_ROBIN; rr_index := 7 |})
    = Some (rs, w')
    /\ rs ≡ₚ [0; 1; 2].
Proof.
  destruct (round_robin_serves_each_once length_hash [0; 1; 2]
              [(id, "10.0.0.1"); (bump_counters, "10.0.0.2"); (id, "10.0.0.3")]
              (with_balancer (world_new ROUND_ROBIN)
                 {| algorithm := ROUND_ROBIN; rr_index := 7 |}))
    as (rs & w' & Hrun & Hperm).
  - exact registry_wf_new.
  - reflexivity.
  - reflexivity.
  - discriminate.
  - repeat constructor; intros m Hm; exact Hm.
  - vm_compute. split; [discriminate | reflexivity].
  - vm_compute. discriminate.
  - reflexivity.
  - exists rs, w'. split; [exact Hrun | exact Hperm].
Defined.

Lemma single_healthy_backend_is_selected_witness :
  exists w',
    select_backend length_hash "10.0.0.1"
      (with_manager (world_new IP_HASH)
         (with_health BackendManager_new [false; true; false]))
    = Some (1, w').
Proof.
  apply (single_healthy_backend_is_selected length_hash "10.0.0.1"
           (with_manager (world_new IP_HASH)
              (with_health BackendManager_new [false; true; false])) 1 0).
  - reflexivity.
  - reflexivity.
  - reflexivity.
Defined.

(** ** The prober *)

Lemma closed_sockets_app a b :
  closed_sockets (a ++ b) = closed_sockets a ++ closed_sockets b.
Proof.
  induction a as [| e a IH]; [reflexivity |].
  destruct e; simpl; now rewrite ?IH.
Qed.

Lemma opened_sockets_app a b :
  opened_sockets (a ++ b) = opened_sockets a ++ opened_sockets b.
Proof.
  induction a as [| e a IH]; [reflexivity |].
  destruct e; simpl; rewrite ?IH; try reflexivity.
  now destruct (ret0 =? -1).
Qed.

(** X11.  One probe closes the socket it opened exactly once, on every
    way through (connect refused, send failed, nothing read, answer
    read), closes nothing when [socket] failed, makes no call on the
    socket after closing it, and writes the health flag last. *)
Theorem probe_closes_its_socket net i w srv :
  at_index (backend_servers (manager w)) i = Some srv ->
  0 <= i <= INT_MAX ->
  is_Some (at_index (backend_health (manager w)) i) ->
  exists w' evs,
    probe_backend net i w = Some (tt, w')
    /\ trace w' = trace w ++ evs
    /\ opened_sockets evs
       = (if net_socket net =? -1 then [] else [net_socket net])
    /\ closed_sockets evs = opened_sockets evs
    /\ closed_for_good evs = true
    /\ last evs = Some (ESetHealth i (probe_verdict net (fst srv))).
Proof.
  intros Hsrv Hi [old Hold].
  eexists _, _. split; [apply (probe_backend_trace net i w srv old); assumption |].
  split; [reflexivity |].
  unfold probe_events. cbv zeta. rewrite (int_of_size_small i Hi).
  unfold probe_verdict.
  destruct (net_socket net =? -1) eqn:Hs; [cbn; rewrite Hs; auto |].
  destruct (net_connect net =? -1); cbn [negb app];
    [cbn; rewrite Hs; auto |].
  destruct (fst (send_all_from net (net_socket net)
                   (str_size (health_request (fst srv))) 0 0));
    cbn; rewrite Hs; auto.
Qed.

Lemma probe_closes_its_socket_witness :
  exists w' evs,
    probe_backend net_refused 2 (world_new ROUND_ROBIN) = Some (tt, w')
    /\ trace w' = evs
    /\ closed_sockets evs = [7].
Proof.
  destruct (probe_closes_its_socket net_refused 2 (world_new ROUND_ROBIN)
              ("127.0.0.1", 9003))
    as (w' & evs & Hrun & Ht & Hopen & Hclosed & _).
  - reflexivity.
  - vm_compute. split; discriminate.
  - eexists. reflexivity.
  - exists w', evs. split; [exact Hrun |]. split; [exact Ht |].
    rewrite Hclosed, Hopen. reflexivity.
Defined.

Lemma probe_cycle_flags nets w :
  registry_wf (manager w) ->
  exists w1,
    probe_cycle nets w = Some (tt, w1)
    /\ registry_wf (manager w1)
    /\ backend_servers (manager w1) = backend_servers (manager w)
    /\ request_count (manager w1) = request_count (manager w)
    /\ active_connections (manager w1) = active_connections (manager w)
    /\ balancer w1 = balancer w
    /\ forall (k : nat) srv,
         backend_servers (manager w) !! k = Some srv ->
         backend_health (manager w1) !! k
         = Some (probe_verdict (nets (Z.of_nat k)) (fst srv)).
Proof.
  intros Hwf.
  destruct (probe_from_run nets (length (backend_servers (manager w))) 0 w)
    as (w1 & Hrun & Hs & Hr & Ha & Hb & Hlen & Hflags);
    [lia | unfold vec_size; lia | exact Hwf |].
  exists w1. split; [exact Hrun |].
  split; [| repeat (split; [assumption |])].
  - destruct Hwf as (Hh & Hrc & Hac & Hmax).
    unfold registry_wf. rewrite Hs, Hr, Ha, Hlen. auto.
  - intros k srv Hk. rewrite (Hflags k srv Hk).
    destruct (decide _) as [_ | Hno]; [reflexivity |].
    apply lookup_lt_Some in Hk. lia.
Qed.



Section ProbeThenSelect.

Variable hasher : string -> Z.

(** X9.  The prober feeds the selector: after a probe cycle, with
    counters in range, [select_backend] returns -1 exactly when no probe
    of the cycle succeeded, and any backend it returns is one whose probe
    succeeded. *)
Theorem probe_cycle_then_select nets ip w :
  registry_wf (manager w) ->
  counters_in_range (manager w) ->
  exists w1 r w2,
    probe_cycle nets w = Some (tt, w1)
    /\ select_backend hasher ip w1 = Some (r, w2)
    /\ (r = -1 <->
        forall i srv, at_index (backend_servers (manager w)) i = Some srv ->
                      ~ probe_succeeds (nets i) (fst srv))
    /\ (r <> -1 ->
        exists srv, at_index (backend_servers (manager w)) r = Some srv
                    /\ probe_succeeds (nets r) (fst srv)).
Proof.
  intros Hwf Hrange.
  destruct (probe_cycle_flags nets w Hwf)
    as (w1 & Hrun1 & Hwf1 & Hs1 & Hr1 & Ha1 & _ & Hf1).
  assert (Hrange1 : counters_in_range (manager w1)).
  { unfold counters_in_range. rewrite Hr1, Ha1. exact Hrange. }
  destruct (select_backend_result hasher ip w1 Hwf1 Hrange1)
    as (r & w2 & Hsel & Hnone & Hsome).
  assert (Hflag : forall i,
            at_index (backend_health (manager w1)) i = Some true
            <-> exists srv, at_index (backend_servers (manager w)) i = Some srv
                            /\ probe_succeeds (nets i) (fst srv)).
  { intros i. split.
    - intros Hi. pose proof Hi as [H0 Hl]%at_index_Some.
      destruct Hwf1 as (Hh1 & _).
      pose proof (lookup_lt_Some _ _ _ Hl) as Hlt. rewrite Hh1, Hs1 in Hlt.
      destruct (lookup_lt_is_Some_2 _ _ Hlt) as [srv Hsrv].
      exists srv. split; [apply at_index_Some; split; assumption |].
      rewrite (Hf1 _ _ Hsrv), Z2Nat.id in Hl by lia.
      apply probe_verdict_succeeds. congruence.
    - intros (srv & [H0 Hsrv]%at_index_Some & Hok).
      apply at_index_Some. split; [exact H0 |].
      rewrite (Hf1 _ _ Hsrv), Z2Nat.id by lia. f_equal.
      now apply probe_verdict_succeeds. }
  exists w1, r, w2. split; [exact Hrun1 |]. split; [exact Hsel |]. split.
  - rewrite Hnone, (no_healthy_iff w1 Hwf1). split.
    + intros Hall i srv Hsrv Hok. apply (Hall i). apply Hflag. eauto.
    + intros Hall i Hi. apply Hflag in Hi as (srv & Hsrv & Hok).
      exact (Hall i srv Hsrv Hok).
  - intros Hr. apply Hflag. apply healthy_snapshot_iff; [exact Hwf1 |].
    now apply Hsome.
Qed.

End ProbeThenSelect.

Lemma probe_cycle_then_select_witness :
  exists w1 w2,
    probe_cycle (fun i => if i =? 1 then net_ok "HTTP/1.1 200 OK"
                          else net_refused) (world_new IP_HASH)
    = Some (tt, w1)
    /\ select_backend length_hash "10.0.0.1" w1 = Some (1, w2).
Proof.
  destruct (probe_cycle_then_select length_hash
              (fun i => if i =? 1 then net_ok "HTTP/1.1 200 OK"
                        else net_refused)
              "10.0.0.1" (world_new IP_HASH)
              registry_wf_new counters_in_range_new)
    as (w1 & r & w2 & Hrun & Hsel & _).
  exists w1, w2. split; [exact Hrun |].
  rewrite Hsel. vm_compute in Hrun. injection Hrun as <-.
  vm_compute in Hsel. injection Hsel as <- _. reflexivity.
Defined.

(** ** The handler *)

Section HandlerMore.

Variable hasher : string -> Z.

Lemma written_to_app fd a b :
  written_to fd (a ++ b) = written_to fd a ++ written_to fd b.
Proof.
  induction a as [| e a IH]; [reflexivity |].
  destruct e; simpl; rewrite ?IH; try reflexivity.
  now destruct (fd0 =? fd).
Qed.

Ltac split_events :=
  unfold connect_events, forward_events, sent_event; cbv zeta;
  repeat match goal with
         | |- context [if ?c then _ else _] => destruct c eqn:?
         end.

(** X12.  Every run of [handle] closes the backend socket it opened, if
    it opened one, and then the client socket, each exactly once and
    nothing else, whichever way the run ends; and it makes no call on a
    socket after closing it. *)
Theorem handle_closes_its_sockets net fd ip w :
  registry_wf (manager w) ->
  counters_in_range (manager w) ->
  fd <> net_socket net ->
  exists w' evs,
    handle hasher net fd ip w = Some (tt, w')
    /\ trace w' = trace w ++ evs
    /\ closed_sockets evs = opened_sockets evs ++ [fd]
    /\ closed_for_good evs = true.
Proof.
  intros Hwf Hrange Hfd.
  assert (Hne : (fd =? net_socket net) = false) by now apply Z.eqb_neq.
  destruct (handle_run hasher net fd ip w Hwf Hrange)
    as (idx & w1 & _ & _ & _ & Hcase).
  destruct Hcase as [[_ Hrun] |
    (_ & srv & a & c & _ & _ & _ & _ & _ & Hpath)].
  - eexists _, _. split; [exact Hrun |]. split; [reflexivity |].
    split; reflexivity.
  - destruct Hpath as [[Hfail Hrun] | [(Hs & _ & Hrun) | (Hs & _ & Hrun)]];
      (eexists _, _; split; [exact Hrun |]; split; [reflexivity |]).
    + split_events;
        try (exfalso; apply Hfail; split; apply Z.eqb_neq; assumption);
        cbn; rewrite ?Hne;
        repeat match goal with H : (_ =? _) = _ |- _ => rewrite H end;
        split; reflexivity.
    + rewrite (connect_events_succeeds _ _ _ Hs).
      destruct Hs as [Hs _]. apply Z.eqb_neq in Hs.
      split_events; cbn; rewrite ?Hne, ?Hs; split; reflexivity.
    + rewrite (connect_events_succeeds _ _ _ Hs).
      destruct Hs as [Hs _]. apply Z.eqb_neq in Hs.
      split_events; cbn; rewrite ?Hne, ?Hs; split; reflexivity.
Qed.

(** X13.  [handle] relays bytes unchanged.  Once connected, what it hands
    to [send_all] for the backend is the bytes its one read of at most
    8192 from the client returned, or nothing if that read returned none;
    what it hands to [send_all] for the client is the bytes its one read
    from the backend returned, and only if the request leg succeeded. *)
Theorem handle_relays_what_it_reads net fd ip w :
  registry_wf (manager w) ->
  counters_in_range (manager w) ->
  fd <> net_socket net ->
  exists idx w1 w' evs,
    select_backend hasher ip w = Some (idx, w1)
    /\ handle hasher net fd ip w = Some (tt, w')
    /\ trace w' = trace w ++ evs
    /\ (idx <> -1 -> connect_succeeds net ->
        let req := sys_recv net fd 8192 in
        let resp := sys_recv net (net_socket net) 8192 in
        fst req <= 8192
        /\ fst resp <= 8192
        /\ written_to (net_socket net) evs
           = (if fst req <=? 0 then [] else [bytes (snd req) (fst req)])
        /\ written_to fd evs
           = (if forward_result net fd (net_socket net)
                 && negb (fst resp <=? 0)
              then [bytes (snd resp) (fst resp)] else [])).
Proof.
  intros Hwf Hrange Hfd.
  assert (Hne : (fd =? net_socket net) = false) by now apply Z.eqb_neq.
  assert (Hne' : (net_socket net =? fd) = false) by (apply Z.eqb_neq; congruence).
  destruct (handle_run hasher net fd ip w Hwf Hrange)
    as (idx & w1 & Hsel & _ & _ & Hcase).
  exists idx, w1.
  destruct Hcase as [[-> Hrun] |
    (Hidx & srv & a & c & _ & _ & _ & _ & _ & Hpath)].
  - eexists _, _. split; [exact Hsel |]. split; [exact Hrun |].
    split; [reflexivity |]. intros Hbad. congruence.
  - destruct Hpath as [[Hfail Hrun] | [(Hs & Hleg & Hrun) | (Hs & Hleg & Hrun)]];
      (eexists _, _; split; [exact Hsel |]; split; [exact Hrun |];
       split; [reflexivity |]).
    + intros _ Hs. contradiction.
    + intros _ _. cbv zeta.
      split; [unfold sys_recv; cbn; lia |].
      split; [unfold sys_recv; cbn; lia |].
      rewrite (connect_events_succeeds _ _ _ Hs).
      assert (Hfwd : forward_result net fd (net_socket net) = false).
      { destruct (forward_result net fd (net_socket net)) eqn:E;
          [| reflexivity].
        destruct Hleg. apply forward_result_request_leg; [exact Hs |].
        now rewrite (connect_result_socket net Hs). }
      rewrite Hfwd. cbn [andb].
      unfold forward_events, sent_event. cbv zeta.
      destruct (fst (sys_recv net fd 8192) <=? 0); cbn;
        rewrite ?Hne, ?Hne', ?Z.eqb_refl; split; reflexivity.
    + intros _ _. cbv zeta.
      split; [unfold sys_recv; cbn; lia |].
      split; [unfold sys_recv; cbn; lia |].
      rewrite (connect_events_succeeds _ _ _ Hs).
      assert (Hfwd : forward_result net fd (net_socket net) = true).
      { rewrite <- (connect_result_socket net Hs).
        now apply forward_result_request_leg. }
      rewrite Hfwd. cbn [andb].
      destruct Hleg as [Hpos _].
      unfold forward_events, sent_event. cbv zeta.
      destruct (Z.leb_spec (fst (sys_recv net fd 8192)) 0); [lia |].
      destruct (fst (sys_recv net (net_socket net) 8192) <=? 0); cbn;
        rewrite ?Hne, ?Hne', ?Z.eqb_refl; cbn;
        rewrite ?Hne, ?Hne', ?Z.eqb_refl; split; reflexivity.
Qed.

End HandlerMore.

Lemma handle_closes_its_sockets_witness :
  exists w' evs,
    handle length_hash net_refused 5 "10.0.0.1" (world_new ROUND_ROBIN)
    = Some (tt, w')
    /\ trace w' = evs
    /\ closed_sockets evs = [7; 5].
Proof.
  destruct (handle_closes_its_sockets length_hash net_refused 5 "10.0.0.1"
              (world_new ROUND_ROBIN) registry_wf_new counters_in_range_new)
    as (w' & evs & Hrun & Ht & Hclosed & _).
  - discriminate.
  - exists w', evs. split; [exact Hrun |]. split; [exact Ht |].
    rewrite Hclosed. vm_compute in Hrun. injection Hrun as <-.
    simpl in Ht. subst evs. reflexivity.
Defined.

Lemma handle_relays_what_it_reads_witness :
  exists w' evs,
    handle length_hash (net_ok "GET / HTTP/1.1") 5 "10.0.0.1"
      (world_new ROUND_ROBIN) = Some (tt, w')
    /\ trace w' = evs
    /\ written_to 7 evs = ["GET / HTTP/1.1"]
    /\ written_to 5 evs = ["GET / HTTP/1.1"].
Proof.
  destruct (handle_relays_what_it_reads length_hash (net_ok "GET / HTTP/1.1")
              5 "10.0.0.1" (world_new ROUND_ROBIN)
              registry_wf_new counters_in_range_new)
    as (idx & w1 & w' & evs & Hsel & Hrun & Ht & Hrelay).
  - discriminate.
  - exists w', evs. split; [exact Hrun |]. split; [exact Ht |].
    destruct Hrelay as (_ & _ & Hb & Hc).
    + intros ->. vm_compute in Hsel. discriminate.
    + split; discriminate.
    + split; [exact Hb | exact Hc].
Defined.

Section InvariantKept.

Variable hasher : string -> Z.

(** X14.  The shape of the registry is an invariant of the program.  The
    constructor gives vectors of equal size with all counts zero; from a
    registry with vectors of equal size, connection counts in
    [0, INT_MAX) and request counts in [0, INT_MAX), every call of
    [select_backend], every run of [handle] and every probe cycle returns
    with the vector sizes kept, the connection counts in [0, INT_MAX) and
    the request counts not negative. *)
Theorem registry_shape_is_kept net nets fd ip w :
  registry_wf (manager w) ->
  counters_in_range (manager w) ->
  let kept (w' : World) :=
    registry_wf (manager w')
    /\ (forall i a, active_connections (manager w') !! i = Some a ->
          0 <= a < INT_MAX)
    /\ (forall i c, request_count (manager w') !! i = Some c -> 0 <= c) in
  kept (world_new (algorithm (balancer w)))
  /\ (exists r w', select_backend hasher ip w = Some (r, w') /\ kept w')
  /\ (exists w', handle hasher net fd ip w = Some (tt, w') /\ kept w')
  /\ (exists w', probe_cycle nets w = Some (tt, w') /\ kept w').
Proof.
  intros Hwf Hrange kept.
  assert (Hkept : forall w', registry_wf (manager w') ->
            request_count (manager w') = request_count (manager w) ->
            active_connections (manager w') = active_connections (manager w) ->
            kept w').
  { intros w' Hwf' Hr Ha. split; [exact Hwf' |]. rewrite Hr, Ha.
    split; [apply Hrange |]. intros i c Hc. now apply (proj2 Hrange i c). }
  split; [| split; [| split]].
  - split; [exact registry_wf_new |].
    split; intros i x Hx; [apply (proj1 counters_in_range_new i x Hx) |
                           apply (proj2 counters_in_range_new i x Hx)].
  - destruct (select_backend_run hasher ip w Hwf)
      as (r & w' & Hrun & Hm & _).
    exists r, w'. split; [exact Hrun |].
    apply Hkept; rewrite Hm; auto.
  - destruct (handle_run hasher net fd ip w Hwf Hrange)
      as (idx & w1 & _ & _ & _ & Hcase).
    assert (Hex : exists w', handle hasher net fd ip w = Some (tt, w')).
    { destruct Hcase as [[_ Hrun] |
        (_ & srv & a & c & _ & _ & _ & _ & _ &
         [[_ Hrun] | [(_ & _ & Hrun) | (_ & _ & Hrun)]])]; eauto. }
    destruct Hex as [w' Hrun]. exists w'. split; [exact Hrun |].
    exact (handle_keeps_registry hasher net fd ip w w' Hwf Hrange Hrun).
  - destruct (probe_cycle_flags nets w Hwf)
      as (w1 & Hrun & Hwf1 & _ & Hr & Ha & _).
    exists w1. split; [exact Hrun |]. now apply Hkept.
Qed.

End InvariantKept.

Lemma registry_shape_is_kept_witness :
  exists w',
    handle length_hash (net_ok "GET / HTTP/1.1") 5 "10.0.0.1"
      (world_with_active LEAST_CONNECTIONS [3; 1; 2]) = Some (tt, w')
    /\ registry_wf (manager w').
Proof.
  destruct (registry_shape_is_kept length_hash (net_ok "GET / HTTP/1.1")
              (fun _ => net_refused) 5 "10.0.0.1"
              (world_with_active LEAST_CONNECTIONS [3; 1; 2]))
    as (_ & _ & (w' & Hrun & Hwf & _) & _).
  - apply registry_wf_with_active.
  - apply counters_in_range_small; lia.
  - exists w'. split; [exact Hrun | exact Hwf].
Defined.

(** ** [send_all] once more *)

Lemma send_all_from_patient net fd len k sent :
  sent <= len ->
  (forall j, 0 < net_send net fd j) ->
  send_all_from net fd len k sent = (true, len).
Proof.
  funelim (send_all_from net fd len k sent); intros Hle Hpos.
  - f_equal. lia.
  - exfalso. unfold sys_send in *. specialize (Hpos k). lia.
  - apply H; [unfold sys_send; lia | exact Hpos].
Qed.

(** X15.  [send_all] copes with short writes: if no [::send] on the
    socket fails, then however few bytes each one takes, [send_all]
    returns true with all [len] bytes delivered. *)
Theorem send_all_survives_short_writes net fd buf len w :
  0 <= len ->
  (forall k, 0 < net_send net fd k) ->
  send_all net fd buf len w
  = Some (true, with_trace w (trace w ++ [ESendAll fd (bytes buf len) len true])).
Proof.
  intros Hlen Hpos. rewrite send_all_run. unfold sent_event.
  now rewrite (send_all_from_patient net fd len 0 0 Hlen Hpos).
Qed.

Lemma send_all_survives_short_writes_witness :
  send_all {| net_socket := 7; net_connect := 0;
              net_send := fun _ _ => 1; net_recv := fun _ => (0, "") |}
    5 "hello" 5 (world_new ROUND_ROBIN)
  = Some (true, with_trace (world_new ROUND_ROBIN)
                  [ESendAll 5 "hello" 5 true]).
Proof.
  apply (send_all_survives_short_writes
           {| net_socket := 7; net_connect := 0;
              net_send := fun _ _ => 1; net_recv := fun _ => (0, "") |}
           5 "hello" 5 (world_new ROUND_ROBIN)).
  - lia.
  - intros k. simpl. lia.
Defined.

(** X16.  [send_all] tells the truth about delivery: it never delivers
    more than [len] bytes, it returns true exactly when all [len] were
    delivered, it returns true at once without sending when [len] is 0,
    and when the first [::send] fails it returns false with nothing
    delivered. *)
Theorem send_all_reports_delivery net fd buf len w :
  0 <= len ->
  exists ok delivered,
    send_all net fd buf len w
    = Some (ok, with_trace w
                  (trace w ++ [ESendAll fd (bytes buf len) delivered ok]))
    /\ 0 <= delivered <= len
    /\ (ok = true <-> delivered = len)
    /\ (len = 0 -> ok = true)
    /\ (0 < len -> net_send net fd 0 <= 0 -> ok = false /\ delivered = 0).
Proof.
  intros Hlen.
  exists (fst (send_all_from net fd len 0 0)),
    (snd (send_all_from net fd len 0 0)).
  split; [apply send_all_run |].
  destruct (send_all_from_spec net fd len 0 0 Hlen) as [Hb Hiff].
  split; [exact Hb |]. split; [exact Hiff |]. split.
  - intros ->. apply Hiff. lia.
  - intros Hpos Hfail. simp send_all_from.
    destruct (Z_lt_dec 0 len) as [Hyes | Hno]; [| lia]. cbn.
    destruct (Z_le_dec (sys_send net fd 0 (len - 0)) 0) as [Hle | Hno];
      [cbn; auto |].
    exfalso. unfold sys_send in Hno. lia.
Qed.

Lemma send_all_reports_delivery_witness :
  exists ok delivered,
    send_all net_refused 5 "hello" 5 (world_new ROUND_ROBIN)
    = Some (ok, with_trace (world_new ROUND_ROBIN)
                  [ESendAll 5 "hello" delivered ok])
    /\ (ok = true <-> delivered = 5).
Proof.
  destruct (send_all_reports_delivery net_refused 5 "hello" 5
              (world_new ROUND_ROBIN))
    as (ok & delivered & Hrun & _ & Hiff & _).
  - lia.
  - exists ok, delivered. split; [exact Hrun | exact Hiff].
Defined.

(** ** [main] and the status file *)

Lemma tolower_flip_case c : tolower (flip_case c) = tolower c.
Proof. destruct c as [[] [] [] [] [] [] [] []]; reflexivity. Qed.

Lemma lowercase_recase s : forall mask,
  lowercase (recase mask s) = lowercase s.
Proof.
  induction s as [| c s IH]; intros mask; [now destruct mask |].
  destruct mask as [| b mask]; [reflexivity |].
  cbn [recase lowercase]. rewrite IH.
  destruct b; [now rewrite tolower_flip_case | reflexivity].
Qed.

(** X17.  The algorithm argument is read without regard to case and
    alone: writing any of its letters in the other case, and adding or
    changing further arguments, selects the same algorithm. *)
Theorem main_algorithm_ignores_case mask a rest rest' :
  main_algorithm (recase mask a :: rest) = main_algorithm (a :: rest').
Proof.
  unfold main_algorithm. now rewrite lowercase_recase.
Qed.

Lemma log_status_from_run m : forall servers i,
  0 <= i ->
  i + vec_size servers <= vec_size (backend_health m) ->
  i + vec_size servers <= vec_size (request_count m) ->
  i + vec_size servers <= vec_size (active_connections m) ->
  exists lines,
    log_status_from m i servers = Some lines
    /\ length lines = length servers
    /\ forall (k : nat) ip port,
         servers !! k = Some (ip, port) ->
         exists h r a,
           backend_health m !! (Z.to_nat i + k)%nat = Some h
           /\ request_count m !! (Z.to_nat i + k)%nat = Some r
           /\ active_connections m !! (Z.to_nat i + k)%nat = Some a
           /\ lines !! k = Some (status_line ip port h r a).
Proof.
  unfold vec_size.
  induction servers as [| [ip port] rest IH]; intros i Hi Hh Hr Ha.
  - exists []. repeat split. intros k ? ? Hk. discriminate.
  - cbn [length] in *. cbn [log_status_from].
    destruct (at_index_in_range (backend_health m) i) as [h Hhi];
      [unfold vec_size; lia |].
    destruct (at_index_in_range (request_count m) i) as [r Hri];
      [unfold vec_size; lia |].
    destruct (at_index_in_range (active_connections m) i) as [a Hai];
      [unfold vec_size; lia |].
    rewrite Hhi, Hri, Hai.
    destruct (IH (i + 1)) as (lines & Hrun & Hlen & Hlines); try lia.
    rewrite Hrun. eexists. split; [reflexivity |].
    split; [simpl; now rewrite Hlen |].
    apply at_index_Some in Hhi as [_ Hhi].
    apply at_index_Some in Hri as [_ Hri].
    apply at_index_Some in Hai as [_ Hai].
    intros [| k] ip' port' Hk.
    + injection Hk as <- <-. exists h, r, a. rewrite Nat.add_0_r. auto.
    + destruct (Hlines k ip' port' Hk) as (h' & r' & a' & H1 & H2 & H3 & H4).
      exists h', r', a'.
      replace (Z.to_nat i + S k)%nat with (Z.to_nat (i + 1) + k)%nat by lia.
      auto.
Qed.

(** X18.  The status file shows the probes just made.  One turn of the
    checker on a registry with vectors of equal size returns, and the
    text it streams to the status file is the header line followed by one
    line per backend, in list order, of the form
    [<ip>:<port> [healthy|unhealthy] Requests: <n> Active: <n>], where
    the word is [healthy] exactly when that backend's probe of this turn
    succeeded and the numbers are its current counts. *)
Theorem status_file_shows_latest_probes nets w :
  registry_wf (manager w) ->
  exists w' lines,
    checker_turn nets w
    = Some (("Health Status:" ++ LF ++ String.concat "" lines)%string, w')
    /\ length lines = length (backend_servers (manager w))
    /\ forall (k : nat) ip port,
         backend_servers (manager w) !! k = Some (ip, port) ->
         exists b r a,
           (b = true <-> probe_succeeds (nets (Z.of_nat k)) ip)
           /\ request_count (manager w) !! k = Some r
           /\ active_connections (manager w) !! k = Some a
           /\ lines !! k = Some (status_line ip port b r a).
Proof.
  intros Hwf.
  destruct (probe_cycle_flags nets w Hwf)
    as (w1 & Hrun & (Hh & Hr & Ha & Hmax) & Hs & Hrc & Hac & _ & Hflags).
  destruct (log_status_from_run (manager w1) (backend_servers (manager w1)) 0)
    as (lines & Hlog & Hlen & Hlines); unfold vec_size in *; try lia.
  exists w1, lines. split.
  - unfold checker_turn. rewrite (bind_Some _ _ _ _ _ Hrun).
    unfold log_status, bind, get_manager. rewrite Hlog. reflexivity.
  - split; [now rewrite Hlen, Hs |].
    intros k ip port Hk. rewrite <- Hs in Hk.
    destruct (Hlines k ip port Hk) as (h & r & a & H1 & H2 & H3 & H4).
    change (Z.to_nat 0 + k)%nat with k in H1, H2, H3. rewrite Hs in Hk.
    rewrite (Hflags k _ Hk) in H1. injection H1 as <-.
    eexists _, r, a. split; [apply probe_verdict_succeeds |].
    rewrite <- Hrc, <- Hac. auto.
Qed.

Lemma status_file_shows_latest_probes_witness :
  exists w' lines,
    checker_turn (fun i => if i =? 1 then net_ok "HTTP/1.1 200 OK"
                           else net_refused) (world_new ROUND_ROBIN)
    = Some (("Health Status:" ++ LF ++ String.concat "" lines)%string, w')
    /\ length lines = 3%nat.
Proof.
  destruct (status_file_shows_latest_probes
              (fun i => if i =? 1 then net_ok "HTTP/1.1 200 OK"
                        else net_refused)
              (world_new ROUND_ROBIN) registry_wf_new)
    as (w' & lines & Hrun & Hlen & _).
  exists w', lines. split; [exact Hrun | exact Hlen].
Defined.

(** The text of one turn, run: backend 1 answers its probe, the others
    refuse. *)
Example status_file_text :
  exists w',
    checker_turn (fun i => if i =? 1 then net_ok "HTTP/1.1 200 OK"
                           else net_refused) (world_new ROUND_ROBIN)
    = Some (("Health Status:" ++ LF
             ++ "127.0.0.1:9001 [unhealthy] Requests: 0 Active: 0" ++ LF
             ++ "127.0.0.1:9002 [healthy] Requests: 0 Active: 0" ++ LF
             ++ "127.0.0.1:9003 [unhealthy] Requests: 0 Active: 0" ++ LF)%string,
            w').
Proof. eexists. vm_compute. reflexivity. Qed.

(** ** Handlers in a row *)

Section Accounting.

Variable hasher : string -> Z.

Lemma total_insert (v : list Z) (i : nat) (c : Z) :
  v !! i = Some c -> total (<[i := c + 1]> v) = total v + 1.
Proof.
  revert i. induction v as [| x v IH]; intros [| i] Hi; try discriminate.
  - injection Hi as ->. unfold total. simpl. lia.
  - unfold total in *. simpl. rewrite (IH i Hi). lia.
Qed.

(** One run, in the terms of the count. *)
Lemma handle_counts net fd ip w :
  registry_wf (manager w) ->
  counters_in_range (manager w) ->
  exists w',
    handle hasher net fd ip w = Some (tt, w')
    /\ backend_health (manager w') = backend_health (manager w)
    /\ backend_servers (manager w') = backend_servers (manager w)
    /\ active_connections (manager w') = active_connections (manager w)
    /\ length (request_count (manager w')) = length (request_count (manager w))
    /\ (forall i c', request_count (manager w') !! i = Some c' ->
          exists c, request_count (manager w) !! i = Some c /\ c <= c' <= c + 1)
    /\ total (request_count (manager w'))
       = total (request_count (manager w))
         + (if decide (healthy_snapshot w = []) then 0
            else if relays (net, fd, ip) then 1 else 0).
Proof.
  intros Hwf Hrange.
  destruct (handle_run hasher net fd ip w Hwf Hrange)
    as (idx & w1 & Hsel & Hm & _ & Hcase).
  destruct (select_backend_result hasher ip w Hwf Hrange)
    as (r & w2 & Hsel' & Hnone & _).
  rewrite Hsel in Hsel'. injection Hsel' as <- <-.
  pose proof Hnone as Hempty.
  assert (Hsame : forall i c', request_count (manager w) !! i = Some c' ->
            exists c, request_count (manager w) !! i = Some c /\ c <= c' <= c + 1)
    by (intros i c' Hc; exists c'; split; [exact Hc | lia]).
  unfold relays. cbn [fst snd].
  destruct Hcase as [[Hidx Hrun] |
    (Hidx & srv & a & c & _ & _ & _ & Hc & _ & Hpath)].
  - exists (with_trace w1 (trace w ++ [sent_event net fd msg_no_backend
                                         (str_size msg_no_backend); EClose fd])).
    split; [exact Hrun |]. cbn [manager with_trace]. rewrite Hm.
    repeat (split; [reflexivity |]). split; [exact Hsame |].
    destruct (decide _) as [_ | Hne]; [lia |].
    destruct Hne. now apply Hempty.
  - assert (Hne : healthy_snapshot w <> [])
      by (intros Hh; apply Hidx; now apply Hempty).
    destruct (decide _) as [Hh | _]; [contradiction |].
    destruct Hpath as [[Hfail Hrun] | [(Hs & Hleg & Hrun) | (Hs & Hleg & Hrun)]].
    + eexists. split; [exact Hrun |]. cbn [manager with_trace]. rewrite Hm.
      repeat (split; [reflexivity |]). split; [exact Hsame |].
      destruct (Z.eqb_spec (connect_result net) (-1)) as [_ | Hok];
        [cbn; lia |].
      apply connect_result_succeeds in Hok. contradiction.
    + eexists. split; [exact Hrun |]. cbn [manager].
      repeat (split; [reflexivity |]). split; [exact Hsame |].
      destruct (forward_result net fd (connect_result net)) eqn:Hfwd.
      * apply forward_result_request_leg in Hfwd; [contradiction | exact Hs].
      * rewrite andb_false_r. lia.
    + eexists. split; [exact Hrun |].
      cbn [manager with_requests backend_health backend_servers
             active_connections request_count].
      repeat (split; [reflexivity |]).
      apply at_index_Some in Hc as [_ Hc].
      pose proof (lookup_lt_Some _ _ _ Hc) as Hlt.
      split; [apply length_insert |]. split.
      { intros i c' Hi. destruct (decide (Z.to_nat idx = i)) as [<- | Hd].
        - rewrite list_lookup_insert_eq in Hi by exact Hlt.
          injection Hi as <-. exists c. split; [exact Hc | lia].
        - rewrite list_lookup_insert_ne in Hi by exact Hd. now apply Hsame. }
      rewrite (total_insert _ _ _ Hc).
      assert (Hfwd : forward_result net fd (connect_result net) = true)
        by now apply forward_result_request_leg.
      rewrite Hfwd.
      destruct (Z.eqb_spec (connect_result net) (-1)) as [Hbad | _]; [| reflexivity].
      apply connect_result_succeeds in Hs. contradiction.
Qed.

(** X19.  Requests are counted once each.  After any number of handler
    runs one after another, on a registry whose request counts leave room
    for them, no connection is left counted as active, the health flags
    are as before, and the request counts have grown in total by the
    number of connections that got their request through to a backend
    (by nothing when no backend is healthy). *)
Theorem handlers_count_each_request_once conns : forall w,
  registry_wf (manager w) ->
  (forall i a, active_connections (manager w) !! i = Some a ->
     0 <= a < INT_MAX) ->
  (forall i c, request_count (manager w) !! i = Some c ->
     0 <= c /\ c + Z.of_nat (length conns) < INT_MAX) ->
  exists w',
    handle_each hasher conns w = Some (tt, w')
    /\ active_connections (manager w') = active_connections (manager w)
    /\ backend_health (manager w') = backend_health (manager w)
    /\ total (request_count (manager w'))
       = total (request_count (manager w))
         + (if decide (healthy_snapshot w = []) then 0
            else Z.of_nat (length (List.filter relays conns))).
Proof.
  induction conns as [| [[net fd] ip] rest IH]; intros w Hwf Hact Hreq.
  - exists w. split; [reflexivity |]. repeat (split; [reflexivity |]).
    destruct (decide _); simpl; lia.
  - assert (Hrange : counters_in_range (manager w)).
    { split; [exact Hact |]. intros i c Hc.
      destruct (Hreq i c Hc). cbn [length] in *. lia. }
    destruct (handle_counts net fd ip w Hwf Hrange)
      as (w1 & Hrun & Hh & Hs & Ha & Hlen & Hstep & Htot).
    destruct (IH w1) as (w' & Hrest & Ha' & Hh' & Htot').
    + destruct Hwf as (H1 & H2 & H3 & H4).
      unfold registry_wf. rewrite Hh, Hs, Ha, Hlen. auto.
    + now rewrite Ha.
    + intros i c' Hc'. destruct (Hstep i c' Hc') as (c & Hc & Hle).
      destruct (Hreq i c Hc). cbn [length] in *. lia.
    + exists w'. cbn [handle_each]. rewrite (bind_Some _ _ _ _ _ Hrun).
      split; [exact Hrest |]. split; [now rewrite Ha', Ha |].
      split; [now rewrite Hh', Hh |].
      rewrite Htot', Htot.
      assert (Hsnap : healthy_snapshot w1 = healthy_snapshot w)
        by (unfold healthy_snapshot; now rewrite Hh).
      rewrite Hsnap. cbn [List.filter].
      destruct (decide (healthy_snapshot w = [])); [lia |].
      destruct (relays (net, fd, ip)); cbn [length]; lia.
Qed.

End Accounting.

Lemma handlers_count_each_request_once_witness :
  exists w',
    handle_each length_hash
      [(net_ok "GET /a", 5, "10.0.0.1"); (net_refused, 6, "10.0.0.2");
       (net_quiet 8 "x", 8, "10.0.0.3"); (net_ok "GET /d", 9, "10.0.0.4")]
      (world_new ROUND_ROBIN) = Some (tt, w')
    /\ total (request_count (manager w')) = 2.
Proof.
  destruct (handlers_count_each_request_once length_hash
              [(net_ok "GET /a", 5, "10.0.0.1"); (net_refused, 6, "10.0.0.2");
               (net_quiet 8 "x", 8, "10.0.0.3"); (net_ok "GET /d", 9, "10.0.0.4")]
              (world_new ROUND_ROBIN) registry_wf_new)
    as (w' & Hrun & _ & _ & Htot).
  - apply counters_in_range_new.
  - intros i c Hc. cbn in Hc.
    do 3 (destruct i as [| i]; [injection Hc as <-; vm_compute; split;
                                [discriminate | reflexivity] |]).
    discriminate.
  - exists w'. split; [exact Hrun | exact Htot].
Defined.

(** * The backend server *)

Import BackendServer.

(** ** Strings *)

Lemma length_app (a b : string) :
  String.length (a ++ b) = (String.length a + String.length b)%nat.
Proof. induction a as [| c a IH]; simpl; [reflexivity | now rewrite IH]. Qed.

Lemma length_substring s : forall n m,
  (n + m <= String.length s)%nat -> String.length (substring n m s) = m.
Proof.
  induction s as [| c s IH]; intros n m Hle; simpl in Hle.
  - destruct n, m; simpl in *; try reflexivity; lia.
  - destruct n as [| n]; simpl.
    + destruct m as [| m]; simpl; [reflexivity |].
      rewrite (IH 0%nat m); [reflexivity | simpl; lia].
    + apply IH. lia.
Qed.

Lemma length_drop_chars s : forall n,
  String.length (drop_chars n s) = (String.length s - n)%nat.
Proof.
  induction s as [| c s IH]; intros [| n]; simpl; try reflexivity.
  apply IH.
Qed.

Lemma substring_drop s : forall n,
  (n <= String.length s)%nat ->
  s = (substring 0 n s ++ drop_chars n s)%string.
Proof.
  induction s as [| c s IH]; intros [| n] Hle; simpl in *;
    try reflexivity; try lia.
  f_equal. apply IH. lia.
Qed.

Lemma substring_shift s : forall n m,
  substring n m s = substring 0 m (drop_chars n s).
Proof.
  induction s as [| c s IH]; intros [| n] m; simpl; try reflexivity.
  - now destruct m.
  - apply IH.
Qed.

Lemma drop_chars_add s : forall n m,
  drop_chars m (drop_chars n s) = drop_chars (n + m) s.
Proof.
  induction s as [| c s IH]; intros [| n] m; simpl; try reflexivity.
  - now destruct m.
  - apply IH.
Qed.

(** [recv] hands over what it takes from the segments. *)
Lemma recv_total cap incoming :
  (total_bytes (snd (recv cap incoming))
   + String.length (snd (fst (recv cap incoming))))%nat
  = total_bytes incoming
  /\ (0 < fst (fst (recv cap incoming)) ->
      fst (fst (recv cap incoming))
      = str_size (snd (fst (recv cap incoming)))).
Proof.
  unfold recv. destruct incoming as [| seg rest]; simpl; [split; lia |].
  unfold str_size.
  destruct (Z.leb_spec (Z.of_nat (String.length seg)) cap) as [Hle | Hgt]; simpl.
  - split; lia.
  - destruct (Z_le_dec cap 0) as [Hneg | Hpos].
    + replace (Z.to_nat cap) with 0%nat by lia. simpl.
      split; [| lia]. now destruct seg.
    + rewrite length_drop_chars.
      rewrite length_substring by (simpl; lia). split; lia.
Qed.

Lemma read_until_headers_loop_ends fuel : forall acc headers incoming,
  (total_bytes incoming < fuel)%nat ->
  exists b h rest,
    read_until_headers_loop fuel acc headers incoming = Some (b, h, rest)
    /\ (total_bytes rest <= total_bytes incoming)%nat
    /\ (b = true -> (total_bytes rest < total_bytes incoming)%nat).
Proof.
  induction fuel as [| fuel IH]; intros acc headers incoming Hfuel; [lia |].
  cbn [read_until_headers_loop]. cbv zeta.
  destruct (recv_total 1024 incoming) as [Htot Hsize].
  destruct (Z.leb_spec (fst (fst (recv 1024 incoming))) 0) as [Hle | Hgt].
  - eexists _, _, _. split; [reflexivity |]. split; [lia | discriminate].
  - specialize (Hsize Hgt). unfold str_size in Hsize.
    destruct (negb _).
    + eexists _, _, _. split; [reflexivity |]. split; lia.
    + destruct (64 * 1024 <? _).
      * eexists _, _, _. split; [reflexivity |]. split; [lia | discriminate].
      * destruct (IH (acc ++ snd (fst (recv 1024 incoming)))%string headers
                    (snd (recv 1024 incoming))) as (b & h & rest & Heq & Hle & Hlt);
          [lia |].
        exists b, h, rest. split; [exact Heq |]. split; [lia |].
        intros Hb. specialize (Hlt Hb). lia.
Qed.

Lemma read_n_loop_ends fuel : forall n total out incoming,
  (total_bytes incoming < fuel)%nat ->
  exists b o rest,
    read_n_loop fuel n total out incoming = Some (b, o, rest)
    /\ (total_bytes rest <= total_bytes incoming)%nat.
Proof.
  induction fuel as [| fuel IH]; intros n total out incoming Hfuel; [lia |].
  cbn [read_n_loop]. cbv zeta.
  destruct (total <? n); [| eexists _, _, _; split; [reflexivity | lia]].
  destruct (recv_total (Z.min 4096 (n - total)) incoming) as [Htot Hsize].
  destruct (Z.leb_spec (fst (fst (recv (Z.min 4096 (n - total)) incoming))) 0)
    as [Hle | Hgt].
  - eexists _, _, _. split; [reflexivity | lia].
  - specialize (Hsize Hgt). unfold str_size in Hsize.
    edestruct IH as (b & o & rest & Heq & Hle); [| rewrite Heq].
    2: { exists b, o, rest. split; [reflexivity | lia]. }
    lia.
Qed.

Lemma handle_client_loop_bound fuel : forall port sends j incoming sent,
  (total_bytes incoming < fuel)%nat ->
  exists o,
    handle_client_loop fuel port sends j incoming sent = Some o
    /\ forall out, o = Ok out ->
         (length sent <= length out <= length sent + total_bytes incoming)%nat.
Proof.
  induction fuel as [| fuel IH]; intros port sends j incoming sent Hfuel; [lia |].
  cbn [handle_client_loop].
  assert (Hstop : exists o,
             Some (Ok sent) = Some o
             /\ forall out, o = Ok out ->
                  (length sent <= length out
                   <= length sent + total_bytes incoming)%nat).
  { exists (Ok sent). split; [reflexivity |]. intros out [= <-]. lia. }
  destruct (read_until_headers_loop_ends (S (total_bytes incoming)) "" ""
              incoming) as (b & buf & rest & Heq & Hle & Hlt); [lia |].
  unfold read_until_headers. rewrite Heq.
  destruct b; [| exact Hstop]. specialize (Hlt eq_refl).
  destruct (parse_request_from_buffer buf Request_new 0)
    as [[[complete req] consumed] |];
    [| exists Throws; split; [reflexivity | discriminate]].
  cbv zeta.
  set (need := if complete then 0 else _).
  assert (Hrest : exists b' more rest',
             (if 0 <? need then read_n "" need rest
              else Some (true, "", rest)) = Some (b', more, rest')
             /\ (total_bytes rest' <= total_bytes rest)%nat).
  { destruct (0 <? need).
    - apply read_n_loop_ends. lia.
    - eexists _, _, _. split; [reflexivity | lia]. }
  destruct Hrest as (b' & more & rest' & -> & Hle').
  destruct b'; [| exact Hstop].
  cbn [method path keep_alive].
  assert (Hone : forall a, exists o,
             Some (Ok (sent ++ [a])) = Some o
             /\ forall out, o = Ok out ->
                  (length sent <= length out
                   <= length sent + total_bytes incoming)%nat).
  { intros a. exists (Ok (sent ++ [a])). split; [reflexivity |].
    intros out [= <-]. rewrite List.length_app. simpl. lia. }
  destruct (_ && _); [apply Hone |].
  destruct (negb (snd _)); [apply Hone |].
  destruct (negb (keep_alive req)); [apply Hone |].
  match goal with
  | |- context [handle_client_loop fuel port sends (S j) rest' ?s] =>
      destruct (IH port sends (S j) rest' s) as (o & Hrun & Hout); [lia |]
  end.
  exists o. split; [exact Hrun |].
  intros out Ho. specialize (Hout out Ho).
  rewrite List.length_app in Hout. simpl in Hout. lia.
Qed.


Lemma string_app_assoc (a b c : string) :
  ((a ++ b) ++ c = a ++ (b ++ c))%string.
Proof. induction a as [| x a IH]; simpl; [reflexivity | now rewrite IH]. Qed.

Lemma string_app_nil_r (a : string) : (a ++ "")%string = a.
Proof. induction a as [| x a IH]; simpl; [reflexivity | now rewrite IH]. Qed.

Lemma substring_app a b : substring 0 (String.length a) (a ++ b) = a.
Proof. induction a as [| x a IH]; simpl; [now destruct b | now rewrite IH]. Qed.

Lemma drop_chars_app a b : drop_chars (String.length a) (a ++ b) = b.
Proof. induction a as [| x a IH]; simpl; [reflexivity | exact IH]. Qed.

(** What [find_from] returns is the first place where [pat] occurs. *)
Lemma find_from_first pat s : forall pos q,
  find_from pat s pos = Some q ->
  exists pre post,
    s = (pre ++ pat ++ post)%string
    /\ q = (pos + String.length pre)%nat
    /\ forall pre' post', s = (pre' ++ pat ++ post')%string ->
         (String.length pre <= String.length pre')%nat.
Proof.
  induction s as [| c s IH]; intros pos q; cbn [find_from].
  - destruct (String.prefix pat "") eqn:Hp; [| discriminate].
    intros [= <-]. apply prefix_app in Hp as [post Hp].
    exists "", post. split; [exact Hp |]. split; [simpl; lia |].
    intros pre' post' _. simpl. lia.
  - destruct (String.prefix pat (String c s)) eqn:Hp.
    + intros [= <-]. apply prefix_app in Hp as [post Hp].
      exists "", post. split; [exact Hp |]. split; [simpl; lia |].
      intros pre' post' _. simpl. lia.
    + intros Hq. destruct (IH _ _ Hq) as (pre & post & -> & -> & Hmin).
      exists (String c pre), post. split; [reflexivity |].
      split; [simpl; lia |].
      intros pre' post' Heq. destruct pre' as [| c' pre']; simpl in Heq.
      * assert (String.prefix pat (String c (pre ++ pat ++ post)) = true)
          by (apply prefix_app; eauto).
        congruence.
      * injection Heq as _ Heq. simpl. specialize (Hmin _ _ Heq). lia.
Qed.

Lemma str_find_0 s pat :
  str_find s pat 0
  = match find_from pat s 0 with
    | Some q => Z.of_nat q
    | None => NPOS
    end.
Proof.
  unfold str_find, str_size.
  destruct (Z.ltb_spec (Z.of_nat (String.length s)) 0); [lia | reflexivity].
Qed.

(** [s.find(pat)] on a string of ordinary size: [npos], or the first
    place where [pat] occurs. *)
Lemma str_find_found s pat :
  str_size s < NPOS ->
  str_find s pat 0 <> NPOS ->
  exists pre post,
    s = (pre ++ pat ++ post)%string
    /\ str_find s pat 0 = str_size pre
    /\ forall pre' post', s = (pre' ++ pat ++ post')%string ->
         (String.length pre <= String.length pre')%nat.
Proof.
  intros Hsize. rewrite str_find_0.
  destruct (find_from pat s 0) as [q |] eqn:Hq; [intros _ | congruence].
  destruct (find_from_first _ _ _ _ Hq) as (pre & post & Hs & -> & Hmin).
  exists pre, post. split; [exact Hs |]. split; [reflexivity | exact Hmin].
Qed.

Lemma substr_0 s n :
  0 <= n <= str_size s ->
  substr s 0 n = Ok (substring 0 (Z.to_nat n) s).
Proof.
  intros Hn. unfold substr.
  destruct (Z.ltb_spec (str_size s) 0) as [Hlt | _]; [lia |].
  do 2 f_equal. lia.
Qed.

Lemma str_size_app a b : str_size (a ++ b) = str_size a + str_size b.
Proof. unfold str_size. rewrite length_app. lia. Qed.

(** The shape of a buffer whose header block is complete, and what the parser takes from it. *)
Lemma parse_layout buf req consumed b req' consumed' :
  str_size buf <= INT_MAX ->
  parse_request_from_buffer buf req consumed = Ok (b, req', consumed') ->
  (b = true \/ content_length req < content_length req') ->
  exists pre post,
    buf = (pre ++ (CRLF ++ CRLF) ++ post)%string
    /\ headers_raw req' = (pre ++ CRLF ++ CRLF)%string
    /\ (if b
        then 0 <= content_length req' <= str_size post
             /\ body req' = substring 0 (Z.to_nat (content_length req')) post
        else str_size post < content_length req' /\ body req' = post)
    /\ consumed' = str_size (headers_raw req') + str_size (body req').
Proof.
  intros Hsize Hparse Hcase.
  unfold parse_request_from_buffer in Hparse. cbv zeta in Hparse.
  destruct (Z.eqb_spec (str_find buf (CRLF ++ CRLF) 0) NPOS) as [| Hhdr];
    [injection Hparse as <- <- _; destruct Hcase; [discriminate | lia] |].
  assert (Hnpos : str_size buf < NPOS) by (unfold NPOS, SIZE_MOD, INT_MAX in *; lia).
  destruct (str_find_found buf (CRLF ++ CRLF) Hnpos Hhdr)
    as (pre & post & Hbuf & Hpos & _).
  rewrite Hpos in Hparse. clear Hhdr Hpos.
  assert (Hlen : str_size buf = str_size pre + 4 + str_size post).
  { rewrite Hbuf, !str_size_app. change (str_size CRLF) with 2. lia. }
  pose proof (str_size_nonneg pre) as Hpre.
  pose proof (str_size_nonneg post) as Hpost.
  destruct (str_find buf CRLF 0 =? NPOS);
    [injection Hparse as <- <- _; destruct Hcase; [discriminate | lia] |].
  destruct (substr buf 0 (str_find buf CRLF 0)) as [start_line |];
    cbn [and_then] in Hparse; [| discriminate].
  rewrite (size_wrap_small (str_size pre + 4)) in Hparse
    by (unfold SIZE_MOD, INT_MAX in *; lia).
  rewrite (substr_0 buf (str_size pre + 4)) in Hparse by lia.
  cbn [and_then] in Hparse.
  replace (substring 0 (Z.to_nat (str_size pre + 4)) buf)
    with (pre ++ CRLF ++ CRLF)%string in Hparse.
  2: { rewrite Hbuf, <- (string_app_assoc pre (CRLF ++ CRLF) post).
       replace (Z.to_nat (str_size pre + 4))
         with (String.length (pre ++ CRLF ++ CRLF)).
       - now rewrite substring_app.
       - rewrite length_app. unfold str_size. simpl. lia. }
  destruct (_ || _);
    [injection Hparse as <- <- _; destruct Hcase; [discriminate | simpl in *; lia] |].
  destruct (substr start_line 0 _) as [m |]; cbn [and_then] in Hparse;
    [| discriminate].
  destruct (substr start_line _ _) as [p |]; cbn [and_then] in Hparse;
    [| discriminate].
  destruct (read_content_length _) as [len |]; cbn [and_then] in Hparse;
    [| discriminate].
  assert (Halready :
            (if str_size pre + 4 <? str_size buf
             then str_size buf - (str_size pre + 4) else 0) = str_size post).
  { destruct (Z.ltb_spec (str_size pre + 4) (str_size buf)); lia. }
  rewrite Halready in Hparse.
  rewrite (int_of_size_small (str_size post)) in Hparse by lia.
  assert (Hdrop : drop_chars (Z.to_nat (str_size pre + 4)) buf = post).
  { rewrite Hbuf, <- (string_app_assoc pre (CRLF ++ CRLF) post).
    replace (Z.to_nat (str_size pre + 4))
      with (String.length (pre ++ CRLF ++ CRLF)).
    - apply drop_chars_app.
    - rewrite length_app. unfold str_size. simpl. lia. }
  exists pre, post.
  destruct (Z.leb_spec len (str_size post)) as [Hle | Hgt].
  - destruct (Z.ltb_spec len 0) as [| Hlen0]; [discriminate |].
    injection Hparse as <- <- <-. cbn [headers_raw body content_length].
    rewrite substring_shift, Hdrop.
    split; [exact Hbuf |]. split; [reflexivity |].
    split; [split; [lia | reflexivity] |].
    rewrite size_wrap_small by (unfold SIZE_MOD, INT_MAX in *; lia).
    unfold str_size in *. rewrite length_app, length_substring by lia.
    simpl String.length. lia.
  - injection Hparse as <- <- <-. cbn [headers_raw body content_length].
    rewrite substring_shift, Hdrop.
    change (substring 0 (Z.to_nat (str_size post)) post)
      with (bytes post (str_size post)).
    rewrite bytes_whole.
    split; [exact Hbuf |]. split; [reflexivity |].
    split; [split; [lia | reflexivity] |].
    rewrite size_wrap_small by (unfold SIZE_MOD, INT_MAX in *; lia).
    unfold str_size in *. rewrite length_app. simpl String.length. lia.
Qed.

Lemma clash_prefix pat : forall s rest,
  clash pat s = true -> String.prefix pat (s ++ rest) = false.
Proof.
  induction pat as [| a pat IH]; intros [| b s] rest; simpl; try discriminate.
  destruct (ascii_dec a b) as [-> | Hne].
  - rewrite Ascii.eqb_refl. apply IH.
  - reflexivity.
Qed.

Lemma find_from_all_clash pat a rest : forall pos,
  all_clash pat a = true ->
  find_from pat (a ++ rest) pos = find_from pat rest (pos + String.length a).
Proof.
  induction a as [| c a IH]; intros pos Hall.
  - simpl. f_equal. lia.
  - cbn [all_clash] in Hall. apply andb_true_iff in Hall as [Hc Ha].
    pose proof (clash_prefix pat (String c a) rest Hc) as Hp.
    cbn [append] in Hp |- *. cbn [find_from]. rewrite Hp.
    rewrite IH by exact Ha. f_equal. simpl. lia.
Qed.

Lemma find_from_shift pat s : forall pos,
  find_from pat s pos
  = match find_from pat s 0 with
    | Some q => Some (pos + q)%nat
    | None => None
    end.
Proof.
  induction s as [| c s IH]; intros pos; cbn [find_from].
  - destruct (String.prefix pat ""); [f_equal; lia | reflexivity].
  - destruct (String.prefix pat (String c s)); [f_equal; lia |].
    rewrite (IH (S pos)), (IH 1%nat).
    destruct (find_from pat s 0); [f_equal; lia | reflexivity].
Qed.

Lemma tolower_cr c :
  (nat_of_ascii (tolower c) =? 13)%nat = (nat_of_ascii c =? 13)%nat.
Proof.
  unfold tolower.
  destruct ((65 <=? nat_of_ascii c)%nat && (nat_of_ascii c <=? 90)%nat) eqn:Hup;
    [| reflexivity].
  apply andb_true_iff in Hup as [H1%Nat.leb_le H2%Nat.leb_le].
  rewrite nat_ascii_embedding by lia.
  destruct (Nat.eqb_spec (nat_of_ascii c + 32) 13),
    (Nat.eqb_spec (nat_of_ascii c) 13); try reflexivity; lia.
Qed.

Lemma no_cr_lowercase s : no_cr (lowercase s) = no_cr s.
Proof.
  induction s as [| c s IH]; [reflexivity |].
  cbn [lowercase no_cr]. now rewrite tolower_cr, IH.
Qed.

Lemma no_cr_all_clash pat s :
  no_cr s = true -> all_clash (String (ascii_of_nat 13) pat) s = true.
Proof.
  induction s as [| c s IH]; [reflexivity |].
  cbn [no_cr all_clash clash].
  intros [Hc Hs]%andb_true_iff. rewrite (IH Hs), andb_true_r.
  destruct (Ascii.eqb_spec (ascii_of_nat 13) c) as [<- | _];
    [discriminate Hc | reflexivity].
Qed.

Lemma lowercase_app a b :
  lowercase (a ++ b) = (lowercase a ++ lowercase b)%string.
Proof. induction a as [| c a IH]; simpl; [reflexivity | now rewrite IH]. Qed.

Lemma length_lowercase s : String.length (lowercase s) = String.length s.
Proof. induction s as [| c s IH]; simpl; [reflexivity | now rewrite IH]. Qed.

Lemma substring_none s : forall n, substring n 0 s = "".
Proof. induction s as [| c s IH]; intros [| n]; simpl; auto. Qed.

Lemma health_request_size ip : str_size (health_request ip) = 51 + str_size ip.
Proof.
  unfold health_request, str_size. rewrite !length_app. simpl String.length. lia.
Qed.

(** Where the patterns of the parser lie in the probe's request. *)
Lemma health_request_finds ip :
  no_cr ip = true ->
  find_from CRLF (health_request ip) 0 = Some 20%nat
  /\ find_from (CRLF ++ CRLF) (health_request ip) 0
     = Some (47 + String.length ip)%nat
  /\ find_from key_content_length (lowercase (health_request ip)) 0 = None
  /\ find_from key_keep_alive (lowercase (health_request ip)) 0 = None.
Proof.
  intros Hip. unfold health_request.
  split; [| split; [| split]].
  - rewrite find_from_all_clash by (vm_compute; reflexivity). reflexivity.
  - rewrite find_from_all_clash by (vm_compute; reflexivity).
    change (find_from (CRLF ++ CRLF) (CRLF ++ "Host: " ++ ip ++ CRLF ++ "Connection: close" ++ CRLF ++ CRLF) (0 + String.length "GET /health HTTP/1.1"))
      with (find_from (CRLF ++ CRLF) ("Host: " ++ ip ++ CRLF ++ "Connection: close" ++ CRLF ++ CRLF) 22).
    rewrite find_from_all_clash by (vm_compute; reflexivity).
    rewrite find_from_all_clash by (apply no_cr_all_clash, Hip).
    rewrite find_from_shift.
    change (find_from (CRLF ++ CRLF) (CRLF ++ "Connection: close" ++ CRLF ++ CRLF) 0)
      with (Some 19%nat).
    f_equal. simpl String.length. lia.
  - rewrite !lowercase_app.
    rewrite find_from_all_clash by (vm_compute; reflexivity).
    rewrite <- (string_app_assoc (lowercase CRLF) (lowercase "Host: ")).
    rewrite find_from_all_clash by (vm_compute; reflexivity).
    rewrite find_from_all_clash
      by (apply no_cr_all_clash; now rewrite no_cr_lowercase).
    rewrite find_from_shift. reflexivity.
  - rewrite !lowercase_app.
    rewrite find_from_all_clash by (vm_compute; reflexivity).
    rewrite <- (string_app_assoc (lowercase CRLF) (lowercase "Host: ")).
    rewrite find_from_all_clash by (vm_compute; reflexivity).
    rewrite find_from_all_clash
      by (apply no_cr_all_clash; now rewrite no_cr_lowercase).
    rewrite find_from_shift. reflexivity.
Qed.

Lemma parse_health_request ip req consumed :
  no_cr ip = true ->
  str_size ip <= INT_MAX ->
  parse_request_from_buffer (health_request ip) req consumed
  = Ok (true,
        {| method := "GET"; path := "/health";
           headers_raw := health_request ip; body := "";
           content_length := 0; keep_alive := false |},
        str_size (health_request ip)).
Proof.
  intros Hip Hsize.
  destruct (health_request_finds ip Hip) as (Heol & Hhdr & Hcl & Hka).
  pose proof (health_request_size ip) as HR.
  pose proof (str_size_nonneg ip) as Hnn.
  assert (Hf1 : str_find (health_request ip) (CRLF ++ CRLF) 0
                = 47 + str_size ip)
    by (rewrite str_find_0, Hhdr; unfold str_size; lia).
  assert (Hf2 : str_find (health_request ip) CRLF 0 = 20)
    by (rewrite str_find_0, Heol; reflexivity).
  assert (Hsl : substr (health_request ip) 0 20 = Ok "GET /health HTTP/1.1").
  { rewrite substr_0 by lia. reflexivity. }
  assert (Hhd : substr (health_request ip) 0 (47 + str_size ip + 4)
                = Ok (health_request ip)).
  { rewrite substr_0 by lia. f_equal.
    replace (47 + str_size ip + 4) with (str_size (health_request ip)) by lia.
    apply bytes_whole. }
  assert (Hlen : read_content_length (lowercase (health_request ip)) = Ok 0).
  { unfold read_content_length. now rewrite str_find_0, Hcl. }
  unfold parse_request_from_buffer. rewrite Hf1, Hf2. cbv zeta.
  destruct (Z.eqb_spec (47 + str_size ip) NPOS) as [Heq | _];
    [unfold NPOS, SIZE_MOD, INT_MAX in *; lia |].
  change (20 =? NPOS) with false. cbv iota. rewrite Hsl. cbn [and_then].
  rewrite (size_wrap_small (47 + str_size ip + 4))
    by (unfold SIZE_MOD, INT_MAX in *; lia).
  rewrite Hhd. cbn [and_then].
  change (str_find "GET /health HTTP/1.1" " " 0) with 3.
  change (3 =? NPOS) with false. cbv iota.
  change (size_wrap (3 + 1)) with 4.
  change (str_find "GET /health HTTP/1.1" " " 4) with 11.
  change (false || (11 =? NPOS)) with false. cbv iota.
  change (substr "GET /health HTTP/1.1" 0 3) with (Ok "GET").
  cbn [and_then].
  change (substr "GET /health HTTP/1.1" 4 (size_wrap (11 - (3 + 1))))
    with (Ok "/health").
  cbn [and_then]. rewrite Hlen. cbn [and_then].
  rewrite str_find_0, Hka. change (negb (NPOS =? NPOS)) with false.
  destruct (Z.ltb_spec (47 + str_size ip + 4) (str_size (health_request ip)))
    as [Hlt | _]; [lia |].
  change (int_of_size 0) with 0. change (0 <=? 0) with true.
  change (0 <? 0) with false. cbv iota.
  rewrite substring_none.
  rewrite size_wrap_small by (unfold SIZE_MOD, INT_MAX in *; lia).
  do 2 f_equal. lia.
Qed.

Lemma string_eqb_nil s : (s =? "")%string = false -> (0 < String.length s)%nat.
Proof. destruct s; [discriminate | simpl; lia]. Qed.

Lemma nonempty_joined incoming :
  nonempty_segments incoming = true ->
  joined incoming = "" -> incoming = [].
Proof.
  destruct incoming as [| seg rest]; [reflexivity |].
  cbn [nonempty_segments forallb joined fold_right].
  intros [Hseg _]%andb_true_iff Hj.
  apply negb_true_iff, string_eqb_nil in Hseg.
  apply (f_equal String.length) in Hj. rewrite length_app in Hj.
  simpl in Hj. lia.
Qed.

(** One [::recv] while bytes are left: it brings some, in order. *)
Lemma recv_segment cap incoming :
  0 < cap ->
  nonempty_segments incoming = true ->
  incoming <> [] ->
  0 < fst (fst (recv cap incoming))
  /\ (snd (fst (recv cap incoming)) ++ joined (snd (recv cap incoming)))%string
     = joined incoming
  /\ nonempty_segments (snd (recv cap incoming)) = true
  /\ (total_bytes (snd (recv cap incoming)) < total_bytes incoming)%nat.
Proof.
  intros Hcap Hne Hin. destruct incoming as [| seg rest]; [congruence |].
  cbn [nonempty_segments forallb] in Hne.
  apply andb_true_iff in Hne as [Hseg Hrest].
  apply negb_true_iff, string_eqb_nil in Hseg.
  unfold recv, str_size.
  destruct (Z.leb_spec (Z.of_nat (String.length seg)) cap) as [Hle | Hgt];
    cbn [fst snd joined fold_right total_bytes].
  - split; [lia |]. split; [reflexivity |]. split; [exact Hrest | lia].
  - split; [lia |]. split; [| split].
    + rewrite <- string_app_assoc. f_equal. symmetry.
      apply substring_drop. lia.
    + cbn [nonempty_segments forallb]. rewrite Hrest, andb_true_r.
      apply negb_true_iff.
      destruct (drop_chars (Z.to_nat cap) seg) eqn:Hd; [| reflexivity].
      apply (f_equal String.length) in Hd. rewrite length_drop_chars in Hd.
      simpl in Hd. lia.
    + rewrite length_drop_chars. lia.
Qed.

(** A request whose only blank line is its end is read whole, however it
    is cut into segments. *)
Lemma read_until_headers_whole request headers fuel : forall acc incoming,
  find_from (CRLF ++ CRLF) request 0 = Some (String.length request - 4)%nat ->
  4 <= str_size request <= 64 * 1024 ->
  (acc ++ joined incoming)%string = request ->
  nonempty_segments incoming = true ->
  incoming <> [] ->
  (total_bytes incoming < fuel)%nat ->
  read_until_headers_loop fuel acc headers incoming = Some (true, request, []).
Proof.
  intros acc incoming Hfind Hsize.
  revert acc incoming.
  induction fuel as [| fuel IH]; intros acc incoming Hreq Hne Hin Hfuel; [lia |].
  cbn [read_until_headers_loop]. cbv zeta.
  destruct (recv_segment 1024 incoming) as (Hr & Hjoin & Hne' & Htot);
    [lia | exact Hne | exact Hin |].
  destruct (Z.leb_spec (fst (fst (recv 1024 incoming))) 0) as [| _]; [lia |].
  set (data := snd (fst (recv 1024 incoming))) in *.
  set (rest := snd (recv 1024 incoming)) in *.
  assert (Hreq' : ((acc ++ data) ++ joined rest)%string = request)
    by (now rewrite string_app_assoc, Hjoin).
  destruct (decide (rest = [])) as [Hnil | Hmore].
  - rewrite Hnil in Hreq' |- *. cbn [joined fold_right] in Hreq'.
    rewrite string_app_nil_r in Hreq'. rewrite Hreq'.
    rewrite str_find_0, Hfind.
    destruct (Z.eqb_spec (Z.of_nat (String.length request - 4)) NPOS) as [Heq | _];
      [unfold NPOS, SIZE_MOD, str_size in *; lia | reflexivity].
  - assert (Htail : (0 < String.length (joined rest))%nat).
    { destruct (joined rest) eqn:Hj; [| simpl; lia].
      now apply nonempty_joined in Hj. }
    assert (Hlen : String.length request
                   = (String.length (acc ++ data)
                      + String.length (joined rest))%nat)
      by (now rewrite <- Hreq', length_app).
    assert (Hnone : str_find (acc ++ data) (CRLF ++ CRLF) 0 = NPOS).
    { rewrite str_find_0.
      destruct (find_from (CRLF ++ CRLF) (acc ++ data) 0) as [q |] eqn:Hq;
        [exfalso | reflexivity].
      destruct (find_from_first _ _ _ _ Hq) as (pre & post & Hs & _ & _).
      destruct (find_from_first _ _ _ _ Hfind) as (pre0 & post0 & Hs0 & Hq0 & Hmin).
      specialize (Hmin pre (post ++ joined rest)%string).
      rewrite <- Hreq', Hs, !string_app_assoc in Hmin.
      specialize (Hmin eq_refl).
      rewrite Hs, !length_app in Hlen. simpl String.length in Hlen. lia. }
    rewrite Hnone. change (negb (NPOS =? NPOS)) with false. cbv iota.
    destruct (Z.ltb_spec (64 * 1024) (str_size (acc ++ data))) as [Hbig | _];
      [unfold str_size in *; lia |].
    apply IH; [exact Hreq' | exact Hne' | exact Hmore | lia].
Qed.

(** X24.  The balancer's health probe, sent to this server: whatever
    host name it carries (without a carriage return), and however the
    network cuts it into segments, the server answers it with the one
    fixed 200 response of the health route and closes the connection. *)
Theorem backend_answers_health_probe ip port sends incoming :
  no_cr ip = true ->
  str_size (health_request ip) <= 64 * 1024 ->
  joined incoming = health_request ip ->
  nonempty_segments incoming = true ->
  handle_client port sends incoming
  = Some (Ok [answer sends 0 health_response]).
Proof.
  intros Hip Hsize Hjoin Hne.
  pose proof (health_request_size ip) as HR.
  pose proof (str_size_nonneg ip) as Hnn.
  assert (Hin : incoming <> []).
  { intros ->. cbn [joined fold_right] in Hjoin.
    apply (f_equal str_size) in Hjoin. rewrite HR in Hjoin.
    change (str_size "") with 0 in Hjoin. lia. }
  destruct (health_request_finds ip Hip) as (_ & Hhdr & _).
  unfold handle_client. cbn [handle_client_loop]. unfold read_until_headers.
  rewrite (read_until_headers_whole (health_request ip) "" _ "" incoming);
    [| rewrite Hhdr; f_equal; unfold str_size in HR; lia
     | lia | exact Hjoin | exact Hne | exact Hin | lia].
  rewrite parse_health_request by (unfold INT_MAX; lia || exact Hip).
  reflexivity.
Qed.

(** The status test of the balancer on the first [n] bytes of the health
    answer. *)
Lemma status_of_health_response n :
  status_200 (bytes health_response n) = (12 <=? n).
Proof.
  unfold bytes.
  destruct (Z.leb_spec 12 n) as [Hle | Hlt].
  - replace (Z.to_nat n) with (12 + (Z.to_nat n - 12))%nat by lia.
    generalize (Z.to_nat n - 12)%nat. intros k.
    apply status_200_contains. left. exists "". eexists. reflexivity.
  - assert (Hm : (Z.to_nat n < 12)%nat) by lia.
    revert Hm. generalize (Z.to_nat n). intros m Hm.
    do 12 (destruct m as [| m]; [reflexivity |]). lia.
Qed.

(** X25.  The balancer's probe against this server's health answer: on a
    network where the socket opens and connects, no [::send] fails, and
    the one [::recv] of [read_some] returns [n] with the health answer in
    the buffer, [probe_backend] writes into the registry the flag that is
    true exactly when [n] is at least 12, the bytes up to the end of
    [HTTP/1.1 200]; it changes no other flag. *)
Theorem probe_accepts_backend_answer net i ip port old n w :
  at_index (backend_servers (manager w)) i = Some (ip, port) ->
  0 <= i <= INT_MAX ->
  at_index (backend_health (manager w)) i = Some old ->
  net_socket net <> -1 ->
  net_connect net <> -1 ->
  (forall k, 0 < net_send net (net_socket net) k) ->
  net_recv net (net_socket net) = (n, health_response) ->
  exists w',
    probe_backend net i w = Some (tt, w')
    /\ at_index (backend_health (manager w')) i = Some (12 <=? n)
    /\ (forall j, j <> i ->
          at_index (backend_health (manager w')) j
          = at_index (backend_health (manager w)) j)
    /\ In (ESetHealth i (12 <=? n)) (trace w').
Proof.
  intros Hsrv Hi Hold Hsock Hconn Hsend Hrecv.
  pose proof (probe_backend_trace net i w (ip, port) old Hsrv Hi Hold) as Hrun.
  cbn [fst snd] in Hrun.
  assert (Hverdict : probe_verdict net ip = (12 <=? n)).
  { unfold probe_verdict, sys_recv.
    rewrite (send_all_from_patient net (net_socket net)
               (str_size (health_request ip)) 0 0 (str_size_nonneg _) Hsend).
    rewrite Hrecv. cbn [fst snd].
    destruct (Z.eqb_spec (net_socket net) (-1)) as [| _]; [contradiction |].
    destruct (Z.eqb_spec (net_connect net) (-1)) as [| _]; [contradiction |].
    cbn [negb]. rewrite status_of_health_response.
    destruct (Z.leb_spec (Z.min n 1024) 0) as [Hle | Hgt];
      destruct (Z.leb_spec 12 (Z.min n 1024));
      destruct (Z.leb_spec 12 n); try reflexivity; lia. }
  rewrite Hverdict in Hrun.
  eexists. split; [exact Hrun |]. cbn [manager with_health backend_health trace].
  apply at_index_Some in Hold as [Hpos Hold].
  split; [| split].
  - apply at_index_Some. split; [exact Hpos |].
    apply list_lookup_insert_eq. eapply lookup_lt_Some. exact Hold.
  - intros j Hne. unfold at_index.
    destruct (j <? 0) eqn:Hj; [reflexivity |]. apply Z.ltb_ge in Hj.
    apply list_lookup_insert_ne. lia.
  - apply in_or_app. right.
    destruct (probe_events_verdict net i ip port Hi) as [Hset _].
    now rewrite Hverdict in Hset.
Qed.

Lemma contains_app_r a b pat : contains b pat -> contains (a ++ b) pat.
Proof.
  intros (pre & post & ->). exists (a ++ pre)%string, post.
  now rewrite string_app_assoc.
Qed.

Lemma contains_app_l a b pat : contains a pat -> contains (a ++ b) pat.
Proof.
  intros (pre & post & ->). exists pre, (post ++ b)%string.
  now rewrite !string_app_assoc.
Qed.

(** The answers of a connection: each is a 200 response; each but the
    last went out whole and announces keep-alive. *)
Lemma handle_client_loop_answers fuel : forall port sends j incoming sent out,
  handle_client_loop fuel port sends j incoming sent = Some (Ok out) ->
  exists tail,
    out = sent ++ tail
    /\ Forall (fun a => String.prefix "HTTP/1.1 200 OK" (fst (fst a)) = true)
         tail
    /\ forall i a, tail !! i = Some a -> (S i < length tail)%nat ->
         snd a = true
         /\ snd (fst a) = str_size (fst (fst a))
         /\ contains (fst (fst a)) "Connection: keep-alive".
Proof.
  induction fuel as [| fuel IH]; intros port sends j incoming sent out;
    [discriminate |].
  cbn [handle_client_loop].
  assert (Hnil : Some (Ok sent) = Some (Ok out) ->
                 exists tail,
                   out = sent ++ tail
                   /\ Forall (fun a => String.prefix "HTTP/1.1 200 OK"
                                         (fst (fst a)) = true) tail
                   /\ forall i a, tail !! i = Some a ->
                        (S i < length tail)%nat ->
                        snd a = true
                        /\ snd (fst a) = str_size (fst (fst a))
                        /\ contains (fst (fst a)) "Connection: keep-alive").
  { intros [= <-]. exists []. rewrite app_nil_r.
    split; [reflexivity |]. split; [constructor |].
    intros i a Hi. discriminate. }
  assert (Hone : forall a,
             String.prefix "HTTP/1.1 200 OK" (fst (fst a)) = true ->
             Some (Ok (sent ++ [a])) = Some (Ok out) ->
             exists tail,
               out = sent ++ tail
               /\ Forall (fun a => String.prefix "HTTP/1.1 200 OK"
                                     (fst (fst a)) = true) tail
               /\ forall i a, tail !! i = Some a ->
                    (S i < length tail)%nat ->
                    snd a = true
                    /\ snd (fst a) = str_size (fst (fst a))
                    /\ contains (fst (fst a)) "Connection: keep-alive").
  { intros a Ha [= <-]. exists [a].
    split; [reflexivity |]. split; [now repeat constructor |].
    intros i b Hi Hlen. simpl in Hlen. lia. }
  destruct (read_until_headers "" incoming) as [[[[] buf] rest] |];
    [| exact Hnil | discriminate].
  destruct (parse_request_from_buffer buf Request_new 0)
    as [[[complete req] consumed] |]; [| discriminate].
  cbv zeta.
  destruct (if 0 <? _ then _ else _) as [[[[] more] rest'] |];
    [| exact Hnil | discriminate].
  cbn [method path keep_alive].
  destruct (_ && _); [apply Hone; reflexivity |].
  set (req1 := {| method := method req; path := path req;
                  headers_raw := headers_raw req;
                  body := (body req ++ more)%string;
                  content_length := content_length req;
                  keep_alive := keep_alive req |}).
  assert (H200 : String.prefix "HTTP/1.1 200 OK"
                   (fst (fst (answer sends j (echo_response port req1)))) = true)
    by reflexivity.
  destruct (snd (answer sends j (echo_response port req1))) eqn:Hok;
    cbn [negb]; [| apply Hone; exact H200].
  destruct (keep_alive req) eqn:Hkeep; cbn [negb]; [| apply Hone; exact H200].
  intros Hrun. destruct (IH _ _ _ _ _ _ Hrun) as (tail & -> & Hall & Hbut).
  exists (answer sends j (echo_response port req1) :: tail).
  split; [now rewrite <- app_assoc |]. split; [now constructor |].
  intros [| i] a Hi Hlen.
  - injection Hi as <-. split; [exact Hok |]. split.
    + unfold answer in Hok |- *. cbn [fst snd] in Hok |- *.
      apply send_all_from_spec in Hok; [exact Hok | apply str_size_nonneg].
    + unfold answer, echo_response, req1. cbn [fst snd keep_alive].
      do 7 apply contains_app_r. apply contains_app_l.
      now exists "", CRLF.
  - apply (Hbut i a Hi). simpl in Hlen. lia.
Qed.

(** X20.  [handle_client] always comes to an end: whatever the client
    sends and however the writes go, the loop stops, with the socket
    closed or with an exception.  Every answer follows a read that took
    at least one byte of the client's: a connection that ends normally
    has sent no more answers than it received bytes. *)
Theorem handle_client_ends port sends incoming :
  exists o,
    handle_client port sends incoming = Some o
    /\ forall out, o = Ok out -> (length out <= total_bytes incoming)%nat.
Proof.
  unfold handle_client.
  destruct (handle_client_loop_bound (S (total_bytes incoming)) port sends 0
              incoming []) as (o & Ho & Hout); [lia |].
  exists o. split; [exact Ho |].
  intros out Hok. specialize (Hout out Hok). simpl in Hout. lia.
Qed.

(** X21.  The answers of one connection: every answer is a 200
    response, and every answer but the last went out whole and announces
    keep-alive (after a failed write, or an answer without keep-alive,
    nothing more is sent). *)
Theorem handle_client_answers port sends incoming out :
  handle_client port sends incoming = Some (Ok out) ->
  Forall (fun a => String.prefix "HTTP/1.1 200 OK" (fst (fst a)) = true) out
  /\ forall i a, out !! i = Some a -> (S i < length out)%nat ->
       snd a = true
       /\ snd (fst a) = str_size (fst (fst a))
       /\ contains (fst (fst a)) "Connection: keep-alive".
Proof.
  unfold handle_client. intros Hrun.
  destruct (handle_client_loop_answers _ _ _ _ _ _ _ Hrun)
    as (tail & -> & Hall & Hbut).
  split; [exact Hall | exact Hbut].
Qed.

Lemma handle_client_answers_witness :
  snd (answer (fun _ _ => 30) 0
         (echo_response 9001
            {| method := "POST"; path := "/a"; headers_raw := "";
               body := "hi"; content_length := 2; keep_alive := true |}))
  = true.
Proof.
  destruct (handle_client_answers 9001 (fun _ _ => 30)
              [("POST /a HTTP/1.1" ++ CRLF ++ "Connection: keep-alive" ++ CRLF
                ++ "Content-Length: 2" ++ CRLF ++ CRLF ++ "hi")%string;
               ("GET /b HTTP/1.1" ++ CRLF ++ CRLF)%string]
              [answer (fun _ _ => 30) 0
                 (echo_response 9001
                    {| method := "POST"; path := "/a"; headers_raw := "";
                       body := "hi"; content_length := 2;
                       keep_alive := true |});
               answer (fun _ _ => 30) 1
                 (echo_response 9001
                    {| method := "GET"; path := "/b"; headers_raw := "";
                       body := ""; content_length := 0;
                       keep_alive := false |})])
    as [_ Hbut]; [vm_compute; reflexivity |].
  destruct (Hbut 0%nat
              (answer (fun _ _ => 30) 0
                 (echo_response 9001
                    {| method := "POST"; path := "/a"; headers_raw := "";
                       body := "hi"; content_length := 2;
                       keep_alive := true |})))
    as [Hok _]; [reflexivity | simpl; lia |].
  exact Hok.
Defined.

(** X22.  When [parse_request_from_buffer] returns true, the buffer is
    the header block, then the body, then what is left over; the body has
    exactly Content-Length bytes and [consumed] is where it ends. *)
Theorem parse_complete_has_whole_body buf req consumed req' consumed' :
  str_size buf <= INT_MAX ->
  parse_request_from_buffer buf req consumed = Ok (true, req', consumed') ->
  exists rest,
    buf = (headers_raw req' ++ body req' ++ rest)%string
    /\ str_size (body req') = content_length req'
    /\ consumed' = str_size buf - str_size rest.
Proof.
  intros Hsize Hparse.
  destruct (parse_layout _ _ _ _ _ _ Hsize Hparse (or_introl eq_refl))
    as (pre & post & Hbuf & Hhead & [Hlen Hbody] & Hcons).
  exists (drop_chars (Z.to_nat (content_length req')) post).
  assert (Hpost : post = (body req' ++ drop_chars (Z.to_nat (content_length req'))
                            post)%string).
  { rewrite Hbody. apply substring_drop. unfold str_size in Hlen. lia. }
  assert (Hb : str_size (body req') = content_length req').
  { rewrite Hbody. unfold str_size in *. rewrite length_substring; simpl; lia. }
  split; [| split; [exact Hb |]].
  - rewrite Hhead, <- Hpost, string_app_assoc. exact Hbuf.
  - pose proof (f_equal str_size Hpost) as Hp.
    pose proof (f_equal str_size Hbuf) as Hs.
    rewrite str_size_app in Hp. repeat rewrite str_size_app in Hs.
    rewrite Hcons, Hhead, !str_size_app. lia.
Qed.

Lemma parse_complete_has_whole_body_witness :
  exists rest,
    ("PUT /k HTTP/1.1" ++ CRLF ++ "Content-Length: 3" ++ CRLF ++ CRLF
     ++ "abcdef")%string
    = (("PUT /k HTTP/1.1" ++ CRLF ++ "Content-Length: 3" ++ CRLF ++ CRLF)
       ++ "abc" ++ rest)%string
    /\ str_size "abc" = 3
    /\ 41 = str_size ("PUT /k HTTP/1.1" ++ CRLF ++ "Content-Length: 3" ++ CRLF
                      ++ CRLF ++ "abcdef") - str_size rest.
Proof.
  apply (parse_complete_has_whole_body
           ("PUT /k HTTP/1.1" ++ CRLF ++ "Content-Length: 3" ++ CRLF ++ CRLF
            ++ "abcdef")%string
           Request_new 0
           {| method := "PUT"; path := "/k";
              headers_raw := ("PUT /k HTTP/1.1" ++ CRLF ++ "Content-Length: 3"
                              ++ CRLF ++ CRLF)%string;
              body := "abc"; content_length := 3; keep_alive := false |}
           41).
  - vm_compute. discriminate.
  - vm_compute. reflexivity.
Defined.

(** X23.  When [parse_request_from_buffer] returns false with a
    positive Content-Length, the buffer is the header block and the part
    of the body that has arrived, which is shorter than Content-Length:
    the number of bytes [handle_client] then asks [read_n] for is positive
    and does not wrap. *)
Theorem parse_incomplete_wants_rest buf req consumed req' consumed' :
  str_size buf <= INT_MAX ->
  content_length req <= 0 ->
  parse_request_from_buffer buf req consumed = Ok (false, req', consumed') ->
  0 < content_length req' ->
  buf = (headers_raw req' ++ body req')%string
  /\ str_size (body req') < content_length req'
  /\ consumed' = str_size buf.
Proof.
  intros Hsize Hreq Hparse Hwant.
  destruct (parse_layout _ _ _ _ _ _ Hsize Hparse) as
    (pre & post & Hbuf & Hhead & [Hlen Hbody] & Hcons); [right; lia |].
  rewrite Hhead, Hbody in *.
  split; [| split; [exact Hlen |]].
  - now rewrite string_app_assoc.
  - rewrite Hcons, Hbuf, !str_size_app. lia.
Qed.

Lemma parse_incomplete_wants_rest_witness :
  ("PUT /k HTTP/1.1" ++ CRLF ++ "Content-Length: 9" ++ CRLF ++ CRLF
   ++ "abc")%string
  = (("PUT /k HTTP/1.1" ++ CRLF ++ "Content-Length: 9" ++ CRLF ++ CRLF)
     ++ "abc")%string
  /\ str_size "abc" < 9
  /\ 41 = str_size ("PUT /k HTTP/1.1" ++ CRLF ++ "Content-Length: 9" ++ CRLF
                    ++ CRLF ++ "abc").
Proof.
  apply (parse_incomplete_wants_rest
           ("PUT /k HTTP/1.1" ++ CRLF ++ "Content-Length: 9" ++ CRLF ++ CRLF
            ++ "abc")%string
           Request_new 0
           {| method := "PUT"; path := "/k";
              headers_raw := ("PUT /k HTTP/1.1" ++ CRLF ++ "Content-Length: 9"
                              ++ CRLF ++ CRLF)%string;
              body := "abc"; content_length := 9; keep_alive := false |}
           41).
  - vm_compute. discriminate.
  - simpl. lia.
  - vm_compute. reflexivity.
  - simpl. lia.
Defined.

Lemma backend_answers_health_probe_witness :
  handle_client 9001 (fun _ _ => 1)
    [("GET /health HTT")%string;
     ("P/1.1" ++ CRLF ++ "Host: 127.0.0.1" ++ CRLF ++ "Connection: close"
      ++ CRLF)%string;
     CRLF]
  = Some (Ok [answer (fun _ _ => 1) 0 health_response]).
Proof.
  apply (backend_answers_health_probe "127.0.0.1" 9001 (fun _ _ => 1)).
  - reflexivity.
  - vm_compute. discriminate.
  - reflexivity.
  - reflexivity.
Defined.

Lemma probe_accepts_backend_answer_witness :
  exists w',
    probe_backend
      {| net_socket := 3; net_connect := 0;
         net_send := fun _ _ => 100;
         net_recv := fun _ => (83, health_response) |} 0
      (world_new ROUND_ROBIN) = Some (tt, w')
    /\ at_index (backend_health (manager w')) 0 = Some true.
Proof.
  destruct (probe_accepts_backend_answer
              {| net_socket := 3; net_connect := 0;
                 net_send := fun _ _ => 100;
                 net_recv := fun _ => (83, health_response) |}
              0 "127.0.0.1" 9001 true 83 (world_new ROUND_ROBIN))
    as (w' & Hrun & Hflag & _).
  - reflexivity.
  - vm_compute. split; discriminate.
  - reflexivity.
  - simpl. lia.
  - simpl. lia.
  - intros k. simpl. lia.
  - reflexivity.
  - exists w'. split; [exact Hrun | exact Hflag].
Defined.

(** ** Numbers in decimal *)

Lemma digit_of_range c d :
  digit_of c = Some d ->
  (48 <= nat_of_ascii c <= 57)%nat /\ d = Z.of_nat (nat_of_ascii c) - 48.
Proof.
  unfold digit_of.
  destruct ((48 <=? nat_of_ascii c)%nat && (nat_of_ascii c <=? 57)%nat) eqn:H;
    [| discriminate].
  apply andb_true_iff in H as [H1%Nat.leb_le H2%Nat.leb_le].
  intros [= <-]. split; [lia | reflexivity].
Qed.

Lemma read_digits_acc d : forall acc,
  read_digits (NilEmpty.string_of_uint d) (Some (Z.pos acc))
  = Some (Z.pos (Pos.of_uint_acc d acc)).
Proof.
  induction d; intros acc; cbn [NilEmpty.string_of_uint Pos.of_uint_acc];
    [reflexivity | ..];
    cbn [read_digits];
    match goal with
    | |- context [digit_of ?c] =>
        let v := eval vm_compute in (digit_of c) in
        change (digit_of c) with v
    end; cbv iota beta;
    rewrite <- IHd; do 2 f_equal; lia.
Qed.

Lemma read_digits_zero d :
  read_digits (NilEmpty.string_of_uint d) (Some 0)
  = Some (Z.of_N (Pos.of_uint d)).
Proof.
  induction d; cbn [NilEmpty.string_of_uint Pos.of_uint];
    [reflexivity | ..];
    cbn [read_digits];
    match goal with
    | |- context [digit_of ?c] =>
        let v := eval vm_compute in (digit_of c) in
        change (digit_of c) with v
    end; cbv iota beta;
    [exact IHd | ..];
    match goal with
    | |- read_digits _ (Some ?z) = _ =>
        let v := eval vm_compute in z in change z with v
    end;
    rewrite read_digits_acc; reflexivity.
Qed.

Lemma digits_only_uint d : digits_only (NilEmpty.string_of_uint d) = true.
Proof.
  induction d; cbn [NilEmpty.string_of_uint digits_only];
    [reflexivity | ..];
    match goal with
    | |- context [digit_of ?c] =>
        let v := eval vm_compute in (digit_of c) in
        change (digit_of c) with v
    end; exact IHd.
Qed.

Lemma to_uint_not_nil p : Pos.to_uint p <> Decimal.Nil.
Proof.
  intros H. pose proof (DecimalPos.Unsigned.of_to p) as Hp.
  rewrite H in Hp. discriminate.
Qed.

(** What [to_string] writes for a number that is not negative. *)
Lemma string_of_int_digits n :
  0 <= n ->
  exists d,
    string_of_int n = NilEmpty.string_of_uint d
    /\ d <> Decimal.Nil
    /\ Z.of_N (Pos.of_uint d) = n.
Proof.
  intros Hn. unfold string_of_int.
  destruct n as [| p | p]; [| | lia].
  - exists (Decimal.D0 Decimal.Nil). repeat split. discriminate.
  - exists (Pos.to_uint p). cbn [Z.to_int NilZero.string_of_int].
    pose proof (to_uint_not_nil p) as Hnil.
    split; [| split; [exact Hnil |]].
    + unfold NilZero.string_of_uint. now destruct (Pos.to_uint p).
    + now rewrite DecimalPos.Unsigned.of_to.
Qed.

Lemma string_of_int_plain n :
  0 <= n ->
  digits_only (string_of_int n) = true /\ string_of_int n <> "".
Proof.
  intros Hn. destruct (string_of_int_digits n Hn) as (d & -> & Hnil & _).
  split; [apply digits_only_uint |].
  now destruct d.
Qed.

(** [stoi] reads back what [to_string] wrote. *)
Lemma stoi_string_of_int n :
  0 <= n <= INT_MAX -> stoi (string_of_int n) = Ok n.
Proof.
  intros Hn. destruct (string_of_int_digits n) as (d & -> & Hnil & Hval);
    [lia |].
  assert (Hread : read_digits (NilEmpty.string_of_uint d) None = Some n).
  { rewrite <- Hval, <- read_digits_zero.
    destruct d; [congruence | ..]; reflexivity. }
  unfold stoi.
  assert (Hskip : skip_spaces (NilEmpty.string_of_uint d)
                  = NilEmpty.string_of_uint d)
    by (destruct d; [congruence | ..]; reflexivity).
  rewrite Hskip. cbv zeta.
  assert (Hsign :
            match NilEmpty.string_of_uint d with
            | String c rest =>
                if (nat_of_ascii c =? 45)%nat then (true, rest)
                else if (nat_of_ascii c =? 43)%nat then (false, rest)
                else (false, NilEmpty.string_of_uint d)
            | EmptyString => (false, NilEmpty.string_of_uint d)
            end = (false, NilEmpty.string_of_uint d))
    by (destruct d; reflexivity).
  rewrite Hsign. cbn [fst snd]. rewrite Hread.
  destruct (Z.leb_spec INT_MIN n) as [_ | Hlt]; [| unfold INT_MIN in *; lia].
  destruct (Z.leb_spec n INT_MAX) as [_ | Hlt]; [reflexivity | lia].
Qed.

(** ** Requests with a body *)

Lemma find_from_here pat x pos : find_from pat (pat ++ x) pos = Some pos.
Proof.
  assert (Hp : String.prefix pat (pat ++ x) = true)
    by (apply prefix_app; now exists x).
  destruct pat as [| a pat]; [now destruct x |].
  cbn [append find_from] in Hp |- *. now rewrite Hp.
Qed.

Lemma substring_mid a b c :
  substring (String.length a) (String.length b) (a ++ b ++ c) = b.
Proof.
  rewrite substring_shift, drop_chars_app. apply substring_app.
Qed.

Lemma plain_token_no_cr s : plain_token s = true -> no_cr s = true.
Proof.
  induction s as [| c s IH]; [reflexivity |]. cbn [plain_token no_cr].
  intros [[_ Hc]%andb_true_iff Hs]%andb_true_iff.
  now rewrite Hc, IH.
Qed.

Lemma plain_token_all_clash s :
  plain_token s = true -> all_clash " " s = true.
Proof.
  induction s as [| c s IH]; [reflexivity |]. cbn [plain_token all_clash clash].
  intros [[Hc _]%andb_true_iff Hs]%andb_true_iff.
  rewrite (IH Hs), andb_true_r.
  destruct (Ascii.eqb_spec " " c) as [<- | _]; [discriminate Hc | reflexivity].
Qed.

Lemma tolower_blank c : is_blank (tolower c) = is_blank c.
Proof.
  unfold tolower.
  destruct ((65 <=? nat_of_ascii c)%nat && (nat_of_ascii c <=? 90)%nat) eqn:Hup;
    [| reflexivity].
  apply andb_true_iff in Hup as [H1%Nat.leb_le H2%Nat.leb_le].
  unfold is_blank. rewrite nat_ascii_embedding by lia.
  destruct (Nat.eqb_spec (nat_of_ascii c + 32) 32),
    (Nat.eqb_spec (nat_of_ascii c + 32) 9),
    (Nat.eqb_spec (nat_of_ascii c) 32),
    (Nat.eqb_spec (nat_of_ascii c) 9); try reflexivity; lia.
Qed.

Lemma plain_token_lowercase s : plain_token (lowercase s) = plain_token s.
Proof.
  induction s as [| c s IH]; [reflexivity |].
  cbn [lowercase plain_token]. now rewrite tolower_blank, tolower_cr, IH.
Qed.

Lemma digits_only_no_cr s : digits_only s = true -> no_cr s = true.
Proof.
  induction s as [| c s IH]; [reflexivity |]. cbn [digits_only no_cr].
  destruct (digit_of c) as [v |] eqn:Hd; [| discriminate].
  apply digit_of_range in Hd as [Hc _]. intros Hs. rewrite (IH Hs), andb_true_r.
  apply negb_true_iff, Nat.eqb_neq. lia.
Qed.

Lemma digits_only_lowercase s : digits_only s = true -> lowercase s = s.
Proof.
  induction s as [| c s IH]; [reflexivity |]. cbn [digits_only lowercase].
  destruct (digit_of c) as [v |] eqn:Hd; [| discriminate].
  apply digit_of_range in Hd as [Hc _]. intros Hs. rewrite (IH Hs).
  f_equal. unfold tolower.
  destruct (Nat.leb_spec 65 (nat_of_ascii c)); [lia | reflexivity].
Qed.

Lemma digit_not_blank c v : digit_of c = Some v -> is_blank c = false.
Proof.
  intros [Hc _]%digit_of_range. unfold is_blank.
  apply orb_false_iff. split; apply Nat.eqb_neq; lia.
Qed.

Lemma digits_only_plain s : digits_only s = true -> plain_token s = true.
Proof.
  induction s as [| c s IH]; [reflexivity |]. cbn [digits_only plain_token].
  destruct (digit_of c) as [v |] eqn:Hd; [| discriminate].
  rewrite (digit_not_blank c v Hd).
  apply digit_of_range in Hd as [Hc _]. intros Hs. rewrite (IH Hs), andb_true_r.
  apply negb_true_iff, Nat.eqb_neq. lia.
Qed.

Lemma last_not_blank_plain s : forall pos found,
  plain_token s = true -> s <> "" ->
  last_not_blank s pos found = Z.of_nat (pos + String.length s - 1).
Proof.
  induction s as [| c s IH]; intros pos found Hd Hne; [congruence |].
  cbn [plain_token] in Hd. cbn [last_not_blank String.length].
  apply andb_true_iff in Hd as [[Hc%negb_true_iff _]%andb_true_iff Hs].
  rewrite Hc.
  destruct s as [| c' s']; [cbn [last_not_blank String.length]; f_equal; lia |].
  rewrite IH by (exact Hs || discriminate). f_equal. simpl String.length. lia.
Qed.

(** The boundaries of the value [" " ++ v] of the Content-Length header,
    as the trimming sees them. *)
Lemma trim_plain v :
  plain_token v = true -> v <> "" ->
  first_not_blank (" " ++ v) 0 = 1
  /\ last_not_blank (" " ++ v) 0 NPOS = str_size v.
Proof.
  intros Hd Hne. split.
  - destruct v as [| c v]; [congruence |]. cbn [plain_token] in Hd.
    apply andb_true_iff in Hd as [[Hc%negb_true_iff _]%andb_true_iff _].
    cbn [append first_not_blank].
    change (is_blank " ") with true. cbv iota.
    now rewrite Hc.
  - cbn [append last_not_blank]. change (is_blank " ") with true. cbv iota.
    rewrite last_not_blank_plain by assumption.
    unfold str_size. destruct v; [congruence | simpl String.length; lia].
Qed.

Lemma str_find_at s pat pos :
  0 <= pos <= str_size s ->
  str_find s pat pos
  = match find_from pat (drop_chars (Z.to_nat pos) s) (Z.to_nat pos) with
    | Some q => Z.of_nat q
    | None => NPOS
    end.
Proof.
  intros Hpos. unfold str_find.
  destruct (Z.ltb_spec (str_size s) pos); [lia | reflexivity].
Qed.

Ltac skip_segment :=
  rewrite find_from_all_clash
    by first [ vm_compute; reflexivity
             | apply no_cr_all_clash; assumption
             | apply plain_token_all_clash; assumption ].

(** Where the patterns of the parser lie in a request with a body. *)
Lemma request_with_finds m p d b1 :
  no_cr m = true -> no_cr p = true -> no_cr d = true ->
  let e := (String.length m + String.length p + 10)%nat in
  find_from (CRLF ++ CRLF)
    (m ++ " " ++ p ++ " HTTP/1.1" ++ CRLF ++ "Content-Length: " ++ d
     ++ CRLF ++ CRLF ++ b1) 0
  = Some (e + 18 + String.length d)%nat
  /\ find_from CRLF
       (m ++ " " ++ p ++ " HTTP/1.1" ++ CRLF ++ "Content-Length: " ++ d
        ++ CRLF ++ CRLF ++ b1) 0
     = Some e
  /\ find_from key_content_length
       (m ++ " " ++ p ++ " http/1.1" ++ key_content_length ++ " " ++ d
        ++ CRLF ++ CRLF) 0
     = Some e
  /\ find_from key_keep_alive
       (m ++ " " ++ p ++ " http/1.1" ++ key_content_length ++ " " ++ d
        ++ CRLF ++ CRLF) 0
     = None
  /\ find_from CRLF ("content-length: " ++ d ++ CRLF ++ CRLF) (e + 2)
     = Some (e + 18 + String.length d)%nat.
Proof.
  intros Hm Hp Hd e.
  split; [| split; [| split; [| split]]].
  - do 4 skip_segment.
    rewrite <- (string_app_assoc CRLF "Content-Length: ").
    do 2 skip_segment.
    rewrite <- (string_app_assoc CRLF CRLF), find_from_here.
    f_equal. subst e. simpl String.length. lia.
  - do 4 skip_segment. rewrite find_from_here.
    f_equal. subst e. simpl String.length. lia.
  - do 4 skip_segment. rewrite find_from_here.
    f_equal. subst e. simpl String.length. lia.
  - do 4 skip_segment.
    rewrite <- (string_app_assoc key_content_length " ").
    do 2 skip_segment.
    rewrite find_from_shift. reflexivity.
  - do 2 skip_segment. rewrite find_from_here.
    f_equal. simpl String.length. lia.
Qed.

(** [parse_request_from_buffer] on a request with a Content-Length header
    and [b1] of its body. *)
Lemma parse_request_with m p v b1 req consumed :
  plain_token m = true ->
  plain_token p = true ->
  plain_token v = true ->
  v <> "" ->
  str_size (request_with m p v ++ b1) <= INT_MAX ->
  parse_request_from_buffer (request_with m p v ++ b1) req consumed
  = try n := stoi (lowercase v) in
    if n <=? str_size b1
    then if n <? 0 then Throws
         else Ok (true,
                  {| method := m; path := p;
                     headers_raw := request_with m p v;
                     body := substring 0 (Z.to_nat n) b1;
                     content_length := n; keep_alive := false |},
                  str_size (request_with m p v) + n)
    else Ok (false,
             {| method := m; path := p;
                headers_raw := request_with m p v;
                body := b1; content_length := n; keep_alive := false |},
             str_size (request_with m p v) + str_size b1).
Proof.
  intros Hm Hp Hv Hvne Hsize.
  pose proof (plain_token_no_cr m Hm) as Hmcr.
  pose proof (plain_token_no_cr p Hp) as Hpcr.
  pose proof (plain_token_no_cr v Hv) as Hvcr.
  assert (Hlm : no_cr (lowercase m) = true) by now rewrite no_cr_lowercase.
  assert (Hlp : no_cr (lowercase p) = true) by now rewrite no_cr_lowercase.
  assert (Hd : plain_token (lowercase v) = true)
    by now rewrite plain_token_lowercase.
  assert (Hdne : lowercase v <> "") by now destruct v.
  pose proof (plain_token_no_cr _ Hd) as Hdcr.
  set (d := lowercase v) in *.
  assert (Hdv : String.length v = String.length d)
    by (symmetry; apply length_lowercase).
  set (e := (String.length m + String.length p + 10)%nat).
  destruct (request_with_finds m p v b1 Hmcr Hpcr Hvcr)
    as (Hf1 & Hf2 & _ & _ & _).
  destruct (request_with_finds (lowercase m) (lowercase p) d "" Hlm Hlp Hdcr)
    as (_ & _ & Hf3 & Hf4 & Hf5).
  rewrite !length_lowercase in Hf3, Hf5. rewrite Hdv in Hf1.
  fold e in Hf1, Hf2, Hf3, Hf5.
  cbv zeta in Hf1, Hf2, Hf3, Hf4, Hf5.
  assert (Hbuf : (request_with m p v ++ b1)%string
                 = (m ++ " " ++ p ++ " HTTP/1.1" ++ CRLF ++ "Content-Length: "
                    ++ v ++ CRLF ++ CRLF ++ b1)%string).
  { unfold request_with. now rewrite !string_app_assoc. }
  assert (Hlow : lowercase (request_with m p v)
                 = (lowercase m ++ " " ++ lowercase p ++ " http/1.1"
                    ++ key_content_length ++ " " ++ d ++ CRLF ++ CRLF)%string).
  { unfold request_with. rewrite !lowercase_app. reflexivity. }
  assert (HH : String.length (request_with m p v)
               = (e + 22 + String.length d)%nat).
  { unfold request_with. rewrite !length_app. simpl String.length.
    subst e. lia. }
  assert (HE : str_size (request_with m p v ++ b1)
               = Z.of_nat (e + 22 + String.length d) + str_size b1).
  { rewrite str_size_app. unfold str_size at 1. now rewrite HH. }
  pose proof (str_size_nonneg b1) as Hb1.
  assert (Hhdr : str_find (request_with m p v ++ b1) (CRLF ++ CRLF) 0
                 = Z.of_nat (e + 18 + String.length d))
    by now rewrite str_find_0, Hbuf, Hf1.
  assert (Heol : str_find (request_with m p v ++ b1) CRLF 0 = Z.of_nat e)
    by now rewrite str_find_0, Hbuf, Hf2.
  assert (Hsl : substr (request_with m p v ++ b1) 0 (Z.of_nat e)
                = Ok (m ++ " " ++ p ++ " HTTP/1.1")%string).
  { rewrite substr_0 by lia. f_equal. rewrite Nat2Z.id, Hbuf.
    replace e with (String.length (m ++ " " ++ p ++ " HTTP/1.1"))
      by (rewrite !length_app; simpl String.length; subst e; lia).
    rewrite <- (string_app_assoc p " HTTP/1.1"),
      <- (string_app_assoc " " (p ++ " HTTP/1.1")),
      <- (string_app_assoc m (" " ++ p ++ " HTTP/1.1")).
    apply substring_app. }
  assert (Hhd : substr (request_with m p v ++ b1) 0
                  (Z.of_nat (e + 18 + String.length d) + 4)
                = Ok (request_with m p v)).
  { rewrite substr_0 by lia. f_equal.
    replace (Z.to_nat (Z.of_nat (e + 18 + String.length d) + 4))
      with (String.length (request_with m p v)) by lia.
    apply substring_app. }
  unfold parse_request_from_buffer. rewrite Hhdr, Heol. cbv zeta.
  destruct (Z.eqb_spec (Z.of_nat (e + 18 + String.length d)) NPOS) as [Heq | _];
    [unfold NPOS, SIZE_MOD, INT_MAX in *; lia |].
  destruct (Z.eqb_spec (Z.of_nat e) NPOS) as [Heq | _];
    [unfold NPOS, SIZE_MOD, INT_MAX in *; lia |].
  rewrite Hsl. cbn [and_then].
  rewrite (size_wrap_small (Z.of_nat (e + 18 + String.length d) + 4))
    by (unfold SIZE_MOD, INT_MAX in *; lia).
  rewrite Hhd. cbn [and_then].
  set (SL := (m ++ " " ++ p ++ " HTTP/1.1")%string).
  assert (HSL : str_size SL = Z.of_nat e).
  { unfold str_size, SL. rewrite !length_app. simpl String.length.
    subst e. lia. }
  assert (Hsp1 : str_find SL " " 0 = Z.of_nat (String.length m)).
  { rewrite str_find_0. unfold SL. skip_segment.
    now rewrite find_from_here. }
  assert (Hsp2 : str_find SL " " (Z.of_nat (String.length m) + 1)
                 = Z.of_nat (String.length m + 1 + String.length p)).
  { rewrite str_find_at by (subst e; lia).
    replace (Z.to_nat (Z.of_nat (String.length m) + 1))
      with (String.length (m ++ " "))
      by (rewrite length_app; simpl String.length; lia).
    unfold SL. rewrite <- (string_app_assoc m " "), drop_chars_app.
    skip_segment. change " HTTP/1.1" with (" " ++ "HTTP/1.1")%string.
    rewrite find_from_here. f_equal. rewrite length_app.
    simpl String.length. lia. }
  assert (Hm0 : substr SL 0 (Z.of_nat (String.length m)) = Ok m).
  { rewrite substr_0 by (subst e; lia). f_equal. rewrite Nat2Z.id.
    apply substring_app. }
  assert (Hp0 : substr SL (Z.of_nat (String.length m) + 1)
                  (Z.of_nat (String.length p)) = Ok p).
  { unfold substr.
    destruct (Z.ltb_spec (str_size SL) (Z.of_nat (String.length m) + 1));
      [subst e; lia |].
    f_equal.
    replace (Z.to_nat (Z.of_nat (String.length m) + 1))
      with (String.length (m ++ " "))
      by (rewrite length_app; simpl String.length; lia).
    replace (Z.to_nat _) with (String.length p) by (subst e; lia).
    unfold SL. rewrite <- (string_app_assoc m " "). apply substring_mid. }
  rewrite Hsp1.
  rewrite (size_wrap_small (Z.of_nat (String.length m) + 1))
    by (unfold SIZE_MOD, INT_MAX in *; subst e; lia).
  rewrite Hsp2.
  destruct (Z.eqb_spec (Z.of_nat (String.length m)) NPOS) as [Heq | _];
    [unfold NPOS, SIZE_MOD, INT_MAX in *; subst e; lia |].
  destruct (Z.eqb_spec (Z.of_nat (String.length m + 1 + String.length p)) NPOS)
    as [Heq | _]; [unfold NPOS, SIZE_MOD, INT_MAX in *; subst e; lia |].
  cbn [orb]. rewrite Hm0. cbn [and_then].
  replace (size_wrap (Z.of_nat (String.length m + 1 + String.length p)
                      - (Z.of_nat (String.length m) + 1)))
    with (Z.of_nat (String.length p))
    by (rewrite size_wrap_small; unfold SIZE_MOD, INT_MAX in *; subst e; lia).
  rewrite Hp0. cbn [and_then].
  set (A := (lowercase m ++ " " ++ lowercase p ++ " http/1.1" ++ CRLF)%string).
  assert (HA : String.length A = (e + 2)%nat).
  { unfold A. rewrite !length_app, !length_lowercase. simpl String.length.
    subst e. lia. }
  assert (HL : str_size (lowercase (request_with m p v))
               = Z.of_nat (e + 22 + String.length d))
    by (unfold str_size; now rewrite length_lowercase, HH).
  assert (Hlow2 : lowercase (request_with m p v)
                  = (A ++ "content-length: " ++ d ++ CRLF ++ CRLF)%string).
  { rewrite Hlow. unfold A. now rewrite !string_app_assoc. }
  assert (Hlow3 : lowercase (request_with m p v)
                  = ((A ++ "content-length:") ++ (" " ++ d) ++ CRLF ++ CRLF)%string).
  { rewrite Hlow. unfold A. now rewrite !string_app_assoc. }
  assert (Hcl : read_content_length (lowercase (request_with m p v))
                = stoi d).
  { unfold read_content_length.
    assert (Hk : str_find (lowercase (request_with m p v)) key_content_length 0
                 = Z.of_nat e) by now rewrite str_find_0, Hlow, Hf3.
    rewrite Hk. cbv zeta.
    destruct (Z.eqb_spec (Z.of_nat e) NPOS) as [Heq | _];
      [unfold NPOS, SIZE_MOD, INT_MAX in *; lia |].
    rewrite (size_wrap_small (Z.of_nat e + 2))
      by (unfold SIZE_MOD, INT_MAX in *; lia).
    change (str_size key_content_length) with 17.
    rewrite (size_wrap_small (Z.of_nat e + 17))
      by (unfold SIZE_MOD, INT_MAX in *; lia).
    assert (Hp2 : str_find (lowercase (request_with m p v)) CRLF (Z.of_nat e + 2)
                  = Z.of_nat (e + 18 + String.length d)).
    { rewrite str_find_at by lia.
      replace (Z.to_nat (Z.of_nat e + 2)) with (String.length A) by lia.
      rewrite Hlow2 at 1. rewrite drop_chars_app, HA, Hf5. reflexivity. }
    rewrite Hp2.
    replace (size_wrap (Z.of_nat (e + 18 + String.length d) - (Z.of_nat e + 17)))
      with (Z.of_nat (String.length (" " ++ d)))
      by (rewrite size_wrap_small; rewrite ?length_app; simpl String.length;
          unfold SIZE_MOD, INT_MAX in *; lia).
    assert (Hval : substr (lowercase (request_with m p v)) (Z.of_nat e + 17)
                     (Z.of_nat (String.length (" " ++ d)))
                   = Ok (" " ++ d)%string).
    { unfold substr.
      destruct (Z.ltb_spec (str_size (lowercase (request_with m p v)))
                  (Z.of_nat e + 17)); [lia |].
      f_equal.
      replace (Z.to_nat (Z.of_nat e + 17))
        with (String.length (A ++ "content-length:"))
        by (rewrite length_app, HA; simpl String.length; lia).
      replace (Z.to_nat _) with (String.length (" " ++ d)).
      - rewrite Hlow3 at 1. apply substring_mid.
      - rewrite HL, length_app. simpl String.length. lia. }
    rewrite Hval. cbn [and_then].
    destruct (trim_plain d Hd Hdne) as [-> ->].
    change (1 =? NPOS) with false. cbv iota.
    assert (Htrim : substr (" " ++ d) 1 (size_wrap (str_size d - 1 + 1)) = Ok d).
    { unfold substr.
      destruct (Z.ltb_spec (str_size (" " ++ d)) 1) as [Hlt | _].
      - rewrite str_size_app in Hlt. pose proof (str_size_nonneg d).
        change (str_size " ") with 1 in Hlt. lia.
      - f_equal. change (Z.to_nat 1) with (String.length " ").
        replace (Z.to_nat _) with (String.length d).
        + rewrite <- (string_app_nil_r d) at 2. apply substring_mid.
        + rewrite size_wrap_small, str_size_app;
            change (str_size " ") with 1; unfold str_size;
            unfold SIZE_MOD, INT_MAX in *; lia. }
    rewrite Htrim. reflexivity. }
  rewrite Hcl. destruct (stoi d) as [n |]; cbn [and_then]; [| reflexivity].
  assert (Hka : str_find (lowercase (request_with m p v)) key_keep_alive 0
                = NPOS) by now rewrite str_find_0, Hlow, Hf4.
  rewrite Hka. change (negb (NPOS =? NPOS)) with false.
  assert (Halready :
            (if Z.of_nat (e + 18 + String.length d) + 4
                <? str_size (request_with m p v ++ b1)
             then str_size (request_with m p v ++ b1)
                  - (Z.of_nat (e + 18 + String.length d) + 4)
             else 0) = str_size b1).
  { destruct (Z.ltb_spec (Z.of_nat (e + 18 + String.length d) + 4)
                (str_size (request_with m p v ++ b1))); lia. }
  rewrite Halready, (int_of_size_small (str_size b1)) by lia.
  replace (Z.to_nat (Z.of_nat (e + 18 + String.length d) + 4))
    with (String.length (request_with m p v)) by lia.
  rewrite 2!(substring_shift (request_with m p v ++ b1)), !drop_chars_app.
  assert (Hsz : str_size (request_with m p v)
                = Z.of_nat (e + 18 + String.length d) + 4)
    by (unfold str_size; lia).
  destruct (Z.leb_spec n (str_size b1)) as [Hle | Hgt].
  - destruct (Z.ltb_spec n 0) as [| Hpos]; [reflexivity |].
    rewrite size_wrap_small by (unfold SIZE_MOD, INT_MAX in *; lia).
    do 2 f_equal. lia.
  - rewrite size_wrap_small by (unfold SIZE_MOD, INT_MAX in *; lia).
    change (substring 0 (Z.to_nat (str_size b1)) b1)
      with (bytes b1 (str_size b1)).
    rewrite bytes_whole. do 2 f_equal. lia.
Qed.

Lemma app_prefix_split (b : string) : forall a x y,
  (a ++ x = b ++ y)%string ->
  (String.length b <= String.length a)%nat ->
  exists z, a = (b ++ z)%string.
Proof.
  induction b as [| c b IH]; intros a x y Heq Hlen; [now exists a |].
  destruct a as [| c' a]; [simpl in Hlen; lia |].
  cbn [append] in Heq. injection Heq as -> Heq.
  destruct (IH a x y Heq) as [z ->]; [simpl in Hlen; lia |].
  now exists z.
Qed.

Lemma app_inv_head_string (a : string) : forall x y,
  (a ++ x = a ++ y)%string -> x = y.
Proof.
  induction a as [| c a IH]; intros x y Heq; [exact Heq |].
  cbn [append] in Heq. injection Heq as Heq. now apply IH.
Qed.

(** [read_until_headers] on a request with a blank line: it returns true
    with the bytes read, which reach past the first blank line; the rest
    is still to come. *)
Lemma read_until_headers_upto request headers h fuel : forall acc incoming,
  find_from (CRLF ++ CRLF) request 0 = Some h ->
  Z.of_nat h + 4 <= 64 * 1024 + 1 ->
  (acc ++ joined incoming)%string = request ->
  nonempty_segments incoming = true ->
  (String.length acc < h + 4)%nat ->
  (total_bytes incoming < fuel)%nat ->
  exists acc' rest,
    read_until_headers_loop fuel acc headers incoming = Some (true, acc', rest)
    /\ (acc' ++ joined rest)%string = request
    /\ nonempty_segments rest = true
    /\ (h + 4 <= String.length acc')%nat.
Proof.
  intros acc incoming Hfind Hsize.
  destruct (find_from_first _ _ _ _ Hfind) as (pre & post & Hs & Hh & Hmin).
  simpl in Hh. subst h.
  revert acc incoming.
  induction fuel as [| fuel IH]; intros acc incoming Hreq Hne Hacc Hfuel; [lia |].
  assert (Hin : incoming <> []).
  { intros ->. cbn [joined fold_right] in Hreq.
    rewrite string_app_nil_r in Hreq. subst acc.
    rewrite Hs, !length_app in Hacc. simpl String.length in Hacc. lia. }
  cbn [read_until_headers_loop]. cbv zeta.
  destruct (recv_segment 1024 incoming) as (Hr & Hjoin & Hne' & Htot);
    [lia | exact Hne | exact Hin |].
  destruct (Z.leb_spec (fst (fst (recv 1024 incoming))) 0) as [| _]; [lia |].
  set (data := snd (fst (recv 1024 incoming))) in *.
  set (rest := snd (recv 1024 incoming)) in *.
  assert (Hreq' : ((acc ++ data) ++ joined rest)%string = request)
    by (now rewrite string_app_assoc, Hjoin).
  destruct (le_lt_dec (String.length pre + 4) (String.length (acc ++ data)))
    as [Hpast | Hshort].
  - assert (Hcont : contains (acc ++ data) (CRLF ++ CRLF)).
    { destruct (app_prefix_split (pre ++ CRLF ++ CRLF) (acc ++ data)
                  (joined rest) post) as [z Hz].
      - now rewrite Hreq', Hs, !string_app_assoc.
      - rewrite length_app. simpl String.length. lia.
      - exists pre, z. rewrite Hz. now rewrite !string_app_assoc. }
    apply (find_from_contains _ _ 0%nat) in Hcont.
    rewrite str_find_0.
    destruct (find_from (CRLF ++ CRLF) (acc ++ data) 0) as [q |] eqn:Hq;
      [| discriminate].
    destruct (find_from_first _ _ _ _ Hq) as (pre1 & post1 & Hs1 & Hq1 & _).
    assert (Hle : (q <= String.length (acc ++ data))%nat).
    { rewrite Hs1, length_app. simpl in Hq1. lia. }
    assert (Hall : Z.of_nat (String.length (acc ++ data)) <= 64 * 1024 + 1024).
    { pose proof (recv_total 1024 incoming) as [_ Hcap].
      specialize (Hcap Hr). fold data in Hcap.
      assert (fst (fst (recv 1024 incoming)) <= 1024).
      { unfold recv. destruct incoming as [| seg more]; [simpl; lia |].
        destruct (Z.leb_spec (str_size seg) 1024); simpl; lia. }
      rewrite length_app. unfold str_size in Hcap. lia. }
    destruct (Z.eqb_spec (Z.of_nat q) NPOS) as [Heq | _];
      [unfold NPOS, SIZE_MOD in *; lia |].
    cbn [negb]. exists (acc ++ data)%string, rest.
    split; [reflexivity |]. split; [exact Hreq' |]. split; [exact Hne' | lia].
  - assert (Hnone : str_find (acc ++ data) (CRLF ++ CRLF) 0 = NPOS).
    { rewrite str_find_0.
      destruct (find_from (CRLF ++ CRLF) (acc ++ data) 0) as [q |] eqn:Hq;
        [exfalso | reflexivity].
      destruct (find_from_first _ _ _ _ Hq) as (pre1 & post1 & Hs1 & _ & _).
      specialize (Hmin pre1 (post1 ++ joined rest)%string).
      rewrite <- Hreq', Hs1, !string_app_assoc in Hmin.
      specialize (Hmin eq_refl).
      rewrite Hs1, !length_app in Hshort. simpl String.length in Hshort. lia. }
    rewrite Hnone. change (negb (NPOS =? NPOS)) with false. cbv iota.
    destruct (Z.ltb_spec (64 * 1024) (str_size (acc ++ data))) as [Hbig | _];
      [unfold str_size in *; lia |].
    apply IH; [exact Hreq' | exact Hne' | lia | lia].
Qed.

(** [read_n] gets the [n] bytes that are still to come. *)
Lemma read_n_loop_whole fuel : forall n total out incoming,
  nonempty_segments incoming = true ->
  n - total = str_size (joined incoming) ->
  (total_bytes incoming < fuel)%nat ->
  read_n_loop fuel n total out incoming
  = Some (true, (out ++ joined incoming)%string, []).
Proof.
  induction fuel as [| fuel IH]; intros n total out incoming Hne Hleft Hfuel;
    [lia |].
  cbn [read_n_loop]. cbv zeta.
  pose proof (str_size_nonneg (joined incoming)) as Hnn.
  destruct (Z.ltb_spec total n) as [Hlt | Hge].
  - assert (Hin : incoming <> []).
    { intros ->. unfold str_size in Hleft. simpl in Hleft. lia. }
    destruct (recv_segment (Z.min 4096 (n - total)) incoming)
      as (Hr & Hjoin & Hne' & Htot); [lia | exact Hne | exact Hin |].
    destruct (recv_total (Z.min 4096 (n - total)) incoming) as [_ Hcap].
    specialize (Hcap Hr).
    destruct (Z.leb_spec (fst (fst (recv (Z.min 4096 (n - total)) incoming))) 0)
      as [| _]; [lia |].
    rewrite IH; [now rewrite string_app_assoc, Hjoin | exact Hne' | | lia].
    rewrite <- Hjoin, str_size_app in Hleft. lia.
  - assert (Hnil : incoming = []).
    { apply nonempty_joined; [exact Hne |].
      destruct (joined incoming); [reflexivity |].
      unfold str_size in Hleft. simpl in Hleft. lia. }
    subst incoming. cbn [joined fold_right]. now rewrite string_app_nil_r.
Qed.

Lemma request_with_end m p v b1 :
  plain_token m = true ->
  plain_token p = true ->
  plain_token v = true ->
  find_from (CRLF ++ CRLF) (request_with m p v ++ b1) 0
  = Some (String.length (request_with m p v) - 4)%nat.
Proof.
  intros Hm Hp Hv.
  destruct (request_with_finds m p v b1) as [Hf _];
    [now apply plain_token_no_cr | now apply plain_token_no_cr
     | now apply plain_token_no_cr |].
  cbv zeta in Hf. unfold request_with. rewrite !string_app_assoc, Hf.
  f_equal. rewrite !length_app. simpl String.length. lia.
Qed.

(** The first read of [handle_client] on such a request: the header block
    and [b1] of the body are in the buffer, the rest of the body is still
    to come. *)
Lemma read_request_with m p v b incoming :
  plain_token m = true ->
  plain_token p = true ->
  plain_token v = true ->
  str_size (request_with m p v) <= 64 * 1024 ->
  joined incoming = (request_with m p v ++ b)%string ->
  nonempty_segments incoming = true ->
  exists b1 rest,
    read_until_headers "" incoming
    = Some (true, (request_with m p v ++ b1)%string, rest)
    /\ b = (b1 ++ joined rest)%string
    /\ nonempty_segments rest = true.
Proof.
  intros Hm Hp Hv Hhead Hjoin Hne.
  set (H := request_with m p v) in *.
  assert (HH : (4 <= String.length H)%nat).
  { unfold H, request_with. rewrite !length_app. simpl String.length. lia. }
  pose proof (request_with_end m p v b Hm Hp Hv) as Hfind. fold H in Hfind.
  unfold read_until_headers.
  destruct (read_until_headers_upto (H ++ b) "" (String.length H - 4)
              (S (total_bytes incoming)) "" incoming)
    as (acc & rest & Hrun & Hacc & Hne' & Hlen);
    [exact Hfind | unfold str_size in Hhead; lia | exact Hjoin | exact Hne
     | simpl; lia | lia |].
  destruct (app_prefix_split H acc (joined rest) b Hacc) as [b1 ->]; [lia |].
  rewrite string_app_assoc in Hacc. apply app_inv_head_string in Hacc.
  exists b1, rest. split; [exact Hrun |]. split; [now symmetry | exact Hne'].
Qed.

(** X26.  The echo: a request with method [m] and path [p] (not the
    health route) and a Content-Length header that gives the size of its
    body [b], arriving in segments cut anywhere, is answered once, with
    the 200 response whose body is the port line followed by [b], and the
    connection is closed. *)
Theorem backend_echoes_body m p b port sends incoming :
  plain_token m = true ->
  plain_token p = true ->
  (m =? "GET")%string && (p =? "/health")%string = false ->
  str_size (request_head m p (str_size b)) <= 64 * 1024 ->
  str_size (joined incoming) <= INT_MAX ->
  joined incoming = (request_head m p (str_size b) ++ b)%string ->
  nonempty_segments incoming = true ->
  handle_client port sends incoming
  = Some (Ok [answer sends 0
                (echo_response port
                   {| method := m; path := p;
                      headers_raw := request_head m p (str_size b);
                      body := b; content_length := str_size b;
                      keep_alive := false |})]).
Proof.
  intros Hm Hp Hroute Hhead Hsize Hjoin Hne.
  pose proof (str_size_nonneg b) as Hb.
  destruct (string_of_int_plain (str_size b) Hb) as [Hd Hdne].
  unfold request_head in *.
  destruct (read_request_with m p (string_of_int (str_size b)) b incoming)
    as (b1 & rest & Hrun & Hbody & Hne');
    [exact Hm | exact Hp | now apply digits_only_plain | exact Hhead
     | exact Hjoin | exact Hne |].
  unfold handle_client. cbn [handle_client_loop]. rewrite Hrun.
  set (H := request_with m p (string_of_int (str_size b))) in *.
  assert (Hsz : str_size b = str_size b1 + str_size (joined rest))
    by (now rewrite Hbody at 1; rewrite str_size_app).
  pose proof (str_size_nonneg b1) as Hb1.
  pose proof (str_size_nonneg (joined rest)) as Hrest.
  pose proof (str_size_nonneg H) as HHn.
  rewrite Hjoin, str_size_app in Hsize.
  unfold H. rewrite parse_request_with;
    [| exact Hm | exact Hp | now apply digits_only_plain | exact Hdne
     | fold H; rewrite str_size_app; lia].
  fold H. rewrite (digits_only_lowercase _ Hd), stoi_string_of_int by lia.
  cbn [and_then].
  destruct (Z.leb_spec (str_size b) (str_size b1)) as [Hle | Hgt].
  - destruct (Z.ltb_spec (str_size b) 0) as [| _]; [lia |].
    assert (Hnil : joined rest = "").
    { destruct (joined rest); [reflexivity |].
      unfold str_size in *. simpl String.length in *. lia. }
    rewrite Hnil, string_app_nil_r in Hbody. subst b1.
    cbv zeta. cbn [content_length body method path headers_raw keep_alive].
    change (0 <? 0) with false. cbv iota.
    change (substring 0 (Z.to_nat (str_size b)) b) with (bytes b (str_size b)).
    rewrite bytes_whole, string_app_nil_r, Hroute. cbn [negb].
    now destruct (negb (snd _)).
  - cbv zeta. cbn [content_length body method path headers_raw keep_alive].
    destruct (Z.ltb_spec 0 (str_size b)) as [_ | Hno]; [| lia].
    rewrite (size_wrap_small (str_size b - str_size b1))
      by (unfold SIZE_MOD, INT_MAX in *; lia).
    destruct (Z.ltb_spec 0 (str_size b - str_size b1)) as [_ | Hno]; [| lia].
    unfold read_n. rewrite read_n_loop_whole; [| exact Hne' | lia | lia].
    cbn [append]. rewrite <- Hbody, Hroute. cbn [negb].
    now destruct (negb (snd _)).
Qed.

Lemma backend_echoes_body_witness :
  handle_client 9001 (fun _ _ => 1)
    [("POST /items HTTP/1.1" ++ CRLF ++ "Content-Le")%string;
     ("ngth: 11" ++ CRLF ++ CRLF ++ "hello")%string;
     " world"]
  = Some (Ok [answer (fun _ _ => 1) 0
                (echo_response 9001
                   {| method := "POST"; path := "/items";
                      headers_raw := request_head "POST" "/items" 11;
                      body := "hello world"; content_length := 11;
                      keep_alive := false |})]).
Proof.
  apply (backend_echoes_body "POST" "/items" "hello world" 9001
           (fun _ _ => 1)).
  - reflexivity.
  - reflexivity.
  - reflexivity.
  - vm_compute. discriminate.
  - vm_compute. discriminate.
  - reflexivity.
  - reflexivity.
Defined.

(** X27.  A Content-Length that is no number, or a negative one, ends the
    server: once the header block of such a request has arrived,
    [handle_client] throws ([stoi], or [assign] with a negative length),
    nothing catches it, and no answer is sent. *)
Theorem bad_content_length_throws m p v b port sends incoming :
  plain_token m = true ->
  plain_token p = true ->
  plain_token v = true ->
  v <> "" ->
  str_size (request_with m p v) <= 64 * 1024 ->
  str_size (joined incoming) <= INT_MAX ->
  joined incoming = (request_with m p v ++ b)%string ->
  nonempty_segments incoming = true ->
  stoi (lowercase v) = Throws
  \/ (exists n, stoi (lowercase v) = Ok n /\ n < 0) ->
  handle_client port sends incoming = Some Throws.
Proof.
  intros Hm Hp Hv Hvne Hhead Hsize Hjoin Hne Hbad.
  destruct (read_request_with m p v b incoming)
    as (b1 & rest & Hrun & Hbody & Hne');
    [exact Hm | exact Hp | exact Hv | exact Hhead | exact Hjoin | exact Hne |].
  unfold handle_client. cbn [handle_client_loop]. rewrite Hrun.
  pose proof (str_size_nonneg b1) as Hb1.
  pose proof (str_size_nonneg (joined rest)) as Hrest.
  rewrite Hjoin, Hbody, !str_size_app in Hsize.
  rewrite parse_request_with;
    [| exact Hm | exact Hp | exact Hv | exact Hvne | rewrite str_size_app; lia].
  destruct Hbad as [-> | (n & -> & Hneg)]; [reflexivity |].
  cbn [and_then].
  destruct (Z.leb_spec n (str_size b1)) as [_ | Hgt]; [| lia].
  destruct (Z.ltb_spec n 0) as [_ | Hge]; [reflexivity | lia].
Qed.

Lemma bad_content_length_throws_witness :
  handle_client 9001 (fun _ _ => 1)
    [("POST /items HTTP/1.1" ++ CRLF ++ "Content-Length: -1" ++ CRLF
      ++ CRLF)%string]
  = Some Throws.
Proof.
  apply (bad_content_length_throws "POST" "/items" "-1" "" 9001
           (fun _ _ => 1)).
  - reflexivity.
  - reflexivity.
  - reflexivity.
  - discriminate.
  - vm_compute. discriminate.
  - vm_compute. discriminate.
  - reflexivity.
  - reflexivity.
  - right. exists (-1). split; [reflexivity | lia].
Defined.
